(** * ADB: a shallow embedding of the storage/query engine of [adb.py]

    The engine keeps three Python dictionaries ([data], [indexes],
    [schemas]) and a transaction flag; every facade method mutates them in
    place and may raise.  The embedding threads the instance explicitly: a
    method is a function from the instance to the instance after the call
    together with either a return value or the exception raised.  Mutations
    made before an exception is raised stay in the returned instance, as in
    Python. *)

From Stdlib Require Import List String Ascii ZArith QArith Bool Arith Lia.
From Stdlib Require DecimalString.
Import ListNotations.
Local Open Scope string_scope.
Local Open Scope list_scope.
Local Close Scope Q_scope.
Set Warnings "-register-all".

(** ** Values

    Records hold JSON values.  Numbers are restricted to integers; a string
    is a sequence of characters, one per code point. *)

Inductive value : Type :=
| VNone
| VBool (b : bool)
| VInt (z : Z)
| VStr (s : string)
| VList (l : list value)
| VDict (d : list (string * value)).

(** ** Dictionaries

    A Python [dict] keeps its keys in insertion order; assigning to a key
    that is present replaces the value where it stands, assigning to a new
    key appends.  The key equality is a parameter: string equality for
    records, Python's [==] for dictionaries keyed by values. *)

Section Dict.
Context {K V : Type} (keq : K -> K -> bool).

Fixpoint dget (k : K) (d : list (K * V)) : option V :=
  match d with
  | [] => None
  | (k', v) :: d' => if keq k' k then Some v else dget k d'
  end.

Definition dmem (k : K) (d : list (K * V)) : bool :=
  match dget k d with Some _ => true | None => false end.

Fixpoint dset (k : K) (v : V) (d : list (K * V)) : list (K * V) :=
  match d with
  | [] => [(k, v)]
  | (k', v') :: d' =>
      if keq k' k then (k', v) :: d' else (k', v') :: dset k v d'
  end.

Fixpoint ddel (k : K) (d : list (K * V)) : list (K * V) :=
  match d with
  | [] => []
  | (k', v') :: d' => if keq k' k then ddel k d' else (k', v') :: ddel k d'
  end.
End Dict.

Definition sget {V} := @dget string V String.eqb.
Definition smem {V} := @dmem string V String.eqb.
Definition sset {V} := @dset string V String.eqb.
Definition sdel {V} := @ddel string V String.eqb.

(** A record is a dictionary from field names to values.  A query
    condition and the new values of an update are dictionaries of the same
    kind. *)
Definition record := list (string * value).

(** [dict.update]: assign every entry of [new] in turn. *)
Definition dict_update (r new : record) : record :=
  fold_left (fun acc kv => sset (fst kv) (snd kv) acc) new r.

(** ** Python equality and ordering on values *)

Definition num_of (v : value) : option Z :=
  match v with
  | VBool b => Some (Z.b2z b)
  | VInt z => Some z
  | _ => None
  end.

(** [a == b].  [bool] is a subclass of [int], so [True == 1]; two
    dictionaries are equal when they have the same keys with equal values,
    in any order. *)
Fixpoint py_eq (a b : value) : bool :=
  match a, b with
  | VNone, VNone => true
  | VBool x, VBool y => Bool.eqb x y
  | VBool x, VInt y => Z.eqb (Z.b2z x) y
  | VInt x, VBool y => Z.eqb x (Z.b2z y)
  | VInt x, VInt y => Z.eqb x y
  | VStr x, VStr y => String.eqb x y
  | VList xs, VList ys =>
      (fix go (xs ys : list value) : bool :=
         match xs, ys with
         | [], [] => true
         | x :: xs', y :: ys' => py_eq x y && go xs' ys'
         | _, _ => false
         end) xs ys
  | VDict d1, VDict d2 =>
      Nat.eqb (List.length d1) (List.length d2) &&
      (fix all (d : list (string * value)) : bool :=
         match d with
         | [] => true
         | (k, v) :: d' =>
             match sget k d2 with
             | Some v' => py_eq v v'
             | None => false
             end && all d'
         end) d1
  | _, _ => false
  end.

(** Three-way comparison behind [<], [<=], [>], [>=]; [None] stands for
    the [TypeError] Python raises on operands that are not ordered. *)
Fixpoint py_cmp (a b : value) : option comparison :=
  match a, b with
  | VBool x, VBool y => Some (Z.compare (Z.b2z x) (Z.b2z y))
  | VBool x, VInt y => Some (Z.compare (Z.b2z x) y)
  | VInt x, VBool y => Some (Z.compare x (Z.b2z y))
  | VInt x, VInt y => Some (Z.compare x y)
  | VStr x, VStr y => Some (String.compare x y)
  | VList xs, VList ys =>
      (fix go (xs ys : list value) : option comparison :=
         match xs, ys with
         | [], [] => Some Eq
         | [], _ :: _ => Some Lt
         | _ :: _, [] => Some Gt
         | x :: xs', y :: ys' => if py_eq x y then go xs' ys' else py_cmp x y
         end) xs ys
  | _, _ => None
  end.

(** Lists and dictionaries cannot be dictionary keys. *)
Definition hashable (v : value) : bool :=
  match v with
  | VList _ | VDict _ => false
  | _ => true
  end.

Definition vget {V} := @dget value V py_eq.
Definition vmem {V} := @dmem value V py_eq.
Definition vset {V} := @dset value V py_eq.

(** ** Exceptions *)

Inductive ptype : Type := TStr | TInt | TBool | TList | TDict.

Inductive validation_failure : Type :=
| MissingRequired (field : string)
| WrongType (field : string) (expected : ptype)
| TooLong (field : string) (max_length : Z)
| UpdateWithoutCondition
| DeleteWithoutCondition.

Inductive exn : Type :=
| ValidationError (why : validation_failure)
| TableNotFoundError (table_name : string)
| ADBError (message : string)
| TypeError
| KeyError (key : string)
| AttributeError
| Exception (message : string).

Inductive result (A : Type) : Type :=
| Ok (a : A)
| Err (e : exn).
Arguments Ok {A} a.
Arguments Err {A} e.

Definition rbind {A B} (x : result A) (f : A -> result B) : result B :=
  match x with
  | Ok a => f a
  | Err e => Err e
  end.

Definition py_le (a b : value) : result bool :=
  match py_cmp a b with
  | Some Gt => Ok false
  | Some _ => Ok true
  | None => Err TypeError
  end.

Definition py_lt (a b : value) : result bool :=
  match py_cmp a b with
  | Some Lt => Ok true
  | Some _ => Ok false
  | None => Err TypeError
  end.

Definition py_ge (a b : value) : result bool := py_le b a.
Definition py_gt (a b : value) : result bool := py_lt b a.

(** [needle in hay] on strings. *)
Fixpoint contains (needle hay : string) : bool :=
  if String.prefix needle hay then true
  else match hay with
       | EmptyString => false
       | String _ hay' => contains needle hay'
       end.

(** ** Schemas

    A schema maps a field name to its constraints.  [c_type] is the Python
    class given under ['type'] ([None] when the key is absent),
    [c_required] the truth value of ['required'], [c_max_length] the
    integer under ['max_length']. *)

Record constraints : Type := mkConstraints {
  c_type : option ptype;
  c_required : bool;
  c_max_length : option Z
}.

Definition schema := list (string * constraints).

(** [isinstance(value, field_type)]; a [bool] is an instance of [int]. *)
Definition isinstance (v : value) (t : ptype) : bool :=
  match t, v with
  | TStr, VStr _ => true
  | TInt, VInt _ => true
  | TInt, VBool _ => true
  | TBool, VBool _ => true
  | TList, VList _ => true
  | TDict, VDict _ => true
  | _, _ => false
  end.

(** ** Indexes

    An index maps a field value to the list of positions holding it. *)
Definition index := list (value * list nat).

(** ** The file at [db_path] *)

Record file_content : Type := mkFile {
  f_created_at : string;
  f_tables : list (string * list record);
  f_schemas : list (string * schema);
  f_indexes : list (string * list (string * index))
}.

(** ** The instance

    The fields of [ADB.__init__], and [disk]: the successive contents of
    the file at [db_path], the current one first. *)

Record ADB : Type := mkADB {
  data : list (string * list record);
  indexes : list (string * list (string * index));
  schemas : list (string * schema);
  _transaction_active : bool;
  _transaction_backup : option (list (string * list record));
  _last_save_time : Q;
  _save_interval : Q;
  max_records : Z;
  disk : list file_content
}.

Definition set_data (v : list (string * list record)) (s : ADB) : ADB :=
  mkADB v (indexes s) (schemas s) (_transaction_active s)
        (_transaction_backup s) (_last_save_time s) (_save_interval s)
        (max_records s) (disk s).

Definition set_indexes (v : list (string * list (string * index))) (s : ADB)
  : ADB :=
  mkADB (data s) v (schemas s) (_transaction_active s)
        (_transaction_backup s) (_last_save_time s) (_save_interval s)
        (max_records s) (disk s).

Definition set_transaction (active : bool)
    (backup : option (list (string * list record))) (s : ADB) : ADB :=
  mkADB (data s) (indexes s) (schemas s) active backup
        (_last_save_time s) (_save_interval s) (max_records s) (disk s).

Definition set_saved (t : Q) (f : file_content) (s : ADB) : ADB :=
  mkADB (data s) (indexes s) (schemas s) (_transaction_active s)
        (_transaction_backup s) t (_save_interval s) (max_records s)
        (f :: disk s).

(** What a call reads from outside the instance: [time.time()],
    [datetime.now().isoformat()], and whether writing the file succeeds
    ([false]: the write raises [IOError]). *)
Record env : Type := mkEnv {
  time_time : Q;
  now_isoformat : string;
  io_ok : bool
}.

(** ** Methods as state transformers *)

Definition M (A : Type) : Type := ADB -> ADB * result A.

Definition ret {A} (a : A) : M A := fun s => (s, Ok a).
Definition raise {A} (e : exn) : M A := fun s => (s, Err e).
Definition bind {A B} (m : M A) (f : A -> M B) : M B :=
  fun s => match m s with
           | (s', Ok a) => f a s'
           | (s', Err e) => (s', Err e)
           end.
Definition lift {A} (x : result A) : M A := fun s => (s, x).

Declare Scope adb_scope.
Delimit Scope adb_scope with adb.
Notation "x <- m ;; k" := (bind m (fun x => k))
  (at level 61, m at next level, right associativity) : adb_scope.
Notation "m ;;; k" := (bind m (fun _ => k))
  (at level 61, right associativity) : adb_scope.

Local Open Scope adb_scope.

Fixpoint for_each {A} (l : list A) (f : A -> M unit) : M unit :=
  match l with
  | [] => ret tt
  | a :: l' => f a ;;; for_each l' f
  end.

(** ** Slices

    [l[start:stop]] with Python's treatment of negative and out-of-range
    bounds; [stop = None] runs to the end. *)

Definition clamp_index (len i : Z) : Z :=
  if (i <? 0)%Z then Z.max (i + len) 0 else Z.min i len.

Definition py_slice {A} (l : list A) (start : Z) (stop : option Z) : list A :=
  let len := Z.of_nat (List.length l) in
  let lo := clamp_index len start in
  let hi := match stop with
            | None => len
            | Some j => clamp_index len j
            end in
  firstn (Z.to_nat (hi - lo)) (skipn (Z.to_nat lo) l).

(** [result[offset:offset + limit if limit else None]]: a [limit] of
    [None] or [0] is false and leaves the slice open. *)
Definition paginate {A} (l : list A) (limit : option Z) (offset : Z) : list A :=
  py_slice l offset
    (match limit with
     | Some n => if (n =? 0)%Z then None else Some (offset + n)%Z
     | None => None
     end).

Definition Qltb (x y : Q) : bool := negb (Qle_bool y x).

Section Engine.

(** The two builtins [_match_condition] applies for [$like]:
    [str(...)] on a field value and [str.lower]. *)
Variable py_str : value -> string.
Variable str_lower : string -> string.

(** *** [_match_condition] *)

(** One guard of the form
    ['$gt' in value and key in record and record[key] <= value['$gt']];
    [Ok true] when the guard holds and the record is rejected. *)
Definition range_guard (opname : string)
    (rejects : value -> value -> result bool)
    (ops : record) (key : string) (r : record) : result bool :=
  match sget opname ops with
  | None => Ok false
  | Some bound =>
      match sget key r with
      | None => Ok false
      | Some x => rejects x bound
      end
  end.

(** [if '$like' in value and key in record:
       if value['$like'].lower() not in str(record[key]).lower(): ...] *)
Definition like_guard (ops : record) (key : string) (r : record)
  : result bool :=
  match sget "$like" ops with
  | None => Ok false
  | Some pat =>
      match sget key r with
      | None => Ok false
      | Some x =>
          match pat with
          | VStr p => Ok (negb (contains (str_lower p) (str_lower (py_str x))))
          | _ => Err AttributeError
          end
      end
  end.

(** The body of the loop for one [(key, value)] of the condition:
    [Ok false] when it returns [False], [Ok true] when the loop goes on. *)
Definition match_item (r : record) (key : string) (value : value)
  : result bool :=
  match value with
  | VDict ops =>
      rbind (range_guard "$gt" py_le ops key r) (fun rej =>
      if rej then Ok false else
      rbind (range_guard "$lt" py_ge ops key r) (fun rej =>
      if rej then Ok false else
      rbind (range_guard "$gte" py_lt ops key r) (fun rej =>
      if rej then Ok false else
      rbind (range_guard "$lte" py_gt ops key r) (fun rej =>
      if rej then Ok false else
      rbind (like_guard ops key r) (fun rej =>
      Ok (negb rej))))))
  | _ =>
      match sget key r with
      | None => Ok false
      | Some x => Ok (py_eq x value)
      end
  end.

Fixpoint _match_condition (r : record) (condition : record) : result bool :=
  match condition with
  | [] => Ok true
  | (key, value) :: rest =>
      rbind (match_item r key value) (fun go_on =>
      if go_on then _match_condition r rest else Ok false)
  end.

(** [[r for r in records if self._match_condition(r, condition)]] *)
Fixpoint filter_match (records : list record) (condition : record)
  : result (list record) :=
  match records with
  | [] => Ok []
  | r :: rs =>
      rbind (_match_condition r condition) (fun b =>
      rbind (filter_match rs condition) (fun kept =>
      Ok (if b then r :: kept else kept)))
  end.

(** *** Checks *)

Definition _check_table_exists (table_name : string) : M unit :=
  fun s => if smem table_name (data s) then (s, Ok tt)
           else (s, Err (TableNotFoundError table_name)).

(** [self.data[table_name]] *)
Definition get_table (table_name : string) : M (list record) :=
  fun s => match sget table_name (data s) with
           | Some records => (s, Ok records)
           | None => (s, Err (KeyError table_name))
           end.

Definition _check_record_limit (table_name : string) : M unit :=
  records <- get_table table_name ;;
  fun s => if (max_records s <=? Z.of_nat (List.length records))%Z
           then (s, Err (ADBError "record limit reached"))
           else (s, Ok tt).

(** *** [_validate_record] *)

(** [field_type and not isinstance(value, field_type)] *)
Definition wrong_type (c : constraints) (value : value) : option ptype :=
  match c_type c with
  | Some t => if isinstance value t then None else Some t
  | None => None
  end.

Definition max_length_of (c : constraints) : Z :=
  match c_max_length c with
  | Some m => m
  | None => 0
  end.

(** [max_length and isinstance(value, str) and len(value) > max_length] *)
Definition too_long (c : constraints) (value : value) : bool :=
  match c_max_length c, value with
  | Some m, VStr v =>
      negb (m =? 0)%Z && (m <? Z.of_nat (String.length v))%Z
  | _, _ => false
  end.

(** The checks made for one schema field, in the order of the source. *)
Definition check_field (field : string) (c : constraints) (r : record)
  : option validation_failure :=
  if c_required c && negb (smem field r) then Some (MissingRequired field)
  else
    match sget field r with
    | None => None
    | Some value =>
        match wrong_type c value with
        | Some t => Some (WrongType field t)
        | None =>
            if too_long c value
            then Some (TooLong field (max_length_of c)) else None
        end
    end.

Fixpoint validate_fields (sch : schema) (r : record) : result bool :=
  match sch with
  | [] => Ok true
  | (field, c) :: sch' =>
      match check_field field c r with
      | Some why => Err (ValidationError why)
      | None => validate_fields sch' r
      end
  end.

Definition validate_in (schs : list (string * schema))
    (table_name : string) (r : record) : result bool :=
  match sget table_name schs with
  | None => Ok true
  | Some sch => validate_fields sch r
  end.

Definition _validate_record (table_name : string) (r : record) : M bool :=
  fun s => (s, validate_in (schemas s) table_name r).

(** *** [save_database]

    What [json.dump] accepts.  The records and the index keys of this
    development are JSON values; a schema is not when it holds a Python
    class under ['type'], and [json.dump] then raises [TypeError]. *)
Definition json_serializable (s : ADB) : bool :=
  forallb (fun ts =>
             forallb (fun fc => match c_type (snd fc) with
                                | None => true
                                | Some _ => false
                                end) (snd ts))
    (schemas s).

(** The [try] block catches [IOError] alone, so the [TypeError] of
    [json.dump] leaves the method; the file at [db_path] and
    [_last_save_time] are then what they were.  When [io_ok e] is false
    the [IOError] comes from making the directory or opening the
    temporary file, before [json.dump] runs. *)
Definition save_database (e : env) : M bool :=
  fun s =>
    if Qltb (time_time e - _last_save_time s)%Q (_save_interval s)
       && negb (_transaction_active s)
    then (s, Ok true)
    else if io_ok e
    then if json_serializable s
         then (set_saved (time_time e)
                 (mkFile (now_isoformat e) (data s) (schemas s) (indexes s))
                 s,
               Ok true)
         else (s, Err TypeError)
    else (s, Ok false).

(** *** Indexes *)

(** [if value not in index: index[value] = []]
    [index[value].append(i)] *)
Definition index_add (value : value) (i : nat) (idx : index) : index :=
  let idx1 := if vmem value idx then idx else vset value [] idx in
  match vget value idx1 with
  | Some positions => vset value (positions ++ [i]) idx1
  | None => idx1
  end.

(** The loop of [create_index] over [enumerate(self.data[table_name])],
    from position [i] on; a value that is not hashable raises. *)
Fixpoint build_index (column : string) (records : list record) (i : nat)
    (idx : index) : result index :=
  match records with
  | [] => Ok idx
  | r :: rs =>
      match sget column r with
      | None => build_index column rs (S i) idx
      | Some value =>
          if hashable value
          then build_index column rs (S i) (index_add value i idx)
          else Err TypeError
      end
  end.

(** [self.indexes[table_name]] *)
Definition get_table_indexes (table_name : string)
  : M (list (string * index)) :=
  fun s => match sget table_name (indexes s) with
           | Some tix => (s, Ok tix)
           | None => (s, Err (KeyError table_name))
           end.

Definition set_index (table_name column : string) (idx : index) : M unit :=
  tix <- get_table_indexes table_name ;;
  fun s => (set_indexes (sset table_name (sset column idx tix) (indexes s)) s,
            Ok tt).

Definition create_index (table_name column : string) : M bool :=
  _check_table_exists table_name ;;;
  (fun s => if smem table_name (indexes s) then (s, Ok tt)
            else (set_indexes (sset table_name [] (indexes s)) s, Ok tt)) ;;;
  tix <- get_table_indexes table_name ;;
  if smem column tix then ret false
  else
    records <- get_table table_name ;;
    idx <- lift (build_index column records 0 []) ;;
    set_index table_name column idx ;;;
    ret true.

(** [for column in list(self.indexes[table_name].keys()):
       self.create_index(table_name, column)] *)
Definition _rebuild_indexes (table_name : string) : M unit :=
  fun s =>
    match sget table_name (indexes s) with
    | None => (s, Ok tt)
    | Some tix =>
        for_each (map fst tix)
          (fun column => create_index table_name column ;;; ret tt) s
    end.

(** The loop of [_update_indexes_for_insert] over the indexes of the
    table.  Each index is changed in place, so the indexes visited before
    a value that is not hashable keep the new position. *)
Fixpoint update_columns (r : record) (record_index : nat)
    (tix : list (string * index)) : list (string * index) * result unit :=
  match tix with
  | [] => ([], Ok tt)
  | (column, idx) :: rest =>
      match sget column r with
      | None =>
          let (rest', res) := update_columns r record_index rest in
          ((column, idx) :: rest', res)
      | Some value =>
          if hashable value
          then
            let (rest', res) := update_columns r record_index rest in
            ((column, index_add value record_index idx) :: rest', res)
          else ((column, idx) :: rest, Err TypeError)
      end
  end.

Definition _update_indexes_for_insert (table_name : string) (r : record)
    (record_index : nat) : M unit :=
  fun s =>
    match sget table_name (indexes s) with
    | None => (s, Ok tt)
    | Some tix =>
        let (tix', res) := update_columns r record_index tix in
        (set_indexes (sset table_name tix' (indexes s)) s, res)
    end.

(** *** [insert] *)

(** [self.data[table_name].append(record_copy)] *)
Definition append_record (table_name : string) (r : record) : M unit :=
  records <- get_table table_name ;;
  fun s => (set_data (sset table_name (records ++ [r]) (data s)) s, Ok tt).

Definition insert (e : env) (table_name : string) (r : record) : M bool :=
  _check_table_exists table_name ;;;
  _check_record_limit table_name ;;;
  let record_copy := r in
  _validate_record table_name record_copy ;;;
  let record_copy :=
    sset "_created_at" (VStr (now_isoformat e)) record_copy in
  records <- get_table table_name ;;
  let record_copy :=
    sset "_id" (VInt (Z.of_nat (List.length records) + 1)) record_copy in
  records <- get_table table_name ;;
  _update_indexes_for_insert table_name record_copy (List.length records) ;;;
  append_record table_name record_copy ;;;
  save_database e.

(** *** [select] and [count] *)

(** [self.indexes[table_name][key].get(value, [])] *)
Definition index_positions (idx : index) (value : value)
  : result (list nat) :=
  if hashable value
  then Ok (match vget value idx with
           | Some positions => positions
           | None => []
           end)
  else Err TypeError.

(** [[records[i] for i in indexes if i < len(records)]] *)
Definition fetch_positions (records : list record) (positions : list nat)
  : list record :=
  flat_map (fun i => match nth_error records i with
                     | Some r => [r]
                     | None => []
                     end) positions.

Definition select_via_index (records : list record) (idx : index)
    (value : value) (limit : option Z) (offset : Z)
  : result (list record) :=
  rbind (index_positions idx value) (fun positions =>
  Ok (paginate (fetch_positions records positions) limit offset)).

Definition select_full_scan (records : list record) (condition : record)
    (limit : option Z) (offset : Z) : result (list record) :=
  rbind (filter_match records condition) (fun found =>
  Ok (paginate found limit offset)).

(** The test that sends [select] through the index: one field in the
    condition, an index on that field, and a value that is not a
    dictionary. *)
Definition index_for (table_name : string) (condition : record) (s : ADB)
  : option (index * value) :=
  match condition with
  | [(key, value)] =>
      match sget table_name (indexes s) with
      | Some tix =>
          match sget key tix, value with
          | Some idx, VDict _ => None
          | Some idx, _ => Some (idx, value)
          | None, _ => None
          end
      | None => None
      end
  | _ => None
  end.

Definition select (table_name : string) (condition : option record)
    (limit : option Z) (offset : Z) (s : ADB) : result (list record) :=
  match sget table_name (data s) with
  | None => Ok []
  | Some records =>
      match condition with
      | None => Ok (paginate records limit offset)
      | Some cond =>
          match index_for table_name cond s with
          | Some (idx, value) =>
              select_via_index records idx value limit offset
          | None => select_full_scan records cond limit offset
          end
      end
  end.

Definition count (table_name : string) (condition : option record)
    (s : ADB) : result nat :=
  match sget table_name (data s) with
  | None => Ok 0
  | Some records =>
      match condition with
      | None => Ok (List.length records)
      | Some cond =>
          rbind (filter_match records cond) (fun found =>
          Ok (List.length found))
      end
  end.

(** *** [update] and [delete] *)

(** The loop of [update] over the records of the table.  A record that
    matches is validated with the new values and then changed in place;
    when a later record raises, the records already changed stay so. *)
Fixpoint update_loop (schs : list (string * schema)) (e : env)
    (table_name : string) (condition new_values : record)
    (records : list record) : list record * result nat :=
  match records with
  | [] => ([], Ok 0)
  | r :: rs =>
      match _match_condition r condition with
      | Err x => (r :: rs, Err x)
      | Ok false =>
          let (rs', res) :=
            update_loop schs e table_name condition new_values rs in
          (r :: rs', res)
      | Ok true =>
          let temp_record := dict_update r new_values in
          match validate_in schs table_name temp_record with
          | Err x => (r :: rs, Err x)
          | Ok _ =>
              let r' := sset "_updated_at" (VStr (now_isoformat e))
                          (dict_update r new_values) in
              let (rs', res) :=
                update_loop schs e table_name condition new_values rs in
              (r' :: rs', rbind res (fun n => Ok (S n)))
          end
      end
  end.

Definition update (e : env) (table_name : string)
    (condition new_values : record) : M nat :=
  _check_table_exists table_name ;;;
  match condition with
  | [] => raise (ValidationError UpdateWithoutCondition)
  | _ :: _ =>
      records <- get_table table_name ;;
      updated_count <-
        (fun s =>
           let (records', res) :=
             update_loop (schemas s) e table_name condition new_values
               records in
           (set_data (sset table_name records' (data s)) s, res)) ;;
      if Nat.ltb 0 updated_count
      then _rebuild_indexes table_name ;;;
           save_database e ;;;
           ret updated_count
      else ret updated_count
  end.

(** [[record for record in self.data[table_name]
      if not self._match_condition(record, condition)]] *)
Fixpoint filter_not_match (records : list record) (condition : record)
  : result (list record) :=
  match records with
  | [] => Ok []
  | r :: rs =>
      rbind (_match_condition r condition) (fun b =>
      rbind (filter_not_match rs condition) (fun kept =>
      Ok (if b then kept else r :: kept)))
  end.

Definition delete (e : env) (table_name : string) (condition : record)
  : M nat :=
  _check_table_exists table_name ;;;
  match condition with
  | [] => raise (ValidationError DeleteWithoutCondition)
  | _ :: _ =>
      records <- get_table table_name ;;
      let original_count := List.length records in
      kept <- lift (filter_not_match records condition) ;;
      (fun s => (set_data (sset table_name kept (data s)) s, Ok tt)) ;;;
      let deleted_count := original_count - List.length kept in
      if Nat.ltb 0 deleted_count
      then _rebuild_indexes table_name ;;;
           save_database e ;;;
           ret deleted_count
      else ret deleted_count
  end.

(** *** [transaction]

    [json.dumps] followed by [json.loads] gives back an equal value with
    no object shared with the original; on the values of this
    development that is the value itself.  [e] is what [save_database]
    reads at commit.  The body is the code run at [yield]. *)

(** The [except Exception] and [finally] clauses: [data] is read back
    from the backup and the exception is raised again; [json.loads(None)]
    raises [TypeError]. *)
Definition rollback (x : exn) : M unit :=
  fun s =>
    match _transaction_backup s with
    | Some backup => (set_transaction false None (set_data backup s), Err x)
    | None => (set_transaction false None s, Err TypeError)
    end.

(** [save_database] at commit is inside the [try] block: what it raises
    rolls the transaction back as an exception of the body does. *)
Definition transaction (e : env) (body : M unit) : M unit :=
  fun s =>
    if _transaction_active s
    then (s, Err (ADBError "transaction already active"))
    else
      let s1 := set_transaction true (Some (data s)) s in
      match body s1 with
      | (s2, Ok _) =>
          match save_database e s2 with
          | (s3, Ok _) => (set_transaction false None s3, Ok tt)
          | (s3, Err x) => rollback x s3
          end
      | (s2, Err x) => rollback x s2
      end.

(** *** [aggregate] *)

(** [stage['$group']['_id']] *)
Definition group_key_of (group_spec : value) : result value :=
  match group_spec with
  | VDict d =>
      match sget "_id" d with
      | Some k => Ok k
      | None => Err (KeyError "_id")
      end
  | _ => Err TypeError
  end.

(** [record.get(group_key, 'null')] *)
Definition record_get_or_null (r : record) (group_key : value)
  : result value :=
  match group_key with
  | VStr field =>
      Ok (match sget field r with
          | Some v => v
          | None => VStr "null"
          end)
  | _ => if hashable group_key then Ok (VStr "null") else Err TypeError
  end.

(** [x + 1] *)
Definition py_succ (x : value) : result value :=
  match num_of x with
  | Some n => Ok (VInt (n + 1))
  | None => Err TypeError
  end.

(** [if key not in result: result[key] = {'_id': key, 'count': 0}]
    [result[key]['count'] += 1] *)
Definition count_in_group (key : value) (groups : list (value * record))
  : result (list (value * record)) :=
  let groups1 :=
    if vmem key groups then groups
    else vset key [("_id", key); ("count", VInt 0)] groups in
  match vget key groups1 with
  | None => Err (KeyError "group")
  | Some g =>
      match sget "count" g with
      | None => Err (KeyError "count")
      | Some c =>
          rbind (py_succ c) (fun c' =>
          Ok (vset key (sset "count" c' g) groups1))
      end
  end.

(** The body of the loop of the [$group] stage for one record; a key that
    is not hashable raises at [key not in result]. *)
Definition group_step (group_key : value) (groups : list (value * record))
    (r : record) : result (list (value * record)) :=
  rbind (record_get_or_null r group_key) (fun key =>
  if hashable key then count_in_group key groups else Err TypeError).

Fixpoint group_loop (group_key : value) (groups : list (value * record))
    (records : list record) : result (list (value * record)) :=
  match records with
  | [] => Ok groups
  | r :: rs =>
      rbind (group_step group_key groups r) (fun groups' =>
      group_loop group_key groups' rs)
  end.

(** The [$group] branch: [records = list(result.values())]. *)
Definition group_stage (group_spec : value) (records : list record)
  : result (list record) :=
  rbind (group_key_of group_spec) (fun group_key =>
  rbind (group_loop group_key [] records) (fun groups =>
  Ok (map snd groups))).

(** The [$match] branch; a condition that is not a dictionary has no
    [items] and raises at the first record. *)
Definition match_stage (condition : value) (records : list record)
  : result (list record) :=
  match condition with
  | VDict c => filter_match records c
  | _ => match records with
         | [] => Ok []
         | _ :: _ => Err AttributeError
         end
  end.

Fixpoint run_pipeline (records : list record) (pipeline : list record)
  : result (list record) :=
  match pipeline with
  | [] => Ok records
  | stage :: rest =>
      match sget "$group" stage with
      | Some group_spec =>
          rbind (group_stage group_spec records) (fun records' =>
          run_pipeline records' rest)
      | None =>
          match sget "$match" stage with
          | Some condition =>
              rbind (match_stage condition records) (fun records' =>
              run_pipeline records' rest)
          | None => run_pipeline records rest
          end
      end
  end.

Definition aggregate (table_name : string) (pipeline : list record)
    (s : ADB) : result (list record) :=
  match sget table_name (data s) with
  | None => Ok []
  | Some records => run_pipeline records pipeline
  end.

(** *** Transaction bodies

    The code between [with db.transaction():] and the end of the block,
    as a sequence of facade calls and [raise] statements; an exception
    ends the block. *)

Inductive op : Type :=
| OpInsert (e : env) (table_name : string) (r : record)
| OpUpdate (e : env) (table_name : string) (condition new_values : record)
| OpDelete (e : env) (table_name : string) (condition : record)
| OpCreateIndex (table_name column : string)
| OpRaise (x : exn).

Definition run_op (o : op) : M unit :=
  match o with
  | OpInsert e t r => insert e t r ;;; ret tt
  | OpUpdate e t c v => update e t c v ;;; ret tt
  | OpDelete e t c => delete e t c ;;; ret tt
  | OpCreateIndex t c => create_index t c ;;; ret tt
  | OpRaise x => raise x
  end.

Definition run_body (ops : list op) : M unit := for_each ops run_op.

End Engine.

(** ** An instance of the builtins

    Used to run the engine on examples.  [lower_ascii] lowers the letters
    [A]..[Z]; [str_scalar] is Python's [str] on [None], booleans, integers
    and strings; on a list or a dictionary it gives a placeholder, not
    the text Python gives. *)

Definition lower_char (c : ascii) : ascii :=
  let n := nat_of_ascii c in
  if Nat.leb 65 n && Nat.leb n 90 then ascii_of_nat (n + 32) else c.

Fixpoint lower_ascii (s : string) : string :=
  match s with
  | EmptyString => EmptyString
  | String c s' => String (lower_char c) (lower_ascii s')
  end.

Definition str_scalar (v : value) : string :=
  match v with
  | VNone => "None"
  | VBool true => "True"
  | VBool false => "False"
  | VInt z => DecimalString.NilZero.string_of_int (Z.to_int z)
  | VStr s => s
  | VList _ => "[...]"
  | VDict _ => "{...}"
  end.

(** ** The staff scenario

    A fresh instance in which [create_table("staff")] has run, then the
    three inserts, [create_index("staff", "dept")] and the deletion of the
    record of age 20. *)

Definition clock (t : Z) : env := mkEnv (inject_Z t) "2024-01-01T00:00:00" true.

Definition fresh (tables : list string) : ADB :=
  mkADB (map (fun t => (t, [])) tables) (map (fun t => (t, [])) tables) []
        false None (inject_Z 0) (inject_Z 1) 100000%Z [].

Definition staff_a : record := [("dept", VStr "eng"); ("age", VInt 20)].
Definition staff_b : record := [("dept", VStr "eng"); ("age", VInt 40)].
Definition staff_c : record := [("dept", VStr "hr"); ("age", VInt 30)].

Definition staff_indexed : M unit :=
  insert (clock 10) "staff" staff_a ;;;
  insert (clock 20) "staff" staff_b ;;;
  insert (clock 30) "staff" staff_c ;;;
  create_index "staff" "dept" ;;;
  ret tt.

Definition staff_after_delete (py_str : value -> string)
    (str_lower : string -> string) : M unit :=
  staff_indexed ;;;
  delete py_str str_lower (clock 40) "staff" [("age", VInt 20)] ;;;
  ret tt.

(** What [select] returns for [{"dept": "eng"}] once the record of age 20
    is gone, and what a scan of the table returns. *)
Definition stamped (r : record) (id : Z) : record :=
  r ++ [("_created_at", VStr "2024-01-01T00:00:00"); ("_id", VInt id)].

(** ** The users scenario

    The instance after [create_table("users", schema)] with the schema
    [{name: {type: str, required: True, max_length: 5}}], under a given
    record limit. *)

Definition users_schema : schema :=
  [("name", mkConstraints (Some TStr) true (Some 5%Z))].

Definition users_db (limit : Z) : ADB :=
  mkADB [("users", [])] [("users", [])] [("users", users_schema)]
        false None (inject_Z 0) (inject_Z 1) limit [].

(** ** Schema violations

    A record violates a schema when some field of the schema is required
    and absent, or present with a value that is not an instance of the
    declared type, or present with a string longer than a declared
    [max_length] other than 0. *)
Definition violates (sch : schema) (r : record) : Prop :=
  exists field c,
    In (field, c) sch /\
    ((c_required c = true /\ sget field r = None)
     \/ (exists v t,
           sget field r = Some v /\ c_type c = Some t /\
           isinstance v t = false)
     \/ (exists v m,
           sget field r = Some (VStr v) /\ c_max_length c = Some m /\
           m <> 0%Z /\ (m < Z.of_nat (String.length v))%Z)).

(** ** Transaction state

    [keeps_tx m]: the call [m] leaves [_transaction_active] and
    [_transaction_backup] as it found them, whether it returns or
    raises. *)
Definition keeps_tx {A} (m : M A) : Prop :=
  forall s s' res,
    m s = (s', res) ->
    _transaction_active s' = _transaction_active s
    /\ _transaction_backup s' = _transaction_backup s.

(** [keeps_schemas m]: the call [m] leaves [schemas] as it found them,
    whether it returns or raises. *)
Definition keeps_schemas {A} (m : M A) : Prop :=
  forall s s' res, m s = (s', res) -> schemas s' = schemas s.

(** The state in which the body of a transaction starts. *)
Definition begin_transaction (s : ADB) : ADB :=
  set_transaction true (Some (data s)) s.

(** The body "insert these records into the table": one [insert] per
    pair of a clock reading and a record. *)
Definition insert_ops (table_name : string) (ins : list (env * record))
  : list op :=
  map (fun er => OpInsert (fst er) table_name (snd er)) ins.

(** The record [insert] appends to a table of [n] records. *)
Definition stored_record (e : env) (n : nat) (r : record) : record :=
  sset "_id" (VInt (Z.of_nat n + 1))
    (sset "_created_at" (VStr (now_isoformat e)) r).

Fixpoint stored_records (n : nat) (ins : list (env * record)) : list record :=
  match ins with
  | [] => []
  | (e, r) :: rest => stored_record e n r :: stored_records (S n) rest
  end.


(** ** Grouping, as the specification words it

    The key of a record under [by_field] is the value of the field, or the
    string ["null"] when the record has no such field.  The result holds
    one record [{_id: key, count: n}] for each key, keys being told apart
    by Python's equality and taken in the order of their first
    occurrence; [n] counts the records with an equal key. *)

Definition group_key (by_field : string) (r : record) : value :=
  match sget by_field r with
  | Some v => v
  | None => VStr "null"
  end.

Fixpoint distinct_keys (keys : list value) : list value :=
  match keys with
  | [] => []
  | k :: ks => k :: filter (fun k' => negb (py_eq k k')) (distinct_keys ks)
  end.

Definition count_key (k : value) (keys : list value) : nat :=
  List.length (filter (py_eq k) keys).

Definition group_record (k : value) (n : nat) : record :=
  [("_id", k); ("count", VInt (Z.of_nat n))].

Definition grouped (by_field : string) (records : list record) : list record :=
  let keys := map (group_key by_field) records in
  map (fun k => group_record k (count_key k keys)) (distinct_keys keys).

(** No two members are equal for Python. *)
Fixpoint pairwise_distinct (l : list value) : Prop :=
  match l with
  | [] => True
  | x :: l' => Forall (fun y => py_eq x y = false) l' /\ pairwise_distinct l'
  end.

(** The dictionary [result] of the [$group] stage seen as a list of keys
    with their counts, and the effect of one more record of key [k]. *)
Definition tally_entry (kn : value * nat) : value * record :=
  (fst kn, group_record (fst kn) (snd kn)).

Fixpoint bump (k : value) (t : list (value * nat)) : list (value * nat) :=
  match t with
  | [] => [(k, 1)]
  | (k', n) :: t' =>
      if py_eq k' k then (k', S n) :: t' else (k', n) :: bump k t'
  end.

(** Python's equality on hashable values is equality up to reading a
    boolean as the integer it is. *)
Definition canon (v : value) : value :=
  match v with
  | VBool b => VInt (Z.b2z b)
  | _ => v
  end.

(** ** Records as objects

    [insert] is handed a dictionary object and could change it in place.
    To follow that, this part keeps the dictionaries in a store: an
    address is a position in [objects], a table is a list of addresses,
    and [inst] is the rest of the instance (its [data] is not read; the
    tables are read through [rows]).  Values inside a record are not
    objects here: [insert] assigns to keys of a record and never reaches
    into a value. *)

Record store : Type := mkStore {
  objects : list record;
  rows : list (string * list nat);
  inst : ADB
}.

Definition read (st : store) (address : nat) : record :=
  nth address (objects st) [].

Fixpoint list_set {A} (l : list A) (i : nat) (x : A) : list A :=
  match l, i with
  | [], _ => []
  | _ :: l', 0 => x :: l'
  | a :: l', S i' => a :: list_set l' i' x
  end.

(** [obj[key] = v] on the object at [address]. *)
Definition assign (address : nat) (key : string) (v : value) (st : store)
  : store :=
  mkStore (list_set (objects st) address (sset key v (read st address)))
          (rows st) (inst st).

(** [self.data], every address replaced by the record it holds. *)
Definition deref (st : store) : list (string * list record) :=
  map (fun tr => (fst tr, map (read st) (snd tr))) (rows st).

(** The instance the store stands for. *)
Definition view (st : store) : ADB := set_data (deref st) (inst st).

(** A method that does not touch the tables, run on a store. *)
Definition on_inst {A} (m : M A) (st : store) : store * result A :=
  let (s', res) := m (view st) in
  (mkStore (objects st) (rows st) s', res).

(** [insert(table_name, record)] where [record] is the object at
    [argument]; [record.copy()] allocates the next address. *)
Definition insert_obj (e : env) (table_name : string) (argument : nat)
    (st : store) : store * result bool :=
  match sget table_name (rows st) with
  | None => (st, Err (TableNotFoundError table_name))
  | Some refs =>
      if (max_records (inst st) <=? Z.of_nat (List.length refs))%Z
      then (st, Err (ADBError "record limit reached"))
      else
        let record_copy := List.length (objects st) in
        let st1 :=
          mkStore (objects st ++ [read st argument]) (rows st) (inst st) in
        match validate_in (schemas (inst st1)) table_name
                (read st1 record_copy) with
        | Err x => (st1, Err x)
        | Ok _ =>
            let st2 :=
              assign record_copy "_created_at" (VStr (now_isoformat e)) st1 in
            let st3 :=
              assign record_copy "_id"
                (VInt (Z.of_nat (List.length refs) + 1)) st2 in
            match on_inst (_update_indexes_for_insert table_name
                             (read st3 record_copy) (List.length refs)) st3
            with
            | (st4, Err x) => (st4, Err x)
            | (st4, Ok _) =>
                on_inst (save_database e)
                  (mkStore (objects st4)
                     (sset table_name (refs ++ [record_copy]) (rows st4))
                     (inst st4))
            end
        end
  end.

(** Every address in a table is allocated. *)
Definition well_formed (st : store) : Prop :=
  forall table_name refs address,
    In (table_name, refs) (rows st) -> In address refs ->
    address < List.length (objects st).

(** ** Scenarios for the transaction, the aggregation and the store *)

(** The staff table with its three records and the index on [dept]. *)
Definition staff_db : ADB := fst (staff_indexed (fresh ["staff"])).

Definition staff_d : record := [("dept", VStr "eng"); ("age", VInt 50)].

Definition boom : exn := Exception "boom".

(** A table [posts] holding one record whose [tags] is a list. *)
Definition posts_db : ADB :=
  fst (insert (clock 10) "posts" [("tags", VList [VInt 1])] (fresh ["posts"])).

(** A table [notes] holding a record whose [owner] is [None] and a record
    without [owner]. *)
Definition notes_db : ADB :=
  fst ((insert (clock 10) "notes" [("owner", VNone)] ;;;
        insert (clock 20) "notes" [("text", VStr "x")]) (fresh ["notes"])).

Definition group_by (field : string) : record :=
  [("$group", VDict [("_id", VStr field)])].

(** A store with the caller's dictionary at address 0 and an empty
    table. *)
Definition staff_store : store :=
  mkStore [staff_a] [("staff", [])] (fresh ["staff"]).

(** Unfold the facade methods that depend on the builtins. *)
Ltac unfold_facade :=
  try unfold select in *; try unfold count in *; try unfold update in *;
  try unfold delete in *; try unfold aggregate in *;
  try unfold run_body in *.

(** ** What an index should hold

    The positions, counted from [i], of the records whose [column] equals
    [v] for Python; the positions an index gives for [v]; and the effect
    of [index_add] on the list of entries. *)

Fixpoint positions_of (column : string) (v : value) (records : list record)
    (i : nat) : list nat :=
  match records with
  | [] => []
  | r :: rs =>
      match sget column r with
      | Some x => if py_eq x v then [i] else []
      | None => []
      end ++ positions_of column v rs (S i)
  end.

Definition index_get (idx : index) (v : value) : list nat :=
  match vget v idx with
  | Some positions => positions
  | None => []
  end.

Fixpoint add_position (x : value) (i : nat) (idx : index) : index :=
  match idx with
  | [] => [(x, [i])]
  | (k, l) :: idx' =>
      if py_eq k x then (k, l ++ [i]) :: idx'
      else (k, l) :: add_position x i idx'
  end.

Definition keys_hashable (idx : index) : Prop :=
  Forall (fun kl => hashable (fst kl) = true) idx.

(** The field [column] of a record equals [v]: the test of a literal
    equality condition. *)
Definition field_equals (column : string) (v : value) (r : record) : bool :=
  match sget column r with
  | Some x => py_eq x v
  | None => false
  end.

(** The index on [column] of the table is present and holds, for every
    hashable value, the positions of the records equal to it. *)
Definition index_exact (table_name column : string) (s : ADB) : Prop :=
  exists records tix idx,
    sget table_name (data s) = Some records
    /\ sget table_name (indexes s) = Some tix
    /\ sget column tix = Some idx
    /\ keys_hashable idx
    /\ forall v, hashable v = true ->
         index_get idx v = positions_of column v records 0.

(** ** The other methods of the class

    [del d[k]] is [sdel]: afterwards the dictionary has no entry for the
    key. *)

Definition set_schemas (v : list (string * schema)) (s : ADB) : ADB :=
  mkADB (data s) (indexes s) v (_transaction_active s)
        (_transaction_backup s) (_last_save_time s) (_save_interval s)
        (max_records s) (disk s).

(** [drop_table].  The class defines the method twice; the second
    definition is the one in force. *)
Definition drop_table (e : env) (table_name : string) : M bool :=
  fun s =>
    if smem table_name (data s)
    then
      let s1 := set_data (sdel table_name (data s)) s in
      let s2 := if smem table_name (indexes s1)
                then set_indexes (sdel table_name (indexes s1)) s1 else s1 in
      let s3 := if smem table_name (schemas s2)
                then set_schemas (sdel table_name (schemas s2)) s2 else s2 in
      save_database e s3
    else (s, Ok false).

Definition drop_index (table_name column : string) : M bool :=
  fun s =>
    match sget table_name (indexes s) with
    | None => (s, Ok false)
    | Some tix =>
        if smem column tix
        then (set_indexes
                (sset table_name (sdel column tix) (indexes s)) s,
              Ok true)
        else (s, Ok false)
    end.

(** [truncate_table]: [self.data[table_name] = []], then every index of
    the table is set to [{}]. *)
Definition truncate_table (e : env) (table_name : string) : M bool :=
  fun s =>
    if smem table_name (data s)
    then
      let s1 := set_data (sset table_name [] (data s)) s in
      let s2 :=
        match sget table_name (indexes s1) with
        | Some tix =>
            set_indexes
              (sset table_name (map (fun ci => (fst ci, [])) tix)
                 (indexes s1)) s1
        | None => s1
        end in
      save_database e s2
    else (s, Ok false).

Definition rename_table (e : env) (old_name new_name : string) : M bool :=
  fun s =>
    match sget old_name (data s) with
    | None => (s, Ok false)
    | Some records =>
        if smem new_name (data s) then (s, Ok false)
        else
          let s1 :=
            set_data (sdel old_name (sset new_name records (data s))) s in
          let s2 :=
            match sget old_name (indexes s1) with
            | Some tix =>
                set_indexes
                  (sdel old_name (sset new_name tix (indexes s1))) s1
            | None => s1
            end in
          let s3 :=
            match sget old_name (schemas s2) with
            | Some sch =>
                set_schemas
                  (sdel old_name (sset new_name sch (schemas s2))) s2
            | None => s2
            end in
          save_database e s3
    end.

(** [for i, record in enumerate(...): record['_id'] = i + 1], from
    position [i] on. *)
Fixpoint renumber_from (i : nat) (records : list record) : list record :=
  match records with
  | [] => []
  | r :: rs =>
      sset "_id" (VInt (Z.of_nat i + 1)) r :: renumber_from (S i) rs
  end.

Definition optimize_table (e : env) (table_name : string) : M bool :=
  fun s =>
    if smem table_name (data s)
    then
      (_rebuild_indexes table_name ;;;
       records <- get_table table_name ;;
       (fun s1 =>
          (set_data (sset table_name (renumber_from 0 records) (data s1)) s1,
           Ok tt)) ;;;
       save_database e) s
    else (s, Ok false).

(** [alter_table(table_name, action, column_name=..., column_def=...,
    default_value=...)] for a call that names the column; [column_def]
    defaults to the empty constraints and [default_value] to [None]. *)
Definition add_column (table_name column_name : string)
    (column_def : constraints) (default_value : value) (s : ADB) : ADB :=
  let s1 :=
    match sget table_name (schemas s) with
    | Some sch =>
        set_schemas
          (sset table_name (sset column_name column_def sch) (schemas s)) s
    | None => s
    end in
  match sget table_name (data s1) with
  | Some records =>
      set_data
        (sset table_name
           (map (fun r => if smem column_name r then r
                          else sset column_name default_value r) records)
           (data s1)) s1
  | None => s1
  end.

Definition drop_column (table_name column_name : string) (s : ADB) : ADB :=
  let s1 :=
    match sget table_name (schemas s) with
    | Some sch =>
        if smem column_name sch
        then set_schemas
               (sset table_name (sdel column_name sch) (schemas s)) s
        else s
    | None => s
    end in
  let s2 :=
    match sget table_name (data s1) with
    | Some records =>
        set_data
          (sset table_name
             (map (fun r => if smem column_name r then sdel column_name r
                            else r) records)
             (data s1)) s1
    | None => s1
    end in
  match sget table_name (indexes s2) with
  | Some tix =>
      if smem column_name tix
      then set_indexes
             (sset table_name (sdel column_name tix) (indexes s2)) s2
      else s2
  | None => s2
  end.

Definition alter_table (e : env) (table_name action column_name : string)
    (column_def : constraints) (default_value : value) : M bool :=
  fun s =>
    if smem table_name (data s)
    then
      save_database e
        (if String.eqb action "add_column"
         then add_column table_name column_name column_def default_value s
         else if String.eqb action "drop_column"
         then drop_column table_name column_name s
         else s)
    else (s, Ok false).

Definition set_schema (e : env) (table_name : string) (sch : schema)
  : M bool :=
  fun s =>
    if smem table_name (data s)
    then save_database e (set_schemas (sset table_name sch (schemas s)) s)
    else (s, Ok false).

Definition get_schema (table_name : string) (s : ADB) : option schema :=
  sget table_name (schemas s).

Definition list_tables (s : ADB) : list string := map fst (data s).

Definition list_indexes (table_name : string) (s : ADB)
  : result (list string) :=
  if smem table_name (data s)
  then Ok (match sget table_name (indexes s) with
           | Some tix => map fst tix
           | None => []
           end)
  else Err (TableNotFoundError table_name).

(** *** [create_table]

    [_validate_table_name] raises [ValidationError] in three cases; they
    are told apart here.  [str.isalnum] is a parameter. *)

Inductive table_name_failure : Type :=
| NameEmpty
| NameTooLong
| NameNotAlphanumeric.

Inductive create_outcome : Type :=
| NameRefused (why : table_name_failure)
| Created (r : result bool).

(** [s.replace(c, '')] for a one-character [c]. *)
Fixpoint remove_char (c : ascii) (s : string) : string :=
  match s with
  | EmptyString => EmptyString
  | String a s' =>
      if Ascii.eqb a c then remove_char c s' else String a (remove_char c s')
  end.

Section TableNames.

Variable str_isalnum : string -> bool.

Definition _validate_table_name (table_name : string)
  : option table_name_failure :=
  if String.eqb table_name "" then Some NameEmpty
  else if Nat.ltb 64 (String.length table_name) then Some NameTooLong
  else if str_isalnum (remove_char "-" (remove_char "_" table_name))
  then None
  else Some NameNotAlphanumeric.

(** [schema] is [None] when the argument is left out; [if schema:] is
    false for [None] and for the empty dictionary. *)
Definition create_table (e : env) (table_name : string)
    (sch : option schema) (s : ADB) : ADB * create_outcome :=
  match _validate_table_name table_name with
  | Some why => (s, NameRefused why)
  | None =>
      if smem table_name (data s) then (s, Created (Ok false))
      else
        let s1 := set_data (sset table_name [] (data s)) s in
        let s2 := set_indexes (sset table_name [] (indexes s1)) s1 in
        let s3 :=
          match sch with
          | Some ((_ :: _) as sc) =>
              set_schemas (sset table_name sc (schemas s2)) s2
          | _ => s2
          end in
        let (s4, r) := save_database e s3 in
        (s4, Created r)
  end.

End TableNames.

(** *** [explain_query]

    The plan; its ['table'] and ['condition'] are the two arguments and
    are left out. *)

Record plan : Type := mkPlan {
  scan_type : string;
  estimated_rows : nat;
  indexes_used : list string
}.

(** The loop over [condition.keys()]. *)
Fixpoint explain_keys (tix : list (string * index)) (condition : record)
    (p : plan) : result plan :=
  match condition with
  | [] => Ok p
  | (key, v) :: rest =>
      match sget key tix with
      | None => explain_keys tix rest p
      | Some idx =>
          let p1 := mkPlan "index_scan" (estimated_rows p)
                      (indexes_used p ++ [key]) in
          match v with
          | VDict _ => explain_keys tix rest p1
          | _ =>
              rbind (index_positions idx v) (fun index_values =>
              explain_keys tix rest
                (mkPlan (scan_type p1) (List.length index_values)
                   (indexes_used p1)))
          end
      end
  end.

Definition explain_query (table_name : string) (condition : option record)
    (s : ADB) : result plan :=
  match sget table_name (data s) with
  | None => Ok (mkPlan "full_scan" 0 [])
  | Some records =>
      let p := mkPlan "full_scan" (List.length records) [] in
      match condition, sget table_name (indexes s) with
      | Some ((_ :: _) as cond), Some tix => explain_keys tix cond p
      | _, _ => Ok p
      end
  end.

(** *** [load_database] and [vacuum]

    The file is one that [save_database] wrote.  Reading it back gives
    the records and the schemas as they were written; in an index, JSON
    has turned every key into a string. *)

Definition json_key (k : value) : option string :=
  match k with
  | VStr t => Some t
  | VInt z => Some (DecimalString.NilZero.string_of_int (Z.to_int z))
  | VBool true => Some "true"
  | VBool false => Some "false"
  | VNone => Some "null"
  | VList _ | VDict _ => None
  end.

(** The dictionary [json.load] builds from the entries of a written
    index; a key that [json.dump] refuses is in no file. *)
Definition reload_index (idx : index) : index :=
  fold_left (fun acc kl =>
               match json_key (fst kl) with
               | Some t => vset (VStr t) (snd kl) acc
               | None => acc
               end) idx [].

Definition reload_indexes (ix : list (string * list (string * index)))
  : list (string * list (string * index)) :=
  map (fun ti =>
         (fst ti, map (fun ci => (fst ci, reload_index (snd ci))) (snd ti)))
    ix.

Definition load_database : M unit :=
  fun s =>
    match disk s with
    | [] => (set_schemas [] (set_indexes [] (set_data [] s)), Ok tt)
    | f :: _ =>
        (set_schemas (f_schemas f)
           (set_indexes (reload_indexes (f_indexes f))
              (set_data (f_tables f) s)),
         Ok tt)
    end.

(** The [i]-th table is optimized under the clock reading [clock i], the
    last [save_database] under the next one. *)
Fixpoint optimize_all (clock : nat -> env) (i : nat) (tables : list string)
  : M nat :=
  match tables with
  | [] => ret i
  | t :: rest =>
      optimize_table (clock i) t ;;; optimize_all clock (S i) rest
  end.

Definition vacuum (clock : nat -> env) : M bool :=
  fun s =>
    match (i <- optimize_all clock 0 (map fst (data s)) ;;
           save_database (clock i) ;;;
           load_database) s with
    | (s', Ok _) => (s', Ok true)
    | (s', Err _) => (s', Ok false)
    end.

(** *** [import_data]

    The dictionary returned is either [{'error': 'Table not found',
    'imported': 0}] or the three counters, with the exception whose text
    is under ['transaction_error'] when there is one. *)

Inductive import_result : Type :=
| ImportTableNotFound
| ImportCounts (imported skipped errors : nat)
    (transaction_error : option exn).

Section ImportData.

Variable py_str : value -> string.
Variable str_lower : string -> string.

(** The [try] block run for one record; [e0] and [e1] are what the first
    and the second facade call made for the record read from outside.
    The value says whether ['imported'] is incremented. *)
Definition import_record (mode table_name : string) (e0 e1 : env)
    (r : record) : M bool :=
  if String.eqb mode "insert"
  then insert e0 table_name r ;;; ret true
  else if String.eqb mode "replace"
  then
    match sget "_id" r with
    | Some id =>
        delete py_str str_lower e0 table_name [("_id", id)] ;;;
        insert e1 table_name r ;;;
        ret true
    | None => insert e0 table_name r ;;; ret true
    end
  else if String.eqb mode "update"
  then
    match sget "_id" r with
    | Some id =>
        updated <- update py_str str_lower e0 table_name [("_id", id)] r ;;
        if Nat.ltb 0 updated then ret true
        else insert e1 table_name r ;;; ret true
    | None => insert e0 table_name r ;;; ret true
    end
  else ret false.

(** The loop over [data]; [except Exception] catches whatever a record
    raises and counts it.  The counters are threaded. *)
Fixpoint import_loop (mode table_name : string)
    (items : list (env * env * record)) (imported errors : nat)
  : M (nat * nat) :=
  match items with
  | [] => ret (imported, errors)
  | (e0, e1, r) :: rest =>
      fun s =>
        match import_record mode table_name e0 e1 r s with
        | (s1, Ok true) =>
            import_loop mode table_name rest (S imported) errors s1
        | (s1, Ok false) =>
            import_loop mode table_name rest imported errors s1
        | (s1, Err _) =>
            import_loop mode table_name rest imported (S errors) s1
        end
  end.

(** The counters are in a local dictionary that the body of the [with]
    block writes: they are read off the run of the loop from the state the
    block starts in, and stay at 0 when [transaction] raises on entry. *)
Definition import_counters (mode table_name : string)
    (items : list (env * env * record)) (s : ADB) : nat * nat :=
  if _transaction_active s then (0, 0)
  else
    match import_loop mode table_name items 0 0
            (set_transaction true (Some (data s)) s) with
    | (_, Ok counters) => counters
    | (_, Err _) => (0, 0)
    end.

Definition import_data (e : env) (table_name : string)
    (items : list (env * env * record)) (mode : string) (s : ADB)
  : ADB * import_result :=
  if smem table_name (data s)
  then
    let (imported, errors) := import_counters mode table_name items s in
    match transaction e
            (import_loop mode table_name items 0 0 ;;; ret tt) s with
    | (s', Ok _) => (s', ImportCounts imported 0 errors None)
    | (s', Err x) => (s', ImportCounts imported 0 errors (Some x))
    end
  else (s, ImportTableNotFound).

End ImportData.

(** ** Table names

    A name made of underscores and hyphens alone, and an instance of
    [str.isalnum] on ASCII strings to run [create_table] on examples. *)

Fixpoint only_underscores_and_hyphens (s : string) : bool :=
  match s with
  | EmptyString => true
  | String a s' =>
      (Ascii.eqb a "_" || Ascii.eqb a "-")
      && only_underscores_and_hyphens s'
  end.

Definition alnum_char (c : ascii) : bool :=
  let n := nat_of_ascii c in
  (Nat.leb 48 n && Nat.leb n 57)
  || (Nat.leb 65 n && Nat.leb n 90)
  || (Nat.leb 97 n && Nat.leb n 122).

Fixpoint all_alnum (s : string) : bool :=
  match s with
  | EmptyString => true
  | String c s' => alnum_char c && all_alnum s'
  end.

Definition isalnum_ascii (s : string) : bool :=
  negb (String.eqb s "") && all_alnum s.

(** ** Range conditions on integers

    What an operator dictionary asks of an integer field: each of the
    four bounds that is present, and is an integer, must hold. *)

Definition bound_holds (ops : record) (opname : string) (test : Z -> bool)
  : bool :=
  match sget opname ops with
  | Some (VInt a) => test a
  | _ => true
  end.

Definition in_range (ops : record) (x : Z) : bool :=
  bound_holds ops "$gt" (fun a => (a <? x)%Z)
  && bound_holds ops "$lt" (fun b => (x <? b)%Z)
  && bound_holds ops "$gte" (fun a => (a <=? x)%Z)
  && bound_holds ops "$lte" (fun b => (x <=? b)%Z).

(** Every bound of the dictionary is an integer. *)
Definition integer_bounds (ops : record) : Prop :=
  forall opname bound,
    In opname ["$gt"; "$lt"; "$gte"; "$lte"] ->
    sget opname ops = Some bound -> exists a, bound = VInt a.

(** ** Scenarios for the other methods *)

(** The records of the staff table. *)
Definition staff_records : list record :=
  [stamped staff_a 1; stamped staff_b 2; stamped staff_c 3].

(** The staff table once the record of age 20 is deleted: the index on
    [dept] still holds the positions of the three records. *)
Definition staff_deleted : ADB :=
  fst (staff_after_delete str_scalar lower_ascii (fresh ["staff"])).

(** A clock reading half a second after [clock t]. *)
Definition half_past (t : Z) : env :=
  mkEnv (inject_Z t + (1 # 2))%Q "2024-01-01T00:00:00" true.

(** One record inserted and saved at 10, a second inserted at 10.5 and
    so not saved. *)
Definition unsaved_db : ADB :=
  fst ((insert (clock 10) "staff" staff_a ;;;
        insert (half_past 10) "staff" staff_b) (fresh ["staff"])).

(** An index on [age] made between two inserts; the second insert
    writes it to the file. *)
Definition ages_db : ADB :=
  fst ((insert (clock 10) "staff" staff_a ;;;
        create_index "staff" "age" ;;;
        insert (clock 20) "staff" staff_b) (fresh ["staff"])).

(** A table whose second record holds a string under [age]. *)
Definition staff_old : record := [("age", VStr "old")].

Definition mixed_db : ADB :=
  fst ((insert (clock 10) "staff" staff_a ;;;
        insert (clock 20) "staff" staff_old) (fresh ["staff"])).

Definition no_constraint : constraints := mkConstraints None false None.


(** * Properties *)

Section Properties.

Variable py_str : value -> string.
Variable str_lower : string -> string.

Local Abbreviation match_condition := (_match_condition py_str str_lower).
Local Abbreviation select := (select py_str str_lower).
Local Abbreviation count := (count py_str str_lower).
Local Abbreviation update := (update py_str str_lower).
Local Abbreviation delete := (delete py_str str_lower).
Local Abbreviation aggregate := (aggregate py_str str_lower).
Local Abbreviation run_body := (run_body py_str str_lower).

(** ** Reads and writes on a table that does not exist *)

(** C9: on a table name that is not in [data], [select] returns the empty
    list for every condition, limit and offset and [count] returns 0,
    neither raising, whereas [insert], [update] and [delete] raise
    [TableNotFoundError] and change nothing. *)
Theorem absent_table_select_count_do_not_raise
    (s : ADB) (table_name : string)
    (condition : option record) (limit : option Z) (offset : Z)
    (e : env) (r cond new_values : record) :
  sget table_name (data s) = None ->
  select table_name condition limit offset s = Ok []
  /\ count table_name condition s = Ok 0
  /\ insert e table_name r s = (s, Err (TableNotFoundError table_name))
  /\ update e table_name cond new_values s
     = (s, Err (TableNotFoundError table_name))
  /\ delete e table_name cond s = (s, Err (TableNotFoundError table_name)).
Proof.
  intros H.
  assert (Hm : smem table_name (data s) = false).
  { unfold smem, dmem. fold (@sget (list record)). now rewrite H. }
  unfold_facade. unfold insert, bind, _check_table_exists.
  rewrite H, Hm. repeat split; reflexivity.
Qed.

(** ** Fields missing from the record *)

Lemma range_guard_missing opname rejects ops key r :
  sget key r = None -> range_guard opname rejects ops key r = Ok false.
Proof.
  intros H. unfold range_guard. rewrite H. now destruct (sget opname ops).
Qed.

Lemma like_guard_missing ops key r :
  sget key r = None -> like_guard py_str str_lower ops key r = Ok false.
Proof.
  intros H. unfold like_guard. rewrite H. now destruct (sget "$like" ops).
Qed.

Lemma match_item_missing r key value :
  sget key r = None ->
  match_item py_str str_lower r key value
  = Ok (match value with VDict _ => true | _ => false end).
Proof.
  intros H. unfold match_item.
  destruct value; try (rewrite H; reflexivity).
  rewrite !range_guard_missing by assumption. cbn.
  now rewrite like_guard_missing.
Qed.

Lemma match_condition_cons r key value rest :
  match_condition r ((key, value) :: rest)
  = rbind (match_item py_str str_lower r key value) (fun go_on =>
      if go_on then match_condition r rest else Ok false).
Proof. reflexivity. Qed.

Lemma match_condition_app r c1 c2 :
  match_condition r (c1 ++ c2)
  = rbind (match_condition r c1) (fun b =>
      if b then match_condition r c2 else Ok false).
Proof.
  induction c1 as [|[k v] c1 IH]; cbn.
  - reflexivity.
  - destruct (match_item py_str str_lower r k v) as [[|]|x]; cbn; auto.
Qed.

(** C2 (amended): when the field is missing from the record, an operator
    mapping on that field ([$gt], [$gte], [$lt], [$lte], [$like], in any
    combination) is skipped: the record matches the condition exactly
    when it matches the condition without that entry.  A literal
    equality on the missing field is a mismatch: the condition is not
    matched, and a condition with that single field returns [False]. *)
Theorem missing_field_skips_operators_fails_equality
    (r : record) (key : string) :
  sget key r = None ->
  (forall ops before after,
      match_condition r (before ++ (key, VDict ops) :: after)
      = match_condition r (before ++ after))
  /\ (forall value before after,
        (forall ops, value <> VDict ops) ->
        match_condition r (before ++ (key, value) :: after) <> Ok true)
  /\ (forall value,
        (forall ops, value <> VDict ops) ->
        match_condition r [(key, value)] = Ok false).
Proof.
  intros H. repeat split.
  - intros ops before after.
    rewrite !match_condition_app, match_condition_cons.
    rewrite (match_item_missing _ _ (VDict ops) H). reflexivity.
  - intros value before after Hv.
    rewrite match_condition_app, match_condition_cons.
    rewrite (match_item_missing _ _ value H).
    destruct (match_condition r before) as [[|]|x]; cbn; try congruence.
    destruct value; cbn; try congruence. now destruct (Hv d).
  - intros value Hv. rewrite match_condition_cons.
    rewrite (match_item_missing _ _ value H).
    destruct value; cbn; try reflexivity. now destruct (Hv d).
Qed.

(** ** The staff scenario *)

(** [_rebuild_indexes] calls [create_index] on columns that are in
    [self.indexes[table_name]], and [create_index] returns [False] at
    once for such a column: nothing is rebuilt. *)
Lemma create_index_existing s table_name column tix :
  smem table_name (data s) = true ->
  sget table_name (indexes s) = Some tix ->
  smem column tix = true ->
  create_index table_name column s = (s, Ok false).
Proof.
  intros Hd Hi Hc.
  unfold create_index, bind, _check_table_exists, get_table_indexes.
  rewrite Hd.
  assert (Hm : smem table_name (indexes s) = true).
  { unfold smem, dmem. fold (@sget (list (string * index))). now rewrite Hi. }
  rewrite Hm, Hi, Hc. reflexivity.
Qed.

Lemma smem_head {V} (k : string) (v : V) d : smem k ((k, v) :: d) = true.
Proof. unfold smem, dmem. cbn. now rewrite String.eqb_refl. Qed.

Lemma smem_tail {V} (k k' : string) (v : V) d :
  smem k d = true -> smem k ((k', v) :: d) = true.
Proof.
  unfold smem, dmem. cbn. destruct (String.eqb k' k); auto.
Qed.

Lemma rebuild_indexes_changes_nothing s table_name :
  smem table_name (data s) = true ->
  _rebuild_indexes table_name s = (s, Ok tt).
Proof.
  intros Hd. unfold _rebuild_indexes.
  destruct (sget table_name (indexes s)) as [tix|] eqn:Hi; [|reflexivity].
  assert (Hall : forall c, In c (map fst tix) -> smem c tix = true).
  { clear. induction tix as [|[k v] tix IH]; cbn; [intros c []|].
    intros c [->|Hc]; [apply smem_head | apply smem_tail; auto]. }
  revert Hall. generalize (map fst tix) as cols.
  induction cols as [|c cols IH]; intros Hall; cbn; [reflexivity|].
  unfold bind at 1. unfold bind at 1.
  rewrite (create_index_existing s table_name c tix Hd Hi)
    by (apply Hall; now left).
  cbn. apply IH. intros c' Hc'. apply Hall. now right.
Qed.

(** C1: in the staff scenario, after the record of age 20 is deleted the
    index on [dept] is what it was before the deletion ([eng] at
    positions 0 and 1, [hr] at position 2) although the table now holds
    the record of age 40 at position 0 and the [hr] record at position
    1, and [select] with [{dept: "eng"}] returns those two records, not
    the record of age 40 alone. *)
Theorem staff_index_not_rebuilt_after_delete :
  let st := fst (staff_after_delete py_str str_lower (fresh ["staff"])) in
  sget "staff" (data st) = Some [stamped staff_b 2; stamped staff_c 3]
  /\ sget "staff" (indexes st)
     = Some [("dept", [(VStr "eng", [0; 1]); (VStr "hr", [2])])]
  /\ select "staff" (Some [("dept", VStr "eng")]) None 0 st
     = Ok [stamped staff_b 2; stamped staff_c 3].
Proof. vm_compute. repeat split; reflexivity. Qed.

(** C6: in the staff scenario, after an insert, insert, insert,
    create-index, delete sequence the index-assisted [select] on
    [{dept: "eng"}] and the full scan of the same table for the same
    condition differ: the first returns the [eng] record of age 40 and
    the [hr] record, the second the [eng] record alone. *)
Theorem staff_index_lookup_differs_from_scan :
  let st := fst (staff_after_delete py_str str_lower (fresh ["staff"])) in
  let records := [stamped staff_b 2; stamped staff_c 3] in
  sget "staff" (data st) = Some records
  /\ (exists idx,
        index_for "staff" [("dept", VStr "eng")] st
        = Some (idx, VStr "eng")
        /\ select "staff" (Some [("dept", VStr "eng")]) None 0 st
           = select_via_index records idx (VStr "eng") None 0)
  /\ select "staff" (Some [("dept", VStr "eng")]) None 0 st
     = Ok [stamped staff_b 2; stamped staff_c 3]
  /\ select_full_scan py_str str_lower records [("dept", VStr "eng")] None 0
     = Ok [stamped staff_b 2].
Proof.
  vm_compute. repeat split; try reflexivity.
  eexists. split; reflexivity.
Qed.

(** ** Inserts that fail validation *)

Lemma sget_Some_smem {V} (k : string) (d : list (string * V)) v :
  sget k d = Some v -> smem k d = true.
Proof.
  intros H. unfold smem, dmem. fold (@sget V). now rewrite H.
Qed.

Lemma sget_sset_same {V} (k : string) (v : V) d :
  sget k (sset k v d) = Some v.
Proof.
  unfold sget, sset.
  induction d as [|[k' v'] d IH]; cbn.
  - now rewrite String.eqb_refl.
  - destruct (String.eqb k' k) eqn:E; cbn; now rewrite E.
Qed.

Lemma check_field_violation field c r :
  (c_required c = true /\ sget field r = None)
  \/ (exists v t,
        sget field r = Some v /\ c_type c = Some t /\
        isinstance v t = false)
  \/ (exists v m,
        sget field r = Some (VStr v) /\ c_max_length c = Some m /\
        m <> 0%Z /\ (m < Z.of_nat (String.length v))%Z) ->
  exists why, check_field field c r = Some why.
Proof.
  unfold check_field.
  intros [[Hreq Habs] | [(v & t & Hv & Ht & Hi) | (v & m & Hv & Hm & Hz & Hlt)]].
  - assert (Hmem : smem field r = false).
    { unfold smem, dmem. fold (@sget value). now rewrite Habs. }
    rewrite Hreq, Hmem. cbn. eauto.
  - rewrite (sget_Some_smem _ _ _ Hv), andb_false_r, Hv.
    unfold wrong_type. rewrite Ht, Hi. eauto.
  - rewrite (sget_Some_smem _ _ _ Hv), andb_false_r, Hv.
    destruct (wrong_type c (VStr v)); [eauto|].
    unfold too_long. rewrite Hm.
    apply Z.eqb_neq in Hz. apply Z.ltb_lt in Hlt.
    rewrite Hz, Hlt. cbn. eauto.
Qed.

Lemma validate_fields_violation sch r :
  violates sch r -> exists why, validate_fields sch r = Err (ValidationError why).
Proof.
  intros (field & c & Hin & Hbad).
  induction sch as [|[f c'] sch IH]; [destruct Hin|].
  cbn. destruct (check_field f c' r) as [why|] eqn:E; [eauto|].
  destruct Hin as [Heq|Hin]; [|auto].
  inversion Heq; subst.
  destruct (check_field_violation _ _ _ Hbad) as [why Hwhy]. congruence.
Qed.

Lemma insert_unfold (e : env) (table_name : string) (r : record) (s : ADB) :
  insert e table_name r s =
  match sget table_name (data s) with
  | None => (s, Err (TableNotFoundError table_name))
  | Some records =>
      if (max_records s <=? Z.of_nat (List.length records))%Z
      then (s, Err (ADBError "record limit reached"))
      else
        match validate_in (schemas s) table_name r with
        | Err x => (s, Err x)
        | Ok _ =>
            let stored :=
              sset "_id" (VInt (Z.of_nat (List.length records) + 1))
                (sset "_created_at" (VStr (now_isoformat e)) r) in
            match _update_indexes_for_insert table_name stored
                    (List.length records) s with
            | (s1, Err x) => (s1, Err x)
            | (s1, Ok _) =>
                save_database e
                  (set_data (sset table_name (records ++ [stored]) (data s1))
                     s1)
            end
        end
  end.
Proof.
  unfold insert, bind, _check_table_exists, _check_record_limit,
    get_table, bind, _validate_record, append_record, get_table, bind.
  unfold smem, dmem. fold (@sget (list record)).
  destruct (sget table_name (data s)) as [records|] eqn:Hd; [|reflexivity].
  rewrite ?Hd. cbn iota beta.
  destruct (max_records s <=? Z.of_nat (List.length records))%Z; [reflexivity|].
  destruct (validate_in (schemas s) table_name r); [|reflexivity].
  rewrite ?Hd. cbn iota beta zeta.
  unfold _update_indexes_for_insert.
  destruct (sget table_name (indexes s)) as [tix|].
  - destruct (update_columns _ _ tix) as [tix' [[]|x]]; [|reflexivity].
    cbn [data set_indexes]. rewrite Hd. reflexivity.
  - rewrite Hd. reflexivity.
Qed.
Lemma save_database_frame e s s' b :
  save_database e s = (s', b) ->
  data s' = data s /\ indexes s' = indexes s /\ schemas s' = schemas s
  /\ _transaction_active s' = _transaction_active s
  /\ _transaction_backup s' = _transaction_backup s
  /\ max_records s' = max_records s.
Proof.
  unfold save_database.
  destruct (_ && _); [|destruct (io_ok e); [destruct (json_serializable s)|]];
    intros H; inversion H; subst; cbn; repeat split.
Qed.

Lemma update_indexes_frame table_name r i s s' res :
  _update_indexes_for_insert table_name r i s = (s', res) ->
  data s' = data s /\ schemas s' = schemas s
  /\ _transaction_active s' = _transaction_active s
  /\ _transaction_backup s' = _transaction_backup s
  /\ max_records s' = max_records s /\ disk s' = disk s.
Proof.
  unfold _update_indexes_for_insert.
  destruct (sget table_name (indexes s)) as [tix|].
  - destruct (update_columns r i tix) as [tix' res'].
    intros H; inversion H; subst; cbn; repeat split.
  - intros H; inversion H; subst; repeat split.
Qed.

(** C7 (amended): for a table with a schema, an insert whose record
    violates the schema changes nothing in the instance (the record
    count and every index stay as they were) and raises: the error is
    [ValidationError] when the table holds fewer records than the record
    limit, and the engine's [ADBError] of the record limit otherwise.
    An insert that returns has appended a record whose [_id] is the
    record count before the insert plus 1, so 1 for an empty table. *)
Theorem insert_invalid_changes_nothing_and_id_is_count_plus_one
    (s : ADB) (e : env) (table_name : string) (r : record)
    (records : list record) :
  sget table_name (data s) = Some records ->
  (forall sch,
      sget table_name (schemas s) = Some sch -> violates sch r ->
      exists x,
        insert e table_name r s = (s, Err x)
        /\ if (max_records s <=? Z.of_nat (List.length records))%Z
           then x = ADBError "record limit reached"
           else exists why, x = ValidationError why)
  /\ (forall s' b,
        insert e table_name r s = (s', Ok b) ->
        exists stored,
          sget table_name (data s') = Some (records ++ [stored])
          /\ sget "_id" stored
             = Some (VInt (Z.of_nat (List.length records) + 1))
          /\ (records = [] -> sget "_id" stored = Some (VInt 1))).
Proof.
  intros Hd. split.
  - intros sch Hs Hv.
    destruct (validate_fields_violation _ _ Hv) as [why Hwhy].
    rewrite insert_unfold, Hd. unfold validate_in. rewrite Hs, Hwhy.
    destruct (max_records s <=? Z.of_nat (List.length records))%Z; eauto.
  - intros s' b. rewrite insert_unfold, Hd.
    destruct (max_records s <=? Z.of_nat (List.length records))%Z;
      [discriminate|].
    destruct (validate_in (schemas s) table_name r); [|discriminate].
    cbn zeta.
    destruct (_update_indexes_for_insert _ _ _ s) as [s1 [[]|x]] eqn:Hu;
      [|discriminate].
    intros Hsave. apply save_database_frame in Hsave.
    destruct Hsave as [Hdata _]. cbn [data set_data] in Hdata.
    eexists. rewrite Hdata, sget_sset_same. split; [reflexivity|].
    rewrite sget_sset_same. split; [reflexivity|]. now intros ->.
Qed.

(** ** Transactions *)

Lemma keeps_tx_ret {A} (a : A) : keeps_tx (ret a).
Proof. intros s s' res H; inversion H; auto. Qed.

Lemma keeps_tx_raise {A} (x : exn) : keeps_tx (@raise A x).
Proof. intros s s' res H; inversion H; auto. Qed.

Lemma keeps_tx_lift {A} (x : result A) : keeps_tx (lift x).
Proof. intros s s' res H; inversion H; auto. Qed.

Lemma keeps_tx_bind {A B} (m : M A) (f : A -> M B) :
  keeps_tx m -> (forall a, keeps_tx (f a)) -> keeps_tx (bind m f).
Proof.
  intros Hm Hf s s' res. unfold bind.
  destruct (m s) as [s1 [a|x]] eqn:E; intros H.
  - destruct (Hm _ _ _ E) as [H1 H2]. destruct (Hf a _ _ _ H) as [H3 H4].
    split; congruence.
  - inversion H; subst. exact (Hm _ _ _ E).
Qed.

Lemma keeps_tx_for_each {A} (l : list A) (f : A -> M unit) :
  (forall a, keeps_tx (f a)) -> keeps_tx (for_each l f).
Proof.
  intros Hf. induction l as [|a l IH]; cbn.
  - apply keeps_tx_ret.
  - apply keeps_tx_bind; auto.
Qed.

Lemma keeps_tx_check_table_exists t : keeps_tx (_check_table_exists t).
Proof.
  intros s s' res. unfold _check_table_exists.
  destruct (smem t (data s)); intros H; inversion H; auto.
Qed.

Lemma keeps_tx_get_table t : keeps_tx (get_table t).
Proof.
  intros s s' res. unfold get_table.
  destruct (sget t (data s)); intros H; inversion H; auto.
Qed.

Lemma keeps_tx_get_table_indexes t : keeps_tx (get_table_indexes t).
Proof.
  intros s s' res. unfold get_table_indexes.
  destruct (sget t (indexes s)); intros H; inversion H; auto.
Qed.

Lemma keeps_tx_check_record_limit t : keeps_tx (_check_record_limit t).
Proof.
  apply keeps_tx_bind; [apply keeps_tx_get_table|].
  intros records s s' res.
  destruct (_ <=? _)%Z; intros H; inversion H; auto.
Qed.

Lemma keeps_tx_validate_record t r : keeps_tx (_validate_record t r).
Proof. intros s s' res H; inversion H; auto. Qed.

Lemma keeps_tx_save_database e : keeps_tx (save_database e).
Proof.
  intros s s' res H. apply save_database_frame in H.
  destruct H as (_ & _ & _ & Ha & Hb & _). now split.
Qed.

Lemma keeps_tx_update_indexes t r i :
  keeps_tx (_update_indexes_for_insert t r i).
Proof.
  intros s s' res H. apply update_indexes_frame in H.
  destruct H as (_ & _ & Ha & Hb & _). now split.
Qed.

Lemma keeps_tx_set_index t c idx : keeps_tx (set_index t c idx).
Proof.
  apply keeps_tx_bind; [apply keeps_tx_get_table_indexes|].
  intros tix s s' res H; inversion H; auto.
Qed.

Lemma keeps_tx_append_record t r : keeps_tx (append_record t r).
Proof.
  apply keeps_tx_bind; [apply keeps_tx_get_table|].
  intros records s s' res H; inversion H; auto.
Qed.

Lemma keeps_tx_create_index t c : keeps_tx (create_index t c).
Proof.
  unfold create_index.
  apply keeps_tx_bind; [apply keeps_tx_check_table_exists|intros _].
  apply keeps_tx_bind.
  { intros s s' res. destruct (smem t (indexes s));
      intros H; inversion H; auto. }
  intros _. apply keeps_tx_bind; [apply keeps_tx_get_table_indexes|].
  intros tix. destruct (smem c tix); [apply keeps_tx_ret|].
  apply keeps_tx_bind; [apply keeps_tx_get_table|intros records].
  apply keeps_tx_bind; [apply keeps_tx_lift|intros idx].
  apply keeps_tx_bind; [apply keeps_tx_set_index|intros _].
  apply keeps_tx_ret.
Qed.

Lemma keeps_tx_rebuild_indexes t : keeps_tx (_rebuild_indexes t).
Proof.
  intros s s' res. unfold _rebuild_indexes.
  destruct (sget t (indexes s)) as [tix|].
  - apply keeps_tx_for_each. intros c.
    apply keeps_tx_bind; [apply keeps_tx_create_index|intros _].
    apply keeps_tx_ret.
  - intros H; inversion H; auto.
Qed.

Lemma keeps_tx_insert e t r : keeps_tx (insert e t r).
Proof.
  unfold insert.
  apply keeps_tx_bind; [apply keeps_tx_check_table_exists|intros _].
  apply keeps_tx_bind; [apply keeps_tx_check_record_limit|intros _].
  apply keeps_tx_bind; [apply keeps_tx_validate_record|intros _].
  apply keeps_tx_bind; [apply keeps_tx_get_table|intros records].
  apply keeps_tx_bind; [apply keeps_tx_get_table|intros records'].
  apply keeps_tx_bind; [apply keeps_tx_update_indexes|intros _].
  apply keeps_tx_bind; [apply keeps_tx_append_record|intros _].
  apply keeps_tx_save_database.
Qed.

Lemma keeps_tx_update e t c v : keeps_tx (update e t c v).
Proof.
  unfold_facade.
  apply keeps_tx_bind; [apply keeps_tx_check_table_exists|intros _].
  destruct c as [|kv c]; [apply keeps_tx_raise|].
  apply keeps_tx_bind; [apply keeps_tx_get_table|intros records].
  apply keeps_tx_bind.
  { intros s s' res. destruct (update_loop _ _ _ _ _ _ _ _).
    intros H; inversion H; auto. }
  intros n. destruct (Nat.ltb 0 n); [|apply keeps_tx_ret].
  apply keeps_tx_bind; [apply keeps_tx_rebuild_indexes|intros _].
  apply keeps_tx_bind; [apply keeps_tx_save_database|intros _].
  apply keeps_tx_ret.
Qed.

Lemma keeps_tx_delete e t c : keeps_tx (delete e t c).
Proof.
  unfold_facade.
  apply keeps_tx_bind; [apply keeps_tx_check_table_exists|intros _].
  destruct c as [|kv c]; [apply keeps_tx_raise|].
  apply keeps_tx_bind; [apply keeps_tx_get_table|intros records].
  apply keeps_tx_bind; [apply keeps_tx_lift|intros kept].
  apply keeps_tx_bind.
  { intros s s' res H; inversion H; auto. }
  intros _. destruct (Nat.ltb 0 _); [|apply keeps_tx_ret].
  apply keeps_tx_bind; [apply keeps_tx_rebuild_indexes|intros _].
  apply keeps_tx_bind; [apply keeps_tx_save_database|intros _].
  apply keeps_tx_ret.
Qed.

Lemma keeps_tx_run_body ops : keeps_tx (run_body ops).
Proof.
  apply keeps_tx_for_each. intros [e t r|e t c v|e t c|t c|x]; cbn.
  - apply keeps_tx_bind; [apply keeps_tx_insert|intros _; apply keeps_tx_ret].
  - apply keeps_tx_bind; [apply keeps_tx_update|intros _; apply keeps_tx_ret].
  - apply keeps_tx_bind; [apply keeps_tx_delete|intros _; apply keeps_tx_ret].
  - apply keeps_tx_bind;
      [apply keeps_tx_create_index|intros _; apply keeps_tx_ret].
  - apply keeps_tx_raise.
Qed.

(** What [transaction] does when its body raises, for any body that
    leaves the transaction fields alone. *)
Lemma transaction_body_raises e (body : M unit) s s2 x :
  keeps_tx body ->
  _transaction_active s = false ->
  body (begin_transaction s) = (s2, Err x) ->
  transaction e body s
  = (set_transaction false None (set_data (data s) s2), Err x).
Proof.
  intros Hk Ha Hb. unfold transaction. rewrite Ha.
  fold (begin_transaction s). rewrite Hb. unfold rollback.
  destruct (Hk _ _ _ Hb) as [_ Hbk]. cbn in Hbk. now rewrite Hbk.
Qed.

(** C4: when the body of a transaction raises, [transaction] puts back
    in [data] the value saved when the transaction began, whatever the
    body did to the tables, clears [_transaction_active] and
    [_transaction_backup], and raises the error of the body itself.  A
    later transaction then begins instead of being refused: it runs its
    body, so that an error of that body is the one raised; an empty one
    commits when the schemas hold no Python class, and raises the
    [TypeError] of [json.dump] when they hold one and the file can be
    written. *)
Theorem transaction_rollback_restores_data_and_reraises
    (e : env) (ops : list op) (s s2 : ADB) (x : exn) :
  _transaction_active s = false ->
  run_body ops (begin_transaction s) = (s2, Err x) ->
  exists s',
    transaction e (run_body ops) s = (s', Err x)
    /\ data s' = data s
    /\ _transaction_active s' = false
    /\ _transaction_backup s' = None
    /\ (forall e' x', snd (transaction e' (raise x') s') = Err x')
    /\ (forall e',
          json_serializable s' = true ->
          snd (transaction e' (ret tt) s') = Ok tt)
    /\ (forall e',
          json_serializable s' = false -> io_ok e' = true ->
          snd (transaction e' (ret tt) s') = Err TypeError).
Proof.
  intros Ha Hb.
  rewrite (transaction_body_raises e _ s s2 x (keeps_tx_run_body ops) Ha Hb).
  eexists. split; [reflexivity|]. cbn [data set_transaction set_data
    _transaction_active _transaction_backup].
  split; [reflexivity|]. split; [reflexivity|]. split; [reflexivity|].
  split; [|split].
  - intros e' x'. reflexivity.
  - intros e' Hj. unfold transaction, ret.
    cbn [_transaction_active set_transaction].
    unfold save_database.
    cbn [_transaction_active set_transaction]. rewrite andb_false_r.
    destruct (io_ok e'); [|reflexivity].
    assert (Hj' : json_serializable
                    (set_transaction true
                       (Some (data (set_transaction false None
                                      (set_data (data s) s2))))
                       (set_transaction false None (set_data (data s) s2)))
                  = true) by exact Hj.
    rewrite Hj'. reflexivity.
  - intros e' Hj Hio. unfold transaction, ret.
    cbn [_transaction_active set_transaction].
    unfold save_database.
    cbn [_transaction_active set_transaction]. rewrite andb_false_r, Hio.
    assert (Hj' : json_serializable
                    (set_transaction true
                       (Some (data (set_transaction false None
                                      (set_data (data s) s2))))
                       (set_transaction false None (set_data (data s) s2)))
                  = false) by exact Hj.
    rewrite Hj'. reflexivity.
Qed.

Lemma for_each_app {A} (l1 l2 : list A) (f : A -> M unit) s :
  for_each (l1 ++ l2) f s
  = match for_each l1 f s with
    | (s1, Ok _) => for_each l2 f s1
    | (s1, Err x) => (s1, Err x)
    end.
Proof.
  revert s. induction l1 as [|a l1 IH]; intros s; cbn.
  - reflexivity.
  - unfold bind. destruct (f a s) as [s1 [[]|x]]; [apply IH|reflexivity].
Qed.

(** What an [insert] that returns has done. *)
Lemma insert_returns e table_name r s s' b records :
  sget table_name (data s) = Some records ->
  insert e table_name r s = (s', Ok b) ->
  let stored := stored_record e (List.length records) r in
  data s' = sset table_name (records ++ [stored]) (data s)
  /\ indexes s'
     = match sget table_name (indexes s) with
       | None => indexes s
       | Some tix =>
           sset table_name
             (fst (update_columns stored (List.length records) tix))
             (indexes s)
       end.
Proof.
  intros Hd. rewrite insert_unfold, Hd.
  destruct (_ <=? _)%Z; [discriminate|].
  destruct (validate_in _ _ _); [|discriminate].
  cbn zeta. fold (stored_record e (List.length records) r).
  destruct (_update_indexes_for_insert _ _ _ s) as [s1 [[]|x]] eqn:Hu;
    [|discriminate].
  intros Hsave. apply save_database_frame in Hsave.
  destruct Hsave as (Hdata & Hix & _). cbn [data indexes set_data] in *.
  pose proof (update_indexes_frame _ _ _ _ _ _ Hu) as (Hd1 & _).
  rewrite Hdata, Hix, Hd1. split; [reflexivity|].
  unfold _update_indexes_for_insert in Hu.
  destruct (sget table_name (indexes s)) as [tix|].
  - destruct (update_columns _ _ tix) as [tix' res].
    inversion Hu; subst. reflexivity.
  - inversion Hu; subst. reflexivity.
Qed.

Lemma run_inserts_return table_name ins : forall s s2 records,
  sget table_name (data s) = Some records ->
  run_body (insert_ops table_name ins) s = (s2, Ok tt) ->
  sget table_name (data s2)
  = Some (records ++ stored_records (List.length records) ins).
Proof.
  induction ins as [|[e r] ins IH]; intros s s2 records Hd; cbn.
  - intros H; inversion H; subst. now rewrite app_nil_r.
  - unfold bind at 1. unfold bind at 1.
    destruct (insert e table_name r s) as [s1 [b|x]] eqn:Hi;
      [|discriminate].
    cbn. intros Hrest.
    destruct (insert_returns _ _ _ _ _ _ _ Hd Hi) as [Hd1 Hix1].
    assert (Hd1' : sget table_name (data s1)
                   = Some (records ++ [stored_record e (List.length records) r])).
    { rewrite Hd1. apply sget_sset_same. }
    rewrite (IH _ _ _ Hd1' Hrest), <- app_assoc, length_app. cbn.
    now rewrite Nat.add_1_r.
Qed.

(** ** Writes to the file inside a transaction *)






(** The facade calls of a transaction body leave the schemas alone. *)




Lemma keeps_schemas_bind {A B} (m : M A) (f : A -> M B) :
  keeps_schemas m -> (forall a, keeps_schemas (f a)) ->
  keeps_schemas (bind m f).
Proof.
  intros Hm Hf s s' res. unfold bind.
  destruct (m s) as [s1 [a|x]] eqn:E; intros H.
  - rewrite (Hf a _ _ _ H). exact (Hm _ _ _ E).
  - inversion H; subst. exact (Hm _ _ _ E).
Qed.


Lemma keeps_schemas_check_table_exists t :
  keeps_schemas (_check_table_exists t).
Proof.
  intros s s' res. unfold _check_table_exists.
  destruct (smem t (data s)); intros H; inversion H; auto.
Qed.

Lemma keeps_schemas_get_table t : keeps_schemas (get_table t).
Proof.
  intros s s' res. unfold get_table.
  destruct (sget t (data s)); intros H; inversion H; auto.
Qed.


Lemma keeps_schemas_save_database e : keeps_schemas (save_database e).
Proof.
  intros s s' res H. apply save_database_frame in H.
  exact (proj1 (proj2 (proj2 H))).
Qed.



Lemma keeps_schemas_insert e t r : keeps_schemas (insert e t r).
Proof.
  unfold insert.
  apply keeps_schemas_bind; [apply keeps_schemas_check_table_exists|intros _].
  apply keeps_schemas_bind.
  { apply keeps_schemas_bind; [apply keeps_schemas_get_table|].
    intros records s s' res.
    destruct (_ <=? _)%Z; intros H; inversion H; auto. }
  intros _.
  apply keeps_schemas_bind.
  { intros s s' res H; inversion H; auto. }
  intros _.
  apply keeps_schemas_bind; [apply keeps_schemas_get_table|intros records].
  apply keeps_schemas_bind; [apply keeps_schemas_get_table|intros records'].
  apply keeps_schemas_bind.
  { intros s s' res H. apply update_indexes_frame in H.
    exact (proj1 (proj2 H)). }
  intros _.
  apply keeps_schemas_bind.
  { apply keeps_schemas_bind; [apply keeps_schemas_get_table|].
    intros records0 s s' res H; inversion H; auto. }
  intros _. apply keeps_schemas_save_database.
Qed.




Lemma json_serializable_schemas s s' :
  schemas s' = schemas s -> json_serializable s' = json_serializable s.
Proof. unfold json_serializable. now intros ->. Qed.


(** ** Grouping *)

Lemma py_eq_canon a b :
  hashable a = true -> hashable b = true ->
  (py_eq a b = true <-> canon a = canon b).
Proof.
  destruct a as [|x|x|x|x|x], b as [|y|y|y|y|y]; cbn;
    try discriminate; intros _ _;
    try (split; [discriminate | intros H; discriminate H]);
    try (split; reflexivity).
  - rewrite Bool.eqb_true_iff. split; [now intros ->|].
    destruct x, y; cbn; congruence.
  - rewrite Z.eqb_eq. split; congruence.
  - rewrite Z.eqb_eq. split; congruence.
  - rewrite Z.eqb_eq. split; congruence.
  - rewrite String.eqb_eq. split; congruence.
Qed.

Lemma py_eq_refl a : hashable a = true -> py_eq a a = true.
Proof. intros H. now apply py_eq_canon. Qed.

Lemma py_eq_sym a b :
  hashable a = true -> hashable b = true -> py_eq a b = py_eq b a.
Proof.
  intros Ha Hb.
  destruct (py_eq a b) eqn:E1, (py_eq b a) eqn:E2; try reflexivity.
  - apply (py_eq_canon a b Ha Hb) in E1. symmetry in E1.
    apply (py_eq_canon b a Hb Ha) in E1. congruence.
  - apply (py_eq_canon b a Hb Ha) in E2. symmetry in E2.
    apply (py_eq_canon a b Ha Hb) in E2. congruence.
Qed.

Lemma py_eq_trans a b c :
  hashable a = true -> hashable b = true -> hashable c = true ->
  py_eq a b = true -> py_eq b c = true -> py_eq a c = true.
Proof.
  intros Ha Hb Hc H1 H2.
  apply (py_eq_canon a b Ha Hb) in H1. apply (py_eq_canon b c Hb Hc) in H2.
  apply (py_eq_canon a c Ha Hc). congruence.
Qed.

Lemma distinct_keys_incl ks k : In k (distinct_keys ks) -> In k ks.
Proof.
  revert k. induction ks as [|k0 ks IH]; cbn; [intros k []|].
  intros k [->|H]; [now left|].
  apply filter_In in H. right. apply IH. exact (proj1 H).
Qed.

Lemma pairwise_distinct_filter f l :
  pairwise_distinct l -> pairwise_distinct (filter f l).
Proof.
  induction l as [|x l IH]; cbn; [intros _; exact I|].
  intros [Hx Hl]. destruct (f x); cbn; [|exact (IH Hl)].
  split; [|exact (IH Hl)].
  rewrite Forall_forall in *. intros y Hy. apply Hx.
  apply filter_In in Hy. exact (proj1 Hy).
Qed.

Lemma distinct_keys_pairwise ks : pairwise_distinct (distinct_keys ks).
Proof.
  induction ks as [|k ks IH]; cbn; [exact I|]. split.
  - rewrite Forall_forall. intros y Hy. apply filter_In in Hy.
    destruct Hy as [_ Hy]. now apply negb_true_iff in Hy.
  - now apply pairwise_distinct_filter.
Qed.

Lemma distinct_keys_cover ks :
  Forall (fun k => hashable k = true) ks ->
  forall x, In x ks ->
    exists k, In k (distinct_keys ks) /\ py_eq k x = true.
Proof.
  induction ks as [|k0 ks IH]; cbn; [intros _ x []|].
  intros Hh x Hx. inversion Hh as [|? ? Hk0 Hks]; subst.
  destruct Hx as [->|Hx].
  - exists x. split; [now left|now apply py_eq_refl].
  - destruct (IH Hks x Hx) as (k & Hk & Hkx).
    rewrite Forall_forall in Hks.
    destruct (py_eq k0 k) eqn:E.
    + exists k0. split; [now left|].
      apply (py_eq_trans k0 k x); auto.
      apply Hks. now apply distinct_keys_incl.
    + exists k. split; [|assumption].
      right. apply filter_In. split; [assumption|]. now rewrite E.
Qed.

Lemma distinct_keys_snoc ks k :
  distinct_keys (ks ++ [k])
  = if existsb (fun k' => py_eq k' k) ks then distinct_keys ks
    else distinct_keys ks ++ [k].
Proof.
  induction ks as [|k0 ks IH]; cbn; [reflexivity|].
  rewrite IH. destruct (py_eq k0 k) eqn:E; cbn.
  - destruct (existsb _ ks); [reflexivity|].
    rewrite filter_app. cbn. rewrite E. cbn. now rewrite app_nil_r.
  - destruct (existsb _ ks); [reflexivity|].
    rewrite filter_app. cbn. rewrite E. reflexivity.
Qed.

Lemma count_key_snoc k' ks k :
  count_key k' (ks ++ [k])
  = count_key k' ks + (if py_eq k' k then 1 else 0).
Proof.
  unfold count_key. rewrite filter_app, length_app. cbn.
  now destruct (py_eq k' k).
Qed.

Lemma existsb_distinct_keys ks k :
  Forall (fun k => hashable k = true) ks -> hashable k = true ->
  existsb (fun k' => py_eq k' k) (distinct_keys ks)
  = existsb (fun k' => py_eq k' k) ks.
Proof.
  intros Hh Hk.
  destruct (existsb _ ks) eqn:E.
  - apply existsb_exists in E. destruct E as (x & Hx & Hxk).
    destruct (distinct_keys_cover ks Hh x Hx) as (r & Hr & Hrx).
    apply existsb_exists. exists r. split; [assumption|].
    rewrite Forall_forall in Hh.
    apply (py_eq_trans r x k); auto.
    apply Hh. now apply distinct_keys_incl.
  - destruct (existsb _ (distinct_keys ks)) eqn:E'; [|reflexivity].
    apply existsb_exists in E'. destruct E' as (x & Hx & Hxk).
    assert (existsb (fun k' => py_eq k' k) ks = true); [|congruence].
    apply existsb_exists. exists x. split; [|assumption].
    now apply distinct_keys_incl.
Qed.

(** One more record of key [k], on a tally whose keys are pairwise
    distinct: the count of the key equal to [k] goes up by one, or [k]
    comes last with count 1. *)
Lemma bump_map (g : value -> nat) (k : value) (l : list value) :
  hashable k = true ->
  Forall (fun x => hashable x = true) l ->
  pairwise_distinct l ->
  bump k (map (fun x => (x, g x)) l)
  = if existsb (fun x => py_eq x k) l
    then map (fun x => (x, g x + (if py_eq x k then 1 else 0))) l
    else map (fun x => (x, g x)) l ++ [(k, 1)].
Proof.
  intros Hk. induction l as [|x l IH]; cbn; [reflexivity|].
  intros Hh [Hx Hl]. inversion Hh as [|? ? Hhx Hhl]; subst.
  destruct (py_eq x k) eqn:E; cbn.
  - rewrite Nat.add_1_r. f_equal.
    apply map_ext_in. intros y Hy.
    rewrite Forall_forall in Hx, Hhl.
    assert (Hyk : py_eq y k = false).
    { destruct (py_eq y k) eqn:E'; [|reflexivity].
      rewrite (py_eq_sym y k) in E' by auto.
      rewrite <- (Hx y Hy). symmetry.
      apply (py_eq_trans x k y); auto. }
    now rewrite Hyk, Nat.add_0_r.
  - rewrite (IH Hhl Hl), Nat.add_0_r.
    now destruct (existsb _ l).
Qed.

Lemma filter_none {A} (f : A -> bool) (l : list A) :
  (forall x, In x l -> f x = false) -> filter f l = [].
Proof.
  induction l as [|a l IH]; cbn; [reflexivity|].
  intros H. rewrite (H a) by now left. apply IH. intros x Hx. apply H.
  now right.
Qed.

Lemma tally_is_grouping ks :
  Forall (fun k => hashable k = true) ks ->
  fold_left (fun t k => bump k t) ks []
  = map (fun k => (k, count_key k ks)) (distinct_keys ks).
Proof.
  induction ks as [|k ks IH] using rev_ind; [reflexivity|].
  intros Hh. apply Forall_app in Hh. destruct Hh as [Hks Hk].
  inversion Hk as [|? ? Hk' _]; subst.
  rewrite fold_left_app. cbn. rewrite (IH Hks).
  assert (Hd : Forall (fun x => hashable x = true) (distinct_keys ks)).
  { rewrite Forall_forall in *. intros x Hx. apply Hks.
    now apply distinct_keys_incl. }
  rewrite (bump_map (fun x => count_key x ks) k _ Hk' Hd
             (distinct_keys_pairwise ks)).
  rewrite existsb_distinct_keys by assumption.
  rewrite distinct_keys_snoc.
  destruct (existsb _ ks) eqn:E.
  - apply map_ext. intros x. now rewrite count_key_snoc.
  - rewrite map_app. cbn. f_equal.
    + apply map_ext_in. intros x Hx. rewrite count_key_snoc.
      assert (Hxk : py_eq x k = false).
      { destruct (py_eq x k) eqn:E'; [|reflexivity].
        assert (existsb (fun k' => py_eq k' k) ks = true); [|congruence].
        apply existsb_exists. exists x. split; [|assumption].
        now apply distinct_keys_incl. }
      now rewrite Hxk, Nat.add_0_r.
    + rewrite count_key_snoc, (py_eq_refl k Hk').
      assert (Hz : count_key k ks = 0).
      { unfold count_key.
        rewrite (filter_none (py_eq k) ks); [reflexivity|].
        intros x Hx. rewrite Forall_forall in Hks.
        rewrite (py_eq_sym k x) by auto.
        destruct (py_eq x k) eqn:E'; [|reflexivity].
        assert (existsb (fun k' => py_eq k' k) ks = true); [|congruence].
        apply existsb_exists. eauto. }
      now rewrite Hz.
Qed.

Lemma dget_cons_other {K V} (keq : K -> K -> bool) k k' (v : V) d :
  keq k' k = false -> dget keq k ((k', v) :: d) = dget keq k d.
Proof. intros E. cbn. now rewrite E. Qed.

Lemma dset_cons_other {K V} (keq : K -> K -> bool) k k' (v v' : V) d :
  keq k' k = false ->
  dset keq k v ((k', v') :: d) = (k', v') :: dset keq k v d.
Proof. intros E. cbn. now rewrite E. Qed.

Lemma dget_cons_same {K V} (keq : K -> K -> bool) k k' (v : V) d :
  keq k' k = true -> dget keq k ((k', v) :: d) = Some v.
Proof. intros E. cbn. now rewrite E. Qed.

Lemma dset_cons_same {K V} (keq : K -> K -> bool) k k' (v v' : V) d :
  keq k' k = true -> dset keq k v ((k', v') :: d) = (k', v) :: d.
Proof. intros E. cbn. now rewrite E. Qed.

Lemma count_in_group_cons_other k' n t key :
  py_eq k' key = false ->
  count_in_group key (map tally_entry ((k', n) :: t))
  = rbind (count_in_group key (map tally_entry t)) (fun groups =>
      Ok (tally_entry (k', n) :: groups)).
Proof.
  intros E. unfold count_in_group, vmem, dmem, vget, vset.
  cbn [map]. change (tally_entry (k', n)) with (k', group_record k' n).
  rewrite (dget_cons_other py_eq key k' _ _ E).
  destruct (dget py_eq key (map tally_entry t)) as [g|] eqn:G.
  - rewrite (dget_cons_other py_eq key k' _ _ E), G.
    destruct (sget "count" g) as [c|]; [|reflexivity].
    destruct (py_succ c); cbn [rbind]; [|reflexivity].
    now rewrite (dset_cons_other py_eq key k' _ _ _ E).
  - rewrite (dset_cons_other py_eq key k' _ _ _ E).
    rewrite (dget_cons_other py_eq key k' _ _ E).
    lazymatch goal with
    | |- context [match ?d with Some _ => _ | None => _ end] =>
        destruct d as [g|] eqn:G'
    end; [|reflexivity].
    destruct (sget "count" g) as [c|]; [|reflexivity].
    destruct (py_succ c); cbn [rbind]; [|reflexivity].
    now rewrite (dset_cons_other py_eq key k' _ _ _ E).
Qed.

Lemma count_in_group_tally key t :
  hashable key = true ->
  count_in_group key (map tally_entry t) = Ok (map tally_entry (bump key t)).
Proof.
  intros Hk. induction t as [|[k' n] t IH].
  - unfold count_in_group, vmem, dmem, vget, vset. cbn [map dget dset].
    rewrite (py_eq_refl key Hk). reflexivity.
  - cbn [bump]. destruct (py_eq k' key) eqn:E.
    + unfold count_in_group, vmem, dmem, vget, vset. cbn [map].
      change (tally_entry (k', n)) with (k', group_record k' n).
      rewrite !(dget_cons_same py_eq key k' _ _ E).
      replace (sget "count" (group_record k' n))
        with (Some (VInt (Z.of_nat n))) by reflexivity.
      cbn [rbind py_succ num_of].
      rewrite (dset_cons_same py_eq key k' _ _ _ E).
      unfold tally_entry, group_record. cbn [fst snd].
      rewrite Nat2Z.inj_succ, <- Z.add_1_r. reflexivity.
    + rewrite count_in_group_cons_other by assumption.
      rewrite IH. reflexivity.
Qed.

Lemma group_loop_tally by_field records : forall t,
  Forall (fun r => hashable (group_key by_field r) = true) records ->
  group_loop (VStr by_field) (map tally_entry t) records
  = Ok (map tally_entry
          (fold_left (fun t k => bump k t)
             (map (group_key by_field) records) t)).
Proof.
  induction records as [|r records IH]; intros t Hh; cbn; [reflexivity|].
  inversion Hh as [|? ? Hr Hrs]; subst.
  unfold group_step. cbn [record_get_or_null rbind].
  fold (group_key by_field r). rewrite Hr.
  rewrite count_in_group_tally by assumption. cbn.
  now apply IH.
Qed.

Lemma group_stage_grouped d by_field records :
  sget "_id" d = Some (VStr by_field) ->
  Forall (fun r => hashable (group_key by_field r) = true) records ->
  group_stage (VDict d) records = Ok (grouped by_field records).
Proof.
  intros Hid Hh. unfold group_stage, group_key_of. rewrite Hid.
  cbn [rbind].
  change (@nil (value * record)) with (map tally_entry []).
  rewrite (group_loop_tally by_field records [] Hh). cbn [rbind].
  rewrite tally_is_grouping.
  - unfold grouped. rewrite !map_map. reflexivity.
  - rewrite Forall_forall in *. intros k Hk.
    apply in_map_iff in Hk. destruct Hk as (r & <- & Hr). auto.
Qed.

(** C8 (amended): for a table in which no record holds a list or a
    mapping under [byField], a [$group] stage on [byField] replaces the
    working set with exactly one record [{_id: key, count: N}] per
    distinct key, in the order in which the keys first occur.  The key of
    a record is its value of [byField], or the string ["null"] when the
    field is missing; keys are told apart by Python's equality, for which
    [True] is [1] and [False] is [0]; [N] is the number of records with an
    equal key. *)
Theorem group_stage_counts_each_distinct_key
    (s : ADB) (table_name by_field : string) (records : list record)
    (stage : record) (d : list (string * value)) :
  sget table_name (data s) = Some records ->
  sget "$group" stage = Some (VDict d) ->
  sget "_id" d = Some (VStr by_field) ->
  (forall r, In r records -> hashable (group_key by_field r) = true) ->
  let keys := map (group_key by_field) records in
  aggregate table_name [stage] s = Ok (grouped by_field records)
  /\ grouped by_field records
     = map (fun k => [("_id", k);
                      ("count", VInt (Z.of_nat (count_key k keys)))])
         (distinct_keys keys)
  /\ pairwise_distinct (distinct_keys keys)
  /\ (forall r, In r records ->
        exists k, In k (distinct_keys keys)
                  /\ py_eq k (group_key by_field r) = true)
  /\ (forall k, In k (distinct_keys keys) ->
        In k keys /\ 0 < count_key k keys).
Proof.
  intros Hd Hg Hid Hh keys.
  assert (Hall : Forall (fun r => hashable (group_key by_field r) = true)
                   records) by now apply Forall_forall.
  assert (Hkeys : Forall (fun k => hashable k = true) keys).
  { apply Forall_forall. intros k Hk. apply in_map_iff in Hk.
    destruct Hk as (r & <- & Hr). auto. }
  split; [|split; [reflexivity|split; [apply distinct_keys_pairwise|split]]].
  - unfold_facade. rewrite Hd. cbn. rewrite Hg.
    rewrite (group_stage_grouped d by_field records Hid Hall). reflexivity.
  - intros r Hr. apply (distinct_keys_cover keys Hkeys).
    now apply in_map.
  - intros k Hk. pose proof (distinct_keys_incl _ _ Hk) as Hin.
    split; [assumption|]. unfold count_key.
    rewrite Forall_forall in Hkeys.
    assert (In k (filter (py_eq k) keys)) as Hf.
    { apply filter_In. split; [assumption|]. apply py_eq_refl. auto. }
    destruct (filter (py_eq k) keys); [destruct Hf|cbn; lia].
Qed.

(** ** The record handed to [insert] *)

Lemma list_set_last {A} (l : list A) (a x : A) :
  list_set (l ++ [a]) (List.length l) x = l ++ [x].
Proof. induction l as [|b l IH]; cbn; [reflexivity|now rewrite IH]. Qed.

Lemma read_last objs r rw i :
  read (mkStore (objs ++ [r]) rw i) (List.length objs) = r.
Proof. unfold read. cbn. now rewrite nth_middle. Qed.

Lemma assign_last objs r rw i k v :
  assign (List.length objs) k v (mkStore (objs ++ [r]) rw i)
  = mkStore (objs ++ [sset k v r]) rw i.
Proof.
  unfold assign. rewrite read_last. cbn. now rewrite list_set_last.
Qed.

Lemma insert_obj_unfold e table_name argument st :
  insert_obj e table_name argument st =
  match sget table_name (rows st) with
  | None => (st, Err (TableNotFoundError table_name))
  | Some refs =>
      if (max_records (inst st) <=? Z.of_nat (List.length refs))%Z
      then (st, Err (ADBError "record limit reached"))
      else
        let r := read st argument in
        match validate_in (schemas (inst st)) table_name r with
        | Err x => (mkStore (objects st ++ [r]) (rows st) (inst st), Err x)
        | Ok _ =>
            let stored := stored_record e (List.length refs) r in
            let st3 := mkStore (objects st ++ [stored]) (rows st) (inst st) in
            match on_inst (_update_indexes_for_insert table_name stored
                             (List.length refs)) st3 with
            | (st4, Err x) => (st4, Err x)
            | (st4, Ok _) =>
                on_inst (save_database e)
                  (mkStore (objects st4)
                     (sset table_name
                        (refs ++ [List.length (objects st)]) (rows st4))
                     (inst st4))
            end
        end
  end.
Proof.
  unfold insert_obj.
  destruct (sget table_name (rows st)) as [refs|]; [|reflexivity].
  destruct (_ <=? _)%Z; [reflexivity|].
  cbn zeta. rewrite read_last. cbn [inst].
  destruct (validate_in _ _ _); [|reflexivity].
  rewrite !assign_last, read_last. reflexivity.
Qed.

Lemma on_inst_keeps {A} (m : M A) st st' res :
  on_inst m st = (st', res) ->
  objects st' = objects st /\ rows st' = rows st.
Proof.
  unfold on_inst. destruct (m (view st)) as [s' r].
  intros H; inversion H; subst; cbn; split; reflexivity.
Qed.

(** C10: whether [insert] returns or raises, the dictionary it was given
    is afterwards what it was before, and so is every other dictionary
    that existed; [_created_at] and [_id] are assigned to a copy at a new
    address, and a successful [insert] appends that address, which is not
    the address of the caller's dictionary, to the table. *)
Theorem insert_leaves_the_given_record_unchanged
    (e : env) (table_name : string) (argument : nat) (r : record)
    (st st' : store) (res : result bool) :
  nth_error (objects st) argument = Some r ->
  insert_obj e table_name argument st = (st', res) ->
  nth_error (objects st') argument = Some r
  /\ (forall address,
        address < List.length (objects st) ->
        nth_error (objects st') address = nth_error (objects st) address)
  /\ (forall b refs,
        res = Ok b -> sget table_name (rows st) = Some refs ->
        let record_copy := List.length (objects st) in
        sget table_name (rows st') = Some (refs ++ [record_copy])
        /\ record_copy <> argument
        /\ nth_error (objects st') record_copy
           = Some (stored_record e (List.length refs) r)).
Proof.
  intros Harg Hins.
  assert (Hlt : argument < List.length (objects st)).
  { apply nth_error_Some. congruence. }
  assert (Hread : read st argument = r).
  { unfold read. now apply nth_error_nth. }
  assert (Hobjs : objects st' = objects st
                  \/ exists x, objects st' = objects st ++ [x]).
  { rewrite insert_obj_unfold in Hins.
    destruct (sget table_name (rows st)) as [refs|];
      [|inversion Hins; auto].
    destruct (_ <=? _)%Z; [inversion Hins; auto|].
    cbn zeta in Hins.
    destruct (validate_in _ _ _); [|inversion Hins; subst; cbn; eauto].
    destruct (on_inst _ _) as [st4 [[]|x]] eqn:H4 in Hins.
    - apply on_inst_keeps in H4. apply on_inst_keeps in Hins.
      cbn in *. destruct H4 as [H4 _], Hins as [Hins _].
      right. eexists. rewrite Hins, H4. reflexivity.
    - apply on_inst_keeps in H4. inversion Hins; subst.
      cbn in *. destruct H4 as [H4 _]. right. eexists. eassumption. }
  assert (Hkeep : forall address,
             address < List.length (objects st) ->
             nth_error (objects st') address = nth_error (objects st) address).
  { intros a Ha. destruct Hobjs as [->|[x ->]]; [reflexivity|].
    now apply nth_error_app1. }
  split; [rewrite Hkeep by assumption; exact Harg|].
  split; [exact Hkeep|].
  intros b refs -> Hrefs. cbn zeta.
  rewrite insert_obj_unfold, Hrefs in Hins.
  destruct (_ <=? _)%Z; [discriminate|].
  cbn zeta in Hins. rewrite Hread in Hins.
  destruct (validate_in _ _ _); [|discriminate].
  destruct (on_inst _ _) as [st4 [[]|x]] eqn:H4 in Hins; [|discriminate].
  apply on_inst_keeps in H4. apply on_inst_keeps in Hins.
  cbn in *. destruct H4 as [H4o H4r], Hins as [Ho Hr].
  rewrite Hr, H4r, Ho, H4o, sget_sset_same.
  split; [reflexivity|]. split; [lia|].
  now rewrite nth_error_app2, Nat.sub_diag by lia.
Qed.

(** The store model and the value model of [insert] agree: on a
    well-formed store, [insert_obj] does to the instance the store stands
    for what [insert] does with the record at the address. *)

Lemma sget_map_snd {A B} (f : A -> B) table_name (l : list (string * A)) :
  sget table_name (map (fun tr => (fst tr, f (snd tr))) l)
  = option_map f (sget table_name l).
Proof.
  unfold sget. induction l as [|[k v] l IH]; cbn; [reflexivity|].
  destruct (String.eqb k table_name); [reflexivity|exact IH].
Qed.

Lemma sset_map_snd {A B} (f : A -> B) table_name v (l : list (string * A)) :
  map (fun tr => (fst tr, f (snd tr))) (sset table_name v l)
  = sset table_name (f v) (map (fun tr => (fst tr, f (snd tr))) l).
Proof.
  unfold sset. induction l as [|[k w] l IH]; cbn; [reflexivity|].
  destruct (String.eqb k table_name); cbn; [reflexivity|now rewrite IH].
Qed.

Lemma sget_In {V} table_name (l : list (string * V)) v :
  sget table_name l = Some v -> In (table_name, v) l.
Proof.
  unfold sget. induction l as [|[k w] l IH]; cbn; [discriminate|].
  destruct (String.eqb k table_name) eqn:E.
  - intros H; inversion H; subst. apply String.eqb_eq in E. subst. now left.
  - intros H. right. auto.
Qed.

Lemma In_sset {V} table_name (v : V) l t w :
  In (t, w) (sset table_name v l) -> In (t, w) l \/ w = v.
Proof.
  unfold sset. induction l as [|[k u] l IH]; cbn.
  - intros [H|[]]. inversion H; auto.
  - destruct (String.eqb k table_name); cbn.
    + intros [H|H]; [inversion H; auto|auto].
    + intros [H|H]; [auto|]. destruct (IH H); auto.
Qed.

Lemma set_data_same s : set_data (data s) s = s.
Proof. now destruct s. Qed.

Lemma view_mk objs rws s :
  deref (mkStore objs rws s) = data s -> view (mkStore objs rws s) = s.
Proof. unfold view. cbn [inst]. intros ->. apply set_data_same. Qed.

(** Tables read the same in a store with one more object. *)
Lemma deref_extended st x i :
  well_formed st ->
  deref (mkStore (objects st ++ [x]) (rows st) i) = deref st.
Proof.
  intros Hwf. unfold deref. cbn [rows].
  apply map_ext_in. intros [t refs] Hin. cbn. f_equal.
  apply map_ext_in. intros a Ha. unfold read. cbn.
  apply app_nth1. eapply Hwf; eauto.
Qed.

Lemma insert_obj_refines_insert
    (e : env) (table_name : string) (argument : nat) (r : record)
    (st st' : store) (res : result bool) :
  well_formed st ->
  nth_error (objects st) argument = Some r ->
  insert_obj e table_name argument st = (st', res) ->
  insert e table_name r (view st) = (view st', res) /\ well_formed st'.
Proof.
  intros Hwf Harg.
  assert (Hread : read st argument = r).
  { unfold read. now apply nth_error_nth. }
  rewrite insert_obj_unfold, insert_unfold.
  unfold view at 1. cbn [data set_data].
  unfold deref at 1. rewrite sget_map_snd.
  destruct (sget table_name (rows st)) as [refs|] eqn:Hrefs; cbn [option_map].
  2:{ intros H; inversion H; subst. split; [reflexivity|assumption]. }
  rewrite length_map. cbn [max_records view set_data].
  destruct (_ <=? _)%Z.
  { intros H; inversion H; subst. split; [reflexivity|assumption]. }
  cbn zeta. rewrite Hread. cbn [schemas].
  destruct (validate_in _ _ _) as [ok|x].
  2:{ intros H; inversion H; subst. split.
      - unfold view. now rewrite deref_extended.
      - intros t w a Hin Ha. cbn in *. rewrite length_app. cbn.
        specialize (Hwf t w a Hin Ha). lia. }
  fold (stored_record e (List.length refs) r).
  set (stored := stored_record e (List.length refs) r).
  set (st3 := mkStore (objects st ++ [stored]) (rows st) (inst st)).
  assert (Hv3 : view st3 = view st).
  { unfold view, st3. rewrite deref_extended by assumption. reflexivity. }
  unfold on_inst at 1. rewrite Hv3.
  destruct (_update_indexes_for_insert _ _ _ (view st)) as [s1 [[]|x]] eqn:Hu.
  2:{ intros H; inversion H; subst. split.
      - pose proof (update_indexes_frame _ _ _ _ _ _ Hu) as (Hd & _).
        f_equal. symmetry. apply view_mk. rewrite Hd.
        unfold st3. cbn [objects rows data view set_data].
        now apply deref_extended.
      - intros t w a Hin Ha. cbn in *. rewrite length_app. cbn.
        specialize (Hwf t w a Hin Ha). lia. }
  cbn [objects rows inst].
  pose proof (update_indexes_frame _ _ _ _ _ _ Hu) as (Hd & _).
  unfold on_inst.
  set (st5 := mkStore (objects st3)
                (sset table_name (refs ++ [List.length (objects st)])
                   (rows st3)) s1).
  assert (Hv5 : view st5
                = set_data (sset table_name
                              (map (read st) refs ++ [stored]) (data s1)) s1).
  { unfold view. cbn [inst st5]. f_equal.
    unfold deref. cbn [rows st5 st3].
    rewrite (sset_map_snd (map (read st5))).
    rewrite map_app. cbn [map].
    f_equal.
    - f_equal.
      + apply map_ext_in. intros a Ha. unfold read. cbn.
        apply app_nth1. eapply Hwf; eauto using sget_In.
      + unfold read. cbn. now rewrite nth_middle.
    - rewrite Hd. cbn [data view set_data]. unfold deref.
      apply map_ext_in. intros [t w] Hin. cbn. f_equal.
      apply map_ext_in. intros a Ha. unfold read. cbn.
      apply app_nth1. eapply Hwf; eauto. }
  rewrite Hv5.
  destruct (save_database e _) as [s2 res2] eqn:Hs.
  intros H; inversion H; subst. split.
  - f_equal. symmetry. apply view_mk.
    pose proof (save_database_frame _ _ _ _ Hs) as (Hd2 & _).
    cbn [data set_data] in Hd2. rewrite Hd2.
    apply (f_equal data) in Hv5. cbn [data set_data view] in Hv5.
    exact Hv5.
  - intros t w a Hin Ha. cbn [objects rows] in *.
    unfold st3 in *. cbn [objects rows] in *. rewrite length_app. cbn.
    destruct (In_sset _ _ _ _ _ Hin) as [Hin'| ->].
    + specialize (Hwf t w a Hin' Ha). lia.
    + apply in_app_or in Ha. destruct Ha as [Ha|[<-|[]]]; [|lia].
      specialize (Hwf table_name refs a (sget_In _ _ _ Hrefs) Ha). lia.
Qed.

(** ** Indexes under create-index and insert *)

Lemma index_add_cons_other x i k l idx :
  py_eq k x = false ->
  index_add x i ((k, l) :: idx) = (k, l) :: index_add x i idx.
Proof.
  intros E. unfold index_add, vmem, dmem, vget, vset.
  rewrite (dget_cons_other py_eq x k _ _ E).
  destruct (dget py_eq x idx) as [l0|] eqn:G.
  - rewrite (dget_cons_other py_eq x k _ _ E), G.
    now rewrite (dset_cons_other py_eq x k _ _ _ E).
  - rewrite (dset_cons_other py_eq x k _ _ _ E).
    rewrite (dget_cons_other py_eq x k _ _ E).
    lazymatch goal with
    | |- context [match ?d with Some _ => _ | None => _ end] =>
        destruct d as [l0|]
    end; [|reflexivity].
    now rewrite (dset_cons_other py_eq x k _ _ _ E).
Qed.

Lemma index_add_is_add_position x i idx :
  hashable x = true -> index_add x i idx = add_position x i idx.
Proof.
  intros Hx. induction idx as [|[k l] idx IH].
  - unfold index_add, vmem, dmem, vget, vset. cbn [dget dset].
    now rewrite (py_eq_refl x Hx).
  - cbn [add_position]. destruct (py_eq k x) eqn:E.
    + unfold index_add, vmem, dmem, vget, vset.
      rewrite !(dget_cons_same py_eq x k _ _ E).
      now rewrite (dset_cons_same py_eq x k _ _ _ E).
    + now rewrite index_add_cons_other, IH.
Qed.

Lemma keys_hashable_add_position x i idx :
  hashable x = true -> keys_hashable idx ->
  keys_hashable (add_position x i idx).
Proof.
  intros Hx. unfold keys_hashable.
  induction idx as [|[k l] idx IH]; cbn; intros H.
  - now constructor.
  - inversion H as [|? ? Hk Hrest]; subst.
    destruct (py_eq k x); constructor; auto.
Qed.

Lemma index_get_add_position x i idx v :
  hashable x = true -> hashable v = true -> keys_hashable idx ->
  index_get (add_position x i idx) v
  = index_get idx v ++ (if py_eq x v then [i] else []).
Proof.
  intros Hx Hv. unfold index_get, vget, keys_hashable.
  induction idx as [|[k l] idx IH]; intros Hk.
  - cbn. now destruct (py_eq x v).
  - inversion Hk as [|? ? Hkh Hrest]; subst. cbn [fst] in Hkh.
    cbn [add_position]. destruct (py_eq k x) eqn:Ekx.
    + cbn [dget]. destruct (py_eq k v) eqn:Ekv.
      * assert (Exv : py_eq x v = true).
        { apply (py_eq_trans x k v); auto.
          now rewrite (py_eq_sym x k). }
        now rewrite Exv.
      * assert (Exv : py_eq x v = false).
        { destruct (py_eq x v) eqn:E; [|reflexivity].
          rewrite <- Ekv. symmetry. apply (py_eq_trans k x v); auto. }
        now rewrite Exv, app_nil_r.
    + cbn [dget]. destruct (py_eq k v) eqn:Ekv.
      * assert (Exv : py_eq x v = false).
        { destruct (py_eq x v) eqn:E; [|reflexivity].
          rewrite <- Ekx. symmetry. apply (py_eq_trans k v x); auto.
          now rewrite (py_eq_sym v x). }
        now rewrite Exv, app_nil_r.
      * now apply IH.
Qed.

Lemma positions_of_app column v rs rs' : forall i,
  positions_of column v (rs ++ rs') i
  = positions_of column v rs i
    ++ positions_of column v rs' (i + List.length rs).
Proof.
  induction rs as [|r rs IH]; intros i; cbn.
  - now rewrite Nat.add_0_r.
  - rewrite IH, <- app_assoc. now rewrite Nat.add_succ_comm.
Qed.

Lemma build_index_exact column : forall rs i idx idx',
  build_index column rs i idx = Ok idx' ->
  keys_hashable idx ->
  keys_hashable idx'
  /\ forall v, hashable v = true ->
       index_get idx' v = index_get idx v ++ positions_of column v rs i.
Proof.
  induction rs as [|r rs IH]; intros i idx idx'; cbn.
  - intros H Hk. inversion H; subst. split; [assumption|].
    intros v _. now rewrite app_nil_r.
  - destruct (sget column r) as [x|].
    + destruct (hashable x) eqn:Hx; [|discriminate].
      rewrite index_add_is_add_position by assumption.
      intros H Hk.
      destruct (IH _ _ _ H (keys_hashable_add_position x i idx Hx Hk))
        as [Hk' Hget].
      split; [assumption|]. intros v Hv.
      rewrite (Hget v Hv), index_get_add_position by assumption.
      now rewrite <- app_assoc.
    + intros H Hk. destruct (IH _ _ _ H Hk) as [Hk' Hget].
      split; [assumption|]. intros v Hv. now rewrite (Hget v Hv).
Qed.

Lemma update_columns_column r n column : forall tix tix' idx,
  update_columns r n tix = (tix', Ok tt) ->
  sget column tix = Some idx ->
  match sget column r with
  | Some x => hashable x = true
              /\ sget column tix' = Some (index_add x n idx)
  | None => sget column tix' = Some idx
  end.
Proof.
  unfold sget.
  induction tix as [|[c i0] tix IH]; intros tix' idx; cbn; [discriminate|].
  destruct (String.eqb c column) eqn:E.
  - apply String.eqb_eq in E. subst c. intros H Hidx.
    inversion Hidx; subst i0. fold (@sget value) in *.
    destruct (sget column r) as [x|].
    + destruct (hashable x) eqn:Hx; [|discriminate].
      destruct (update_columns r n tix) as [rest res].
      inversion H; subst. split; [reflexivity|].
      unfold sget. cbn. now rewrite String.eqb_refl.
    + destruct (update_columns r n tix) as [rest res].
      inversion H; subst. unfold sget. cbn. now rewrite String.eqb_refl.
  - intros H Hidx. fold (@sget value) in *.
    assert (Hrest : exists rest i1,
               update_columns r n tix = (rest, Ok tt)
               /\ tix' = (c, i1) :: rest).
    { destruct (sget c r) as [y|].
      - destruct (hashable y); [|discriminate].
        destruct (update_columns r n tix) as [rest res].
        inversion H; subst. eauto.
      - destruct (update_columns r n tix) as [rest res].
        inversion H; subst. eauto. }
    destruct Hrest as (rest & i1 & Hu & ->).
    specialize (IH rest idx Hu Hidx).
    destruct (sget column r) as [x|].
    + destruct IH as [Hx IH]. split; [assumption|].
      unfold sget in *. cbn. now rewrite E.
    + unfold sget in *. cbn. now rewrite E.
Qed.

Lemma sget_sset_other {V} (k k' : string) (v : V) d :
  k <> k' -> sget k (sset k' v d) = sget k d.
Proof.
  intros Hne. unfold sget, sset.
  induction d as [|[k0 v0] d IH]; cbn.
  - destruct (String.eqb k' k) eqn:E; [|reflexivity].
    apply String.eqb_eq in E. congruence.
  - destruct (String.eqb k0 k') eqn:E'; cbn.
    + destruct (String.eqb k0 k) eqn:E; [|reflexivity].
      apply String.eqb_eq in E, E'. congruence.
    + destruct (String.eqb k0 k); [reflexivity|exact IH].
Qed.

Lemma create_index_exact table_name column s s' :
  create_index table_name column s = (s', Ok true) ->
  index_exact table_name column s'.
Proof.
  unfold create_index, bind, _check_table_exists, get_table_indexes,
    get_table, lift, set_index, bind, get_table_indexes, ret.
  destruct (smem table_name (data s)); [|discriminate].
  destruct (smem table_name (indexes s)).
  - destruct (sget table_name (indexes s)) as [tix|] eqn:Hi; [|discriminate].
    destruct (smem column tix); [discriminate|].
    destruct (sget table_name (data s)) as [records|] eqn:Hd; [|discriminate].
    destruct (build_index column records 0 []) as [idx|x] eqn:Hb;
      [|discriminate].
    rewrite Hi. intros H; inversion H; subst; clear H.
    destruct (build_index_exact _ _ _ _ _ Hb (Forall_nil _)) as [Hk Hget].
    exists records, (sset column idx tix), idx. cbn [data indexes set_indexes].
    rewrite !sget_sset_same. repeat split; auto.
  - cbn [indexes set_indexes data]. rewrite sget_sset_same.
    cbn [smem dmem sget dget].
    change (data (set_indexes (sset table_name [] (indexes s)) s))
      with (data s).
    destruct (sget table_name (data s)) as [records|] eqn:Hd; [|discriminate].
    destruct (build_index column records 0 []) as [idx|x] eqn:Hb;
      [|discriminate].
    cbn [indexes set_indexes]. rewrite sget_sset_same.
    intros H; inversion H; subst; clear H.
    destruct (build_index_exact _ _ _ _ _ Hb (Forall_nil _)) as [Hk Hget].
    exists records, (sset column idx []), idx.
    cbn [data indexes set_indexes].
    rewrite !sget_sset_same. repeat split; auto.
Qed.

(** What an [insert] that returns has done to the indexes of its table. *)
Lemma insert_returns_indexes e table_name r s s' b records tix :
  sget table_name (data s) = Some records ->
  sget table_name (indexes s) = Some tix ->
  insert e table_name r s = (s', Ok b) ->
  exists tix',
    update_columns (stored_record e (List.length records) r)
      (List.length records) tix = (tix', Ok tt)
    /\ indexes s' = sset table_name tix' (indexes s).
Proof.
  intros Hd Hi. rewrite insert_unfold, Hd.
  destruct (_ <=? _)%Z; [discriminate|].
  destruct (validate_in _ _ _); [|discriminate].
  cbn zeta. fold (stored_record e (List.length records) r).
  unfold _update_indexes_for_insert. rewrite Hi.
  destruct (update_columns _ _ tix) as [tix' [[]|x]]; [|discriminate].
  intros Hsave. apply save_database_frame in Hsave.
  destruct Hsave as (_ & Hix & _). cbn [indexes set_data set_indexes] in Hix.
  exists tix'. split; [reflexivity|exact Hix].
Qed.

Lemma insert_keeps_index_exact e table_name column r s s' b :
  index_exact table_name column s ->
  insert e table_name r s = (s', Ok b) ->
  index_exact table_name column s'.
Proof.
  intros (records & tix & idx & Hd & Hi & Hc & Hk & Hget) Hins.
  destruct (insert_returns _ _ _ _ _ _ _ Hd Hins) as [Hd' _].
  destruct (insert_returns_indexes _ _ _ _ _ _ _ _ Hd Hi Hins)
    as (tix' & Hu & Hi').
  pose proof (update_columns_column _ _ column _ _ _ Hu Hc) as Hcol.
  set (stored := stored_record e (List.length records) r) in *.
  destruct (sget column stored) as [x|] eqn:Hx.
  - destruct Hcol as [Hhx Hcol].
    rewrite index_add_is_add_position in Hcol by assumption.
    exists (records ++ [stored]), tix',
      (add_position x (List.length records) idx).
    rewrite Hd', Hi', !sget_sset_same.
    repeat split; auto.
    + now apply keys_hashable_add_position.
    + intros v Hv. rewrite index_get_add_position by assumption.
      rewrite positions_of_app, (Hget v Hv). cbn. rewrite Hx.
      now rewrite app_nil_r.
  - exists (records ++ [stored]), tix', idx.
    rewrite Hd', Hi', !sget_sset_same. repeat split; auto.
    intros v Hv. rewrite positions_of_app, (Hget v Hv). cbn. rewrite Hx.
    now rewrite app_nil_r.
Qed.

Lemma run_inserts_keep_index_exact table_name column ins : forall s s',
  index_exact table_name column s ->
  run_body (insert_ops table_name ins) s = (s', Ok tt) ->
  index_exact table_name column s'.
Proof.
  induction ins as [|[e r] ins IH]; intros s s' Hex; cbn.
  - intros H; inversion H; subst. assumption.
  - unfold bind at 1. unfold bind at 1.
    destruct (insert e table_name r s) as [s1 [b|x]] eqn:Hi; [|discriminate].
    cbn. intros Hrest.
    exact (IH _ _ (insert_keeps_index_exact _ _ _ _ _ _ _ Hex Hi) Hrest).
Qed.

Lemma nth_error_middle {A} (pre : list A) (r : A) (rs : list A) :
  nth_error (pre ++ r :: rs) (List.length pre) = Some r.
Proof. induction pre as [|a pre IH]; cbn; [reflexivity|exact IH]. Qed.

Lemma fetch_positions_of column v rs : forall pre,
  fetch_positions (pre ++ rs)
    (positions_of column v rs (List.length pre))
  = filter (field_equals column v) rs.
Proof.
  unfold fetch_positions.
  induction rs as [|r rs IH]; intros pre; [reflexivity|].
  cbn [positions_of filter]. rewrite flat_map_app.
  assert (Htail : flat_map
                    (fun i => match nth_error (pre ++ r :: rs) i with
                              | Some r0 => [r0]
                              | None => []
                              end)
                    (positions_of column v rs (S (List.length pre)))
                  = filter (field_equals column v) rs).
  { specialize (IH (pre ++ [r])).
    rewrite <- app_assoc, length_app, Nat.add_1_r in IH. exact IH. }
  rewrite Htail. unfold field_equals.
  destruct (sget column r) as [x|]; [|reflexivity].
  destruct (py_eq x v); [|reflexivity].
  cbn [flat_map]. now rewrite nth_error_middle.
Qed.

Lemma filter_match_literal column v rs :
  (forall ops, v <> VDict ops) ->
  filter_match py_str str_lower rs [(column, v)]
  = Ok (filter (field_equals column v) rs).
Proof.
  intros Hv.
  assert (Hitem : forall r,
             match_item py_str str_lower r column v
             = Ok (field_equals column v r)).
  { intros r. unfold field_equals.
    destruct v as [|b|z|t|l|d];
      [| | | | |exfalso; exact (Hv d eq_refl)];
      cbn; destruct (sget column r); reflexivity. }
  induction rs as [|r rs IH]; [reflexivity|].
  cbn [filter_match _match_condition filter]. rewrite Hitem, IH.
  cbn [rbind]. now destruct (field_equals column v r).
Qed.

(** ** A failed transaction and the indexes *)

Lemma add_position_has x i idx :
  hashable x = true -> In i (index_get (add_position x i idx) x).
Proof.
  intros Hx. unfold index_get, vget.
  induction idx as [|[k l] idx IH]; cbn [add_position].
  - rewrite (dget_cons_same py_eq x x _ _ (py_eq_refl x Hx)). now left.
  - destruct (py_eq k x) eqn:E.
    + rewrite (dget_cons_same py_eq x k _ _ E).
      apply in_or_app. right. now left.
    + rewrite (dget_cons_other py_eq x k _ _ E). exact IH.
Qed.

Lemma add_position_keeps x i idx v p :
  In p (index_get idx v) -> In p (index_get (add_position x i idx) v).
Proof.
  unfold index_get, vget.
  induction idx as [|[k l] idx IH]; cbn [add_position]; [intros []|].
  destruct (py_eq k x); destruct (py_eq k v) eqn:Ev.
  - rewrite !(dget_cons_same py_eq v k _ _ Ev).
    intros H. apply in_or_app. now left.
  - now rewrite !(dget_cons_other py_eq v k _ _ Ev).
  - now rewrite !(dget_cons_same py_eq v k _ _ Ev).
  - rewrite !(dget_cons_other py_eq v k _ _ Ev). exact IH.
Qed.

(** What an [insert] that returns has done to one index of its table:
    the positions the index held are still there, and the position of
    the new record stands under the value the record has in the
    column. *)
Lemma insert_adds_position e table_name column r s s' b records tix idx :
  sget table_name (data s) = Some records ->
  sget table_name (indexes s) = Some tix ->
  sget column tix = Some idx ->
  insert e table_name r s = (s', Ok b) ->
  exists tix' idx',
    sget table_name (indexes s') = Some tix'
    /\ sget column tix' = Some idx'
    /\ (forall v p, In p (index_get idx v) -> In p (index_get idx' v))
    /\ forall v,
         sget column (stored_record e (List.length records) r) = Some v ->
         In (List.length records) (index_get idx' v).
Proof.
  intros Hd Hi Hc Hins.
  destruct (insert_returns_indexes _ _ _ _ _ _ _ _ Hd Hi Hins)
    as (tix' & Hu & Hi').
  pose proof (update_columns_column _ _ column _ _ _ Hu Hc) as Hcol.
  exists tix'. rewrite Hi', sget_sset_same.
  destruct (sget column (stored_record e (List.length records) r))
    as [x|] eqn:Hx.
  - destruct Hcol as [Hhx Hcol].
    rewrite index_add_is_add_position in Hcol by assumption.
    exists (add_position x (List.length records) idx).
    split; [reflexivity|]. split; [exact Hcol|]. split.
    + intros v p. apply add_position_keeps.
    + intros v Hv. inversion Hv; subst v. now apply add_position_has.
  - exists idx. split; [reflexivity|]. split; [exact Hcol|]. split.
    + intros v p H. exact H.
    + intros v Hv. discriminate.
Qed.

Lemma run_inserts_add_positions table_name column ins :
  forall s s2 records tix idx,
    sget table_name (data s) = Some records ->
    sget table_name (indexes s) = Some tix ->
    sget column tix = Some idx ->
    run_body (insert_ops table_name ins) s = (s2, Ok tt) ->
    exists tix' idx',
      sget table_name (indexes s2) = Some tix'
      /\ sget column tix' = Some idx'
      /\ (forall v p, In p (index_get idx v) -> In p (index_get idx' v))
      /\ forall j e_j r_j v,
           nth_error ins j = Some (e_j, r_j) ->
           sget column (stored_record e_j (List.length records + j) r_j)
           = Some v ->
           In (List.length records + j) (index_get idx' v).
Proof.
  induction ins as [|[e r] ins IH]; intros s s2 records tix idx Hd Hi Hc;
    cbn.
  - intros H; inversion H; subst. exists tix, idx.
    split; [exact Hi|]. split; [exact Hc|]. split.
    + intros v p Hp. exact Hp.
    + intros [|j] e_j r_j v Hn; discriminate.
  - unfold bind at 1. unfold bind at 1.
    destruct (insert e table_name r s) as [s1 [b|x]] eqn:Hins;
      [|discriminate].
    cbn. intros Hrest.
    destruct (insert_returns _ _ _ _ _ _ _ Hd Hins) as [Hd1 _].
    assert (Hd1' : sget table_name (data s1)
                   = Some (records
                           ++ [stored_record e (List.length records) r])).
    { rewrite Hd1. apply sget_sset_same. }
    destruct (insert_adds_position _ _ _ _ _ _ _ _ _ _ Hd Hi Hc Hins)
      as (tix1 & idx1 & Hi1 & Hc1 & Hkeep1 & Hnew1).
    destruct (IH _ _ _ _ _ Hd1' Hi1 Hc1 Hrest)
      as (tix2 & idx2 & Hi2 & Hc2 & Hkeep2 & Hnew2).
    exists tix2, idx2. split; [exact Hi2|]. split; [exact Hc2|]. split.
    + intros v p Hp. apply Hkeep2, Hkeep1, Hp.
    + intros [|j] e_j r_j v Hn Hv; cbn in Hn.
      * inversion Hn; subst e_j r_j. rewrite Nat.add_0_r in *.
        apply Hkeep2, Hnew1, Hv.
      * specialize (Hnew2 j e_j r_j v Hn).
        rewrite length_app in Hnew2. cbn [List.length] in Hnew2.
        replace (List.length records + 1 + j)
          with (List.length records + S j) in Hnew2 by lia.
        exact (Hnew2 Hv).
Qed.

(** C3 (amended): for a table with N records, a transaction whose body
    inserts M records and then raises leaves [data] as it was before
    the transaction, so the table has its N records again.  The indexes
    are not put back: they are the indexes the body left.  Every index
    the table had before the transaction still holds the positions it
    held, and for each inserted record that has the indexed column it
    holds the record's position (N, N+1, ...) under the record's value,
    although no record stands at that position. *)
Theorem failed_transaction_restores_data_not_indexes
    (e : env) (table_name : string) (ins : list (env * record))
    (x : exn) (s s2 : ADB) (records : list record) :
  _transaction_active s = false ->
  sget table_name (data s) = Some records ->
  run_body (insert_ops table_name ins) (begin_transaction s)
  = (s2, Ok tt) ->
  sget table_name (data s2)
  = Some (records ++ stored_records (List.length records) ins)
  /\ exists s',
      transaction e (run_body (insert_ops table_name ins ++ [OpRaise x])) s
      = (s', Err x)
      /\ data s' = data s
      /\ sget table_name (data s') = Some records
      /\ indexes s' = indexes s2
      /\ forall tix column idx,
           sget table_name (indexes s) = Some tix ->
           sget column tix = Some idx ->
           exists tix' idx',
             sget table_name (indexes s') = Some tix'
             /\ sget column tix' = Some idx'
             /\ (forall v p,
                   In p (index_get idx v) -> In p (index_get idx' v))
             /\ forall j e_j r_j v,
                  nth_error ins j = Some (e_j, r_j) ->
                  sget column
                    (stored_record e_j (List.length records + j) r_j)
                  = Some v ->
                  In (List.length records + j) (index_get idx' v)
                  /\ nth_error records (List.length records + j) = None.
Proof.
  intros Ha Hd Hb.
  pose proof (run_inserts_return table_name ins (begin_transaction s) s2
                records Hd Hb) as Hd2.
  split; [exact Hd2|].
  assert (Hraise : run_body (insert_ops table_name ins ++ [OpRaise x])
                     (begin_transaction s) = (s2, Err x)).
  { unfold_facade. rewrite for_each_app, Hb. reflexivity. }
  rewrite (transaction_body_raises e _ s s2 x (keeps_tx_run_body _) Ha Hraise).
  eexists. split; [reflexivity|].
  cbn [data indexes set_transaction set_data].
  split; [reflexivity|]. split; [exact Hd|]. split; [reflexivity|].
  intros tix column idx Hi Hc.
  destruct (run_inserts_add_positions table_name column ins
              (begin_transaction s) s2 records tix idx Hd Hi Hc Hb)
    as (tix' & idx' & Hi' & Hc' & Hkeep & Hnew).
  exists tix', idx'. split; [exact Hi'|]. split; [exact Hc'|].
  split; [exact Hkeep|].
  intros j e_j r_j v Hn Hv. split; [exact (Hnew j e_j r_j v Hn Hv)|].
  apply nth_error_None. lia.
Qed.

(** X1: an index made by [create_index] and kept by inserts alone is
    exact: for a table on which [create_index] succeeded and into which
    records were then inserted, [select] with a literal equality on the
    indexed column goes through the index and returns what the full scan
    of the table returns, the records whose field equals the value, in
    table order. *)
Theorem index_lookup_agrees_with_scan_after_inserts
    (s0 s1 s2 : ADB) (table_name column : string)
    (ins : list (env * record)) (v : value)
    (limit : option Z) (offset : Z) :
  create_index table_name column s0 = (s1, Ok true) ->
  run_body (insert_ops table_name ins) s1 = (s2, Ok tt) ->
  hashable v = true ->
  exists records idx,
    sget table_name (data s2) = Some records
    /\ index_for table_name [(column, v)] s2 = Some (idx, v)
    /\ select table_name (Some [(column, v)]) limit offset s2
       = select_via_index records idx v limit offset
    /\ select_via_index records idx v limit offset
       = select_full_scan py_str str_lower records [(column, v)] limit offset
    /\ select_full_scan py_str str_lower records [(column, v)] limit offset
       = Ok (paginate (filter (field_equals column v) records) limit offset).
Proof.
  intros Hc Hins Hv.
  pose proof (run_inserts_keep_index_exact _ _ _ _ _
                (create_index_exact _ _ _ _ Hc) Hins)
    as (records & tix & idx & Hd & Hi & Hcol & Hk & Hget).
  assert (Hnd : forall ops, v <> VDict ops).
  { intros ops ->. discriminate Hv. }
  assert (Hfor : index_for table_name [(column, v)] s2 = Some (idx, v)).
  { unfold index_for. rewrite Hi, Hcol.
    destruct v; try reflexivity. discriminate Hv. }
  assert (Hscan : select_full_scan py_str str_lower records [(column, v)]
                    limit offset
                  = Ok (paginate (filter (field_equals column v) records)
                          limit offset)).
  { unfold select_full_scan. now rewrite filter_match_literal. }
  exists records, idx. split; [assumption|]. split; [assumption|].
  split; [|split; [|assumption]].
  - unfold_facade. now rewrite Hd, Hfor.
  - rewrite Hscan. unfold select_via_index, index_positions.
    rewrite Hv. cbn [rbind]. fold (index_get idx v).
    rewrite (Hget v Hv).
    now rewrite <- (fetch_positions_of column v records []).
Qed.

(** X2: [_rebuild_indexes] changes nothing: on a table that exists it
    returns with the instance, and so every index of the table, exactly
    as it was, whatever has happened to the records since the indexes
    were made. *)
Theorem rebuild_indexes_rebuilds_nothing
    (s : ADB) (table_name : string) (records : list record) :
  sget table_name (data s) = Some records ->
  _rebuild_indexes table_name s = (s, Ok tt).
Proof.
  intros Hd. apply rebuild_indexes_changes_nothing.
  exact (sget_Some_smem _ _ _ Hd).
Qed.


(** ** Deleting keys *)

Lemma sget_sdel_same {V} (k : string) (d : list (string * V)) :
  sget k (sdel k d) = None.
Proof.
  unfold sget, sdel.
  induction d as [|[k' v] d IH]; cbn; [reflexivity|].
  destruct (String.eqb k' k) eqn:E; [exact IH|]. cbn. now rewrite E.
Qed.

Lemma sget_sdel_other {V} (k k' : string) (d : list (string * V)) :
  k <> k' -> sget k (sdel k' d) = sget k d.
Proof.
  intros Hne. unfold sget, sdel.
  induction d as [|[k0 v] d IH]; cbn; [reflexivity|].
  destruct (String.eqb k0 k') eqn:E'.
  - destruct (String.eqb k0 k) eqn:E; [|exact IH].
    apply String.eqb_eq in E, E'. congruence.
  - cbn. destruct (String.eqb k0 k); [reflexivity|exact IH].
Qed.

Lemma smem_false_sget {V} (k : string) (d : list (string * V)) :
  smem k d = false -> sget k d = None.
Proof.
  unfold smem, dmem. fold (@sget V).
  destruct (sget k d); [discriminate|reflexivity].
Qed.

Lemma smem_true_sget {V} (k : string) (d : list (string * V)) :
  smem k d = true -> exists v, sget k d = Some v.
Proof.
  unfold smem, dmem. fold (@sget V).
  destruct (sget k d) as [v|]; [eauto|discriminate].
Qed.

Lemma save_database_state e s :
  data (fst (save_database e s)) = data s
  /\ indexes (fst (save_database e s)) = indexes s
  /\ schemas (fst (save_database e s)) = schemas s.
Proof.
  destruct (save_database e s) as [s' b] eqn:H.
  apply save_database_frame in H. cbn [fst].
  repeat split; [exact (proj1 H) | exact (proj1 (proj2 H))
                | exact (proj1 (proj2 (proj2 H)))].
Qed.

(** X3: [drop_table] on a name that is no table returns [False] and
    changes nothing.  On a table it removes the records, the indexes and
    the schema under that name and leaves every other name as it was;
    afterwards an [insert] into the name raises [TableNotFoundError]
    without changing anything, and [select] returns the empty list. *)
Theorem drop_table_forgets_the_table
    (e e' : env) (table_name : string) (s : ADB) :
  let s' := fst (drop_table e table_name s) in
  (smem table_name (data s) = false ->
   drop_table e table_name s = (s, Ok false))
  /\ (smem table_name (data s) = true ->
      sget table_name (data s') = None
      /\ sget table_name (indexes s') = None
      /\ sget table_name (schemas s') = None
      /\ (forall other, other <> table_name ->
            sget other (data s') = sget other (data s)
            /\ sget other (indexes s') = sget other (indexes s)
            /\ sget other (schemas s') = sget other (schemas s))
      /\ (forall r,
            insert e' table_name r s'
            = (s', Err (TableNotFoundError table_name)))
      /\ (forall condition limit offset,
            select table_name condition limit offset s' = Ok [])).
Proof.
  cbn zeta. unfold drop_table. split.
  - intros ->. reflexivity.
  - intros ->.
    match goal with
    | |- context [save_database e ?s3] =>
        destruct (save_database_state e s3) as (Hd & Hi & Hs);
        set (s' := fst (save_database e s3)) in *
    end.
    assert (Hdata : data s' = sdel table_name (data s)).
    { rewrite Hd. cbn [data set_data set_indexes set_schemas indexes schemas].
      repeat match goal with
             | |- context [if ?b then _ else _] => destruct b
             end; reflexivity. }
    assert (Hix : sget table_name (indexes s') = None
                  /\ forall other, other <> table_name ->
                       sget other (indexes s') = sget other (indexes s)).
    { rewrite Hi. cbn [data set_data set_indexes set_schemas indexes schemas].
      destruct (smem table_name (indexes s)) eqn:Hm.
      - assert (Heq : forall s2 : ADB,
                   indexes (if smem table_name (schemas s2)
                            then set_schemas
                                   (sdel table_name (schemas s2)) s2
                            else s2) = indexes s2).
        { intros s2. now destruct (smem table_name (schemas s2)). }
        rewrite Heq. cbn [indexes set_indexes]. split.
        + apply sget_sdel_same.
        + intros other Hne. now apply sget_sdel_other.
      - assert (Heq : forall s2 : ADB,
                   indexes (if smem table_name (schemas s2)
                            then set_schemas
                                   (sdel table_name (schemas s2)) s2
                            else s2) = indexes s2).
        { intros s2. now destruct (smem table_name (schemas s2)). }
        rewrite Heq. cbn [indexes set_data]. split.
        + now apply smem_false_sget.
        + reflexivity. }
    assert (Hsch : sget table_name (schemas s') = None
                   /\ forall other, other <> table_name ->
                        sget other (schemas s') = sget other (schemas s)).
    { rewrite Hs. cbn [data set_data set_indexes set_schemas indexes schemas].
      assert (Heq : schemas
                      (if smem table_name (indexes s)
                       then set_indexes (sdel table_name (indexes s))
                              (set_data (sdel table_name (data s)) s)
                       else set_data (sdel table_name (data s)) s)
                    = schemas s).
      { now destruct (smem table_name (indexes s)). }
      rewrite Heq.
      destruct (smem table_name (schemas s)) eqn:Hm;
        cbn [schemas set_schemas]; rewrite ?Heq.
      - split; [apply sget_sdel_same|].
        intros other Hne. now apply sget_sdel_other.
      - split; [now apply smem_false_sget|reflexivity]. }
    assert (Hnone : sget table_name (data s') = None).
    { rewrite Hdata. apply sget_sdel_same. }
    split; [exact Hnone|].
    split; [exact (proj1 Hix)|].
    split; [exact (proj1 Hsch)|].
    split.
    { intros other Hne. split; [|split].
      - rewrite Hdata. now apply sget_sdel_other.
      - now apply (proj2 Hix).
      - now apply (proj2 Hsch). }
    split.
    { intros r. now rewrite insert_unfold, Hnone. }
    intros condition limit offset. unfold_facade. now rewrite Hnone.
Qed.

(** ** Truncating *)

Lemma sget_map_const {A B} (b : B) (k : string) (l : list (string * A)) :
  sget k (map (fun ci => (fst ci, b)) l)
  = match sget k l with Some _ => Some b | None => None end.
Proof.
  unfold sget. induction l as [|[k' v] l IH]; cbn; [reflexivity|].
  destruct (String.eqb k' k); [reflexivity|exact IH].
Qed.

Lemma map_fst_map_const {A B} (b : B) (l : list (string * A)) :
  map fst (map (fun ci => (fst ci, b)) l) = map fst l.
Proof. induction l as [|[k v] l IH]; cbn; [reflexivity|now rewrite IH]. Qed.

(** X4: [truncate_table] on a table leaves it with no record, keeps its
    schema and the names of its indexes, and leaves every index of the
    table empty, which is exact for the empty table; the other tables
    keep their records. *)
Theorem truncate_table_leaves_empty_exact_indexes
    (e : env) (table_name : string) (s : ADB) (records : list record) :
  sget table_name (data s) = Some records ->
  let s' := fst (truncate_table e table_name s) in
  sget table_name (data s') = Some []
  /\ count table_name None s' = Ok 0
  /\ schemas s' = schemas s
  /\ list_indexes table_name s' = list_indexes table_name s
  /\ (forall tix column,
        sget table_name (indexes s) = Some tix ->
        smem column tix = true ->
        index_exact table_name column s')
  /\ (forall other, other <> table_name ->
        sget other (data s') = sget other (data s)).
Proof.
  intros Hd. cbn zeta. unfold truncate_table.
  rewrite (sget_Some_smem _ _ _ Hd).
  match goal with
  | |- context [save_database e ?s2] =>
      destruct (save_database_state e s2) as (Hd' & Hi' & Hs');
      set (s' := fst (save_database e s2)) in *
  end.
  cbn [data indexes schemas set_data] in Hd', Hi', Hs'.
  assert (Hdata : data s' = sset table_name [] (data s)).
  { rewrite Hd'. now destruct (sget table_name (indexes s)). }
  assert (Hsch : schemas s' = schemas s).
  { rewrite Hs'. now destruct (sget table_name (indexes s)). }
  assert (Hempty : sget table_name (data s') = Some []).
  { rewrite Hdata. apply sget_sset_same. }
  split; [exact Hempty|].
  split; [unfold_facade; now rewrite Hempty|].
  split; [exact Hsch|].
  split.
  { unfold list_indexes. rewrite (sget_Some_smem _ _ _ Hd).
    rewrite (sget_Some_smem _ _ _ Hempty). f_equal. rewrite Hi'.
    destruct (sget table_name (indexes s)) as [tix|] eqn:Hi.
    - cbn [indexes set_indexes]. rewrite sget_sset_same.
      apply map_fst_map_const.
    - cbn [indexes set_data]. now rewrite Hi. }
  split.
  { intros tix column Hi Hc.
    exists [], (map (fun ci => (fst ci, [])) tix), [].
    split; [exact Hempty|]. rewrite Hi', Hi.
    cbn [indexes set_indexes]. rewrite sget_sset_same.
    split; [reflexivity|]. rewrite sget_map_const.
    destruct (smem_true_sget _ _ Hc) as [idx ->].
    split; [reflexivity|]. split; [apply Forall_nil|].
    intros v _. reflexivity. }
  intros other Hne. rewrite Hdata. now apply sget_sset_other.
Qed.

(** ** Dropping and making an index *)

Lemma create_index_frame table_name column s s' res :
  create_index table_name column s = (s', res) ->
  data s' = data s /\ schemas s' = schemas s.
Proof.
  unfold create_index, bind, _check_table_exists, get_table_indexes,
    get_table, lift, set_index, bind, get_table_indexes, ret.
  destruct (smem table_name (data s));
    [|intros H; inversion H; subst; now split].
  destruct (smem table_name (indexes s)).
  - destruct (sget table_name (indexes s)) as [tix|] eqn:Hi;
      [|intros H; inversion H; subst; now split].
    destruct (smem column tix); [intros H; inversion H; subst; now split|].
    destruct (sget table_name (data s)) as [records|];
      [|intros H; inversion H; subst; now split].
    destruct (build_index column records 0 []) as [idx|x];
      [|intros H; inversion H; subst; now split].
    rewrite Hi. intros H; inversion H; subst; now split.
  - cbn [indexes set_indexes data]. rewrite sget_sset_same.
    cbn [smem dmem sget dget].
    change (data (set_indexes (sset table_name [] (indexes s)) s))
      with (data s).
    destruct (sget table_name (data s)) as [records|];
      [|intros H; inversion H; subst; now split].
    destruct (build_index column records 0 []) as [idx|x];
      [|intros H; inversion H; subst; now split].
    cbn [indexes set_indexes]. rewrite sget_sset_same.
    intros H; inversion H; subst; now split.
Qed.

Lemma create_index_absent_column table_name column s s' b tix :
  sget table_name (indexes s) = Some tix ->
  smem column tix = false ->
  create_index table_name column s = (s', Ok b) ->
  b = true.
Proof.
  intros Hi Hc.
  unfold create_index, bind, _check_table_exists, get_table_indexes,
    get_table, lift, set_index, bind, get_table_indexes, ret.
  destruct (smem table_name (data s)); [|discriminate].
  rewrite (sget_Some_smem _ _ _ Hi), Hi, Hc.
  destruct (sget table_name (data s)); [|discriminate].
  destruct (build_index column l 0 []); [|discriminate].
  rewrite Hi. intros H; inversion H; reflexivity.
Qed.

(** X5: dropping an index and making it again repairs it.  When
    [drop_index] returns [True] and the [create_index] that follows
    returns, it returns [True], the records are untouched and the index
    on the column is exact for the records the table holds now,
    whatever the dropped index held. *)
Theorem drop_index_then_create_index_is_exact
    (table_name column : string) (s s1 s2 : ADB) (b : bool) :
  drop_index table_name column s = (s1, Ok true) ->
  create_index table_name column s1 = (s2, Ok b) ->
  b = true /\ data s2 = data s /\ index_exact table_name column s2.
Proof.
  unfold drop_index.
  destruct (sget table_name (indexes s)) as [tix|] eqn:Hi; [|discriminate].
  destruct (smem column tix) eqn:Hc; [|discriminate].
  intros H Hcreate. inversion H; subst s1; clear H.
  assert (Hb : b = true).
  { eapply create_index_absent_column; [| |exact Hcreate].
    - cbn [indexes set_indexes]. apply sget_sset_same.
    - unfold smem, dmem. fold (@sget index).
      now rewrite sget_sdel_same. }
  subst b. split; [reflexivity|]. split.
  - now destruct (create_index_frame _ _ _ _ _ Hcreate) as [-> _].
  - exact (create_index_exact _ _ _ _ Hcreate).
Qed.

(** ** Renaming *)

(** X6: [rename_table] returns [False] and changes nothing when the old
    name is no table or the new name is one.  Otherwise the records, and
    the indexes and the schema if the old name has them, are under the
    new name and the old name has none; when no index was filed under
    the new name before, every [select] on the new name returns what it
    returned on the old name. *)
Theorem rename_table_moves_records_indexes_and_schema
    (e : env) (old_name new_name : string) (s : ADB) :
  let s' := fst (rename_table e old_name new_name s) in
  (smem old_name (data s) = false \/ smem new_name (data s) = true ->
   rename_table e old_name new_name s = (s, Ok false))
  /\ (forall records,
        sget old_name (data s) = Some records ->
        smem new_name (data s) = false ->
        sget new_name (data s') = Some records
        /\ sget old_name (data s') = None
        /\ sget old_name (indexes s') = None
        /\ sget old_name (schemas s') = None
        /\ (forall tix, sget old_name (indexes s) = Some tix ->
              sget new_name (indexes s') = Some tix)
        /\ (forall sch, sget old_name (schemas s) = Some sch ->
              sget new_name (schemas s') = Some sch)
        /\ (sget new_name (indexes s) = None ->
            forall condition limit offset,
              select new_name condition limit offset s'
              = select old_name condition limit offset s)).
Proof.
  cbn zeta. unfold rename_table. split.
  - intros [Ho|Hn].
    + now rewrite (smem_false_sget _ _ Ho).
    + destruct (sget old_name (data s)); [now rewrite Hn|reflexivity].
  - intros records Hd Hn. rewrite Hd, Hn.
    assert (Hne : old_name <> new_name).
    { intros ->. rewrite (sget_Some_smem _ _ _ Hd) in Hn. discriminate. }
    assert (Hne' : new_name <> old_name) by congruence.
    match goal with
    | |- context [save_database e ?s3] =>
        destruct (save_database_state e s3) as (Hd' & Hi' & Hs');
        set (s' := fst (save_database e s3)) in *
    end.
    assert (Hdata : data s'
                    = sdel old_name (sset new_name records (data s))).
    { rewrite Hd'. cbn [data indexes schemas set_data].
      destruct (sget old_name (indexes s));
        cbn [data indexes schemas set_indexes set_data];
        destruct (sget old_name (schemas s)); reflexivity. }
    assert (Hix : indexes s'
                  = match sget old_name (indexes s) with
                    | Some tix =>
                        sdel old_name (sset new_name tix (indexes s))
                    | None => indexes s
                    end).
    { rewrite Hi'. cbn [data indexes schemas set_data].
      destruct (sget old_name (indexes s));
        cbn [data indexes schemas set_indexes set_data];
        destruct (sget old_name (schemas s)); reflexivity. }
    assert (Hsch : schemas s'
                   = match sget old_name (schemas s) with
                     | Some sch =>
                         sdel old_name (sset new_name sch (schemas s))
                     | None => schemas s
                     end).
    { rewrite Hs'. cbn [data indexes schemas set_data].
      destruct (sget old_name (indexes s));
        cbn [data indexes schemas set_indexes set_data];
        destruct (sget old_name (schemas s)); reflexivity. }
    assert (Hnew : sget new_name (data s') = Some records).
    { rewrite Hdata, sget_sdel_other by assumption. apply sget_sset_same. }
    assert (Hixold : sget old_name (indexes s') = None).
    { rewrite Hix. destruct (sget old_name (indexes s)) eqn:Hio;
        [apply sget_sdel_same|exact Hio]. }
    assert (Hixnew : forall tix, sget old_name (indexes s) = Some tix ->
                       sget new_name (indexes s') = Some tix).
    { intros tix Hio. rewrite Hix, Hio, sget_sdel_other by assumption.
      apply sget_sset_same. }
    split; [exact Hnew|].
    split; [rewrite Hdata; apply sget_sdel_same|].
    split; [exact Hixold|].
    split.
    { rewrite Hsch. destruct (sget old_name (schemas s)) eqn:Hso;
        [apply sget_sdel_same|exact Hso]. }
    split; [exact Hixnew|].
    split.
    { intros sch Hso. rewrite Hsch, Hso, sget_sdel_other by assumption.
      apply sget_sset_same. }
    intros Hin condition limit offset.
    assert (Hsame : sget new_name (indexes s') = sget old_name (indexes s)).
    { destruct (sget old_name (indexes s)) as [tix|] eqn:Hio.
      - now apply Hixnew.
      - rewrite Hix. exact Hin. }
    unfold_facade. rewrite Hnew, Hd.
    destruct condition as [cond|]; [|reflexivity].
    unfold index_for. now rewrite Hsame.
Qed.

(** ** Renumbering *)

Lemma renumber_from_length records : forall i,
  List.length (renumber_from i records) = List.length records.
Proof.
  induction records as [|r rs IH]; intros i; cbn; [reflexivity|].
  now rewrite IH.
Qed.

Lemma renumber_from_nth records : forall i j,
  nth_error (renumber_from i records) j
  = option_map (sset "_id" (VInt (Z.of_nat (i + j) + 1)))
      (nth_error records j).
Proof.
  induction records as [|r rs IH]; intros i j.
  - now destruct j.
  - destruct j as [|j]; cbn.
    + now rewrite Nat.add_0_r.
    + rewrite IH. now rewrite Nat.add_succ_r.
Qed.

Lemma optimize_table_unfold e table_name s records :
  sget table_name (data s) = Some records ->
  optimize_table e table_name s
  = save_database e
      (set_data (sset table_name (renumber_from 0 records) (data s)) s).
Proof.
  intros Hd. unfold optimize_table.
  rewrite (sget_Some_smem _ _ _ Hd). unfold bind.
  rewrite rebuild_indexes_changes_nothing
    by exact (sget_Some_smem _ _ _ Hd).
  unfold get_table. now rewrite Hd.
Qed.

(** X7: [optimize_table] on a table keeps the records in number and in
    order, gives the record at position [i] (from 0) the [_id] [i + 1]
    and leaves every other field of every record as it was; the indexes
    of the instance are what they were before the call. *)
Theorem optimize_table_renumbers_ids
    (e : env) (table_name : string) (s : ADB) (records : list record) :
  sget table_name (data s) = Some records ->
  let s' := fst (optimize_table e table_name s) in
  indexes s' = indexes s
  /\ exists records',
       sget table_name (data s') = Some records'
       /\ List.length records' = List.length records
       /\ forall i r, nth_error records i = Some r ->
            exists r',
              nth_error records' i = Some r'
              /\ sget "_id" r' = Some (VInt (Z.of_nat i + 1))
              /\ forall field, field <> "_id" ->
                   sget field r' = sget field r.
Proof.
  intros Hd. cbn zeta. rewrite (optimize_table_unfold _ _ _ _ Hd).
  match goal with
  | |- context [save_database e ?s2] =>
      destruct (save_database_state e s2) as (Hd' & Hi' & _);
      destruct (save_database e s2) as [s' res]
  end.
  cbn [fst data indexes set_data] in *.
  split; [exact Hi'|].
  exists (renumber_from 0 records).
  split; [rewrite Hd'; apply sget_sset_same|].
  split; [apply renumber_from_length|].
  intros i r Hr. eexists.
  rewrite renumber_from_nth, Hr. cbn [option_map Nat.add].
  split; [reflexivity|].
  split; [apply sget_sset_same|].
  intros field Hne. now apply sget_sset_other.
Qed.

(** ** Adding and dropping a column *)

Lemma alter_table_state e table_name action column_name column_def
    default_value s :
  smem table_name (data s) = true ->
  let s1 := if String.eqb action "add_column"
            then add_column table_name column_name column_def
                   default_value s
            else if String.eqb action "drop_column"
            then drop_column table_name column_name s
            else s in
  let s' := fst (alter_table e table_name action column_name column_def
                   default_value s) in
  data s' = data s1 /\ indexes s' = indexes s1 /\ schemas s' = schemas s1.
Proof.
  intros Hm. cbn zeta. unfold alter_table. rewrite Hm.
  apply save_database_state.
Qed.

(** X8: [alter_table] with [add_column] keeps the records in number and
    in order; a record that has the column keeps its value, a record
    that has not gets the default value, and no other field changes.
    The schema of the table, when it has one, maps the column to the
    given definition and is otherwise unchanged; the indexes are what
    they were. *)
Theorem add_column_fills_in_the_default
    (e : env) (table_name column_name : string) (column_def : constraints)
    (default_value : value) (s : ADB) (records : list record) :
  sget table_name (data s) = Some records ->
  let s' := fst (alter_table e table_name "add_column" column_name
                   column_def default_value s) in
  indexes s' = indexes s
  /\ (sget table_name (schemas s) = None -> schemas s' = schemas s)
  /\ (forall sch,
        sget table_name (schemas s) = Some sch ->
        exists sch',
          sget table_name (schemas s') = Some sch'
          /\ sget column_name sch' = Some column_def
          /\ forall field, field <> column_name ->
               sget field sch' = sget field sch)
  /\ exists records',
       sget table_name (data s') = Some records'
       /\ List.length records' = List.length records
       /\ forall i r, nth_error records i = Some r ->
            exists r',
              nth_error records' i = Some r'
              /\ sget column_name r'
                 = Some (match sget column_name r with
                         | Some v => v
                         | None => default_value
                         end)
              /\ forall field, field <> column_name ->
                   sget field r' = sget field r.
Proof.
  intros Hd.
  pose proof (alter_table_state e table_name "add_column" column_name
                column_def default_value s (sget_Some_smem _ _ _ Hd))
    as H.
  cbn zeta in *. change (String.eqb "add_column" "add_column") with true in H.
  cbn iota in H. destruct H as (Hd' & Hi' & Hs').
  set (s' := fst (alter_table e table_name "add_column" column_name
                    column_def default_value s)) in *.
  unfold add_column in Hd', Hi', Hs'.
  set (s1 := match sget table_name (schemas s) with
             | Some sch =>
                 set_schemas
                   (sset table_name (sset column_name column_def sch)
                      (schemas s)) s
             | None => s
             end) in *.
  assert (H1 : data s1 = data s /\ indexes s1 = indexes s).
  { unfold s1. destruct (sget table_name (schemas s)); now split. }
  destruct H1 as [H1d H1i].
  rewrite H1d, Hd in Hd', Hi', Hs'.
  cbn [data indexes schemas set_data] in Hd', Hi', Hs'.
  split; [now rewrite Hi'|].
  split.
  { intros Hnone. rewrite Hs'. unfold s1. now rewrite Hnone. }
  split.
  { intros sch Hsch. exists (sset column_name column_def sch).
    rewrite Hs'. unfold s1. rewrite Hsch. cbn [schemas set_schemas].
    split; [apply sget_sset_same|].
    split; [apply sget_sset_same|].
    intros field Hne. now apply sget_sset_other. }
  eexists. split; [rewrite Hd'; apply sget_sset_same|].
  split; [apply length_map|].
  intros i r Hr. eexists. split; [exact (map_nth_error _ _ _ Hr)|].
  unfold smem, dmem. fold (@sget value).
  destruct (sget column_name r) as [v|] eqn:Hc.
  - split; [exact Hc|]. reflexivity.
  - split; [apply sget_sset_same|].
    intros field Hne. now apply sget_sset_other.
Qed.

(** X9: [alter_table] with [drop_column] keeps the records in number and
    in order and leaves no record with the column, every other field
    being as before; the index on the column and the schema entry of the
    column are gone, the other indexes and schema entries of the table
    stay. *)
Theorem drop_column_removes_field_index_and_schema_entry
    (e : env) (table_name column_name : string) (column_def : constraints)
    (default_value : value) (s : ADB) (records : list record) :
  sget table_name (data s) = Some records ->
  let s' := fst (alter_table e table_name "drop_column" column_name
                   column_def default_value s) in
  (forall tix,
      sget table_name (indexes s) = Some tix ->
      exists tix',
        sget table_name (indexes s') = Some tix'
        /\ sget column_name tix' = None
        /\ forall column, column <> column_name ->
             sget column tix' = sget column tix)
  /\ (forall sch,
        sget table_name (schemas s) = Some sch ->
        exists sch',
          sget table_name (schemas s') = Some sch'
          /\ sget column_name sch' = None
          /\ forall field, field <> column_name ->
               sget field sch' = sget field sch)
  /\ exists records',
       sget table_name (data s') = Some records'
       /\ List.length records' = List.length records
       /\ forall i r, nth_error records i = Some r ->
            exists r',
              nth_error records' i = Some r'
              /\ sget column_name r' = None
              /\ forall field, field <> column_name ->
                   sget field r' = sget field r.
Proof.
  intros Hd.
  pose proof (alter_table_state e table_name "drop_column" column_name
                column_def default_value s (sget_Some_smem _ _ _ Hd))
    as H.
  cbn zeta in *.
  change (String.eqb "drop_column" "add_column") with false in H.
  change (String.eqb "drop_column" "drop_column") with true in H.
  cbn iota in H. destruct H as (Hd' & Hi' & Hs').
  set (s' := fst (alter_table e table_name "drop_column" column_name
                    column_def default_value s)) in *.
  unfold drop_column in Hd', Hi', Hs'.
  set (s1 := match sget table_name (schemas s) with
             | Some sch =>
                 if smem column_name sch
                 then set_schemas
                        (sset table_name (sdel column_name sch) (schemas s))
                        s
                 else s
             | None => s
             end) in *.
  assert (H1 : data s1 = data s /\ indexes s1 = indexes s).
  { unfold s1. destruct (sget table_name (schemas s)) as [sch|];
      [destruct (smem column_name sch)|]; now split. }
  destruct H1 as [H1d H1i].
  rewrite H1d, Hd in Hd', Hi', Hs'.
  cbn [data indexes schemas set_data] in Hd', Hi', Hs'.
  rewrite H1i in Hd', Hi', Hs'.
  split.
  { intros tix Hix. rewrite Hix in Hi'.
    destruct (smem column_name tix) eqn:Hc.
    - exists (sdel column_name tix). rewrite Hi'.
      cbn [indexes set_indexes].
      split; [apply sget_sset_same|].
      split; [apply sget_sdel_same|].
      intros column Hne. now apply sget_sdel_other.
    - exists tix. rewrite Hi'. cbn [indexes set_data]. rewrite H1i.
      split; [exact Hix|]. split; [now apply smem_false_sget|reflexivity]. }
  split.
  { intros sch Hsch.
    assert (Hs1 : schemas s'
                  = if smem column_name sch
                    then sset table_name (sdel column_name sch) (schemas s)
                    else schemas s).
    { rewrite Hs'.
      assert (Hs1' : schemas s1
                     = if smem column_name sch
                       then sset table_name (sdel column_name sch)
                              (schemas s)
                       else schemas s).
      { unfold s1. rewrite Hsch. now destruct (smem column_name sch). }
      destruct (sget table_name (indexes s)) as [tix|];
        [destruct (smem column_name tix)|]; exact Hs1'. }
    destruct (smem column_name sch) eqn:Hc.
    - exists (sdel column_name sch). rewrite Hs1.
      split; [apply sget_sset_same|].
      split; [apply sget_sdel_same|].
      intros field Hne. now apply sget_sdel_other.
    - exists sch. rewrite Hs1.
      split; [exact Hsch|].
      split; [now apply smem_false_sget|reflexivity]. }
  eexists. split.
  { rewrite Hd'.
    destruct (sget table_name (indexes s)) as [tix|];
      [destruct (smem column_name tix)|];
      cbn [data set_indexes set_data]; rewrite ?H1d;
      apply sget_sset_same. }
  split; [apply length_map|].
  intros i r Hr. eexists. split; [exact (map_nth_error _ _ _ Hr)|].
  destruct (smem column_name r) eqn:Hc.
  - split; [apply sget_sdel_same|].
    intros field Hne. now apply sget_sdel_other.
  - split; [now apply smem_false_sget|reflexivity].
Qed.

(** ** Deleting and counting *)

Lemma filter_not_match_split c : forall rs kept,
  filter_not_match py_str str_lower rs c = Ok kept ->
  exists found,
    filter_match py_str str_lower rs c = Ok found
    /\ List.length found + List.length kept = List.length rs
    /\ filter_match py_str str_lower kept c = Ok [].
Proof.
  induction rs as [|r rs IH]; intros kept;
    cbn [filter_not_match filter_match].
  - intros H; inversion H; subst. exists []. repeat split.
  - destruct (match_condition r c) as [b|x] eqn:Hm; [|discriminate].
    cbn [rbind].
    destruct (filter_not_match py_str str_lower rs c) as [kept0|x] eqn:Hk;
      [|discriminate].
    cbn [rbind]. intros H; inversion H; subst; clear H.
    destruct (IH _ eq_refl) as (found & Hf & Hlen & Hnone).
    rewrite Hf. cbn [rbind]. destruct b.
    + exists (r :: found). cbn [List.length].
      split; [reflexivity|]. split; [lia|exact Hnone].
    + exists found. cbn [filter_match List.length]. rewrite Hm, Hnone.
      split; [reflexivity|]. split; [lia|reflexivity].
Qed.

Lemma save_database_returns e s :
  json_serializable s = true ->
  exists b, snd (save_database e s) = Ok b.
Proof.
  intros Hj. unfold save_database. rewrite Hj.
  destruct (_ && _); [|destruct (io_ok e)]; eexists; reflexivity.
Qed.

Lemma delete_unfold e table_name c0 cond s records :
  sget table_name (data s) = Some records ->
  delete e table_name (c0 :: cond) s
  = match filter_not_match py_str str_lower records (c0 :: cond) with
    | Err x => (s, Err x)
    | Ok kept =>
        let s1 := set_data (sset table_name kept (data s)) s in
        let n := List.length records - List.length kept in
        if Nat.ltb 0 n
        then match save_database e s1 with
             | (s2, Ok _) => (s2, Ok n)
             | (s2, Err x) => (s2, Err x)
             end
        else (s1, Ok n)
    end.
Proof.
  intros Hd. unfold_facade.
  unfold bind, _check_table_exists, get_table, lift.
  rewrite (sget_Some_smem _ _ _ Hd), Hd.
  destruct (filter_not_match py_str str_lower records (c0 :: cond))
    as [kept|x]; [|reflexivity].
  cbn zeta.
  destruct (Nat.ltb 0 (List.length records - List.length kept));
    [|reflexivity].
  rewrite rebuild_indexes_changes_nothing.
  - now destruct (save_database e _) as [s2 [b|x]].
  - cbn [data set_data]. apply sget_Some_smem with (v := kept).
    apply sget_sset_same.
Qed.

(** X10: a [delete] that returns [n] has removed exactly the records
    that matched: [n] is what [count] gave for the condition before the
    call, [count] for the condition is 0 afterwards, the table holds the
    records that did not match, in their order, and [n] fewer records
    than before.  The other tables are untouched, and so are the
    indexes of the instance. *)
Theorem delete_removes_exactly_the_matching_records
    (e : env) (table_name : string) (condition : record) (s s' : ADB)
    (n : nat) (records : list record) :
  sget table_name (data s) = Some records ->
  delete e table_name condition s = (s', Ok n) ->
  count table_name (Some condition) s = Ok n
  /\ count table_name (Some condition) s' = Ok 0
  /\ (exists kept,
        sget table_name (data s') = Some kept
        /\ filter_not_match py_str str_lower records condition = Ok kept
        /\ List.length kept + n = List.length records)
  /\ (forall other, other <> table_name ->
        sget other (data s') = sget other (data s))
  /\ indexes s' = indexes s.
Proof.
  intros Hd. destruct condition as [|c0 cond].
  { unfold_facade. unfold bind, _check_table_exists.
    rewrite (sget_Some_smem _ _ _ Hd). discriminate. }
  rewrite (delete_unfold _ _ _ _ _ _ Hd).
  destruct (filter_not_match py_str str_lower records (c0 :: cond))
    as [kept|x] eqn:Hk; [|discriminate].
  destruct (filter_not_match_split _ _ _ Hk) as (found & Hf & Hlen & Hnone).
  cbn zeta.
  assert (Hn : List.length records - List.length kept = List.length found)
    by lia.
  rewrite Hn.
  set (s1 := set_data (sset table_name kept (data s)) s).
  assert (Hst : data s' = data s1 /\ indexes s' = indexes s1 ->
                n = List.length found ->
                count table_name (Some (c0 :: cond)) s = Ok n
                /\ count table_name (Some (c0 :: cond)) s' = Ok 0
                /\ (exists kept0,
                      sget table_name (data s') = Some kept0
                      /\ Ok kept = Ok kept0
                      /\ List.length kept0 + n = List.length records)
                /\ (forall other, other <> table_name ->
                      sget other (data s') = sget other (data s))
                /\ indexes s' = indexes s).
  { intros [Hd' Hi'] ->.
    assert (Hkept : sget table_name (data s') = Some kept).
    { rewrite Hd'. apply sget_sset_same. }
    split; [unfold_facade; now rewrite Hd, Hf|].
    split; [unfold_facade; now rewrite Hkept, Hnone|].
    split; [exists kept; split; [exact Hkept|split; [reflexivity|lia]]|].
    split; [|exact Hi'].
    intros other Hne. rewrite Hd'. now apply sget_sset_other. }
  destruct (Nat.ltb 0 (List.length found)).
  - destruct (save_database e s1) as [s2 [b|x]] eqn:Hs; [|discriminate].
    apply save_database_frame in Hs. destruct Hs as (Hd' & Hi' & _).
    intros H; inversion H; subst.
    apply Hst; [now split|reflexivity].
  - intros H; inversion H; subst. apply Hst; [now split|reflexivity].
Qed.

(** ** Updating *)

Lemma update_loop_counts schs e table_name condition new_values :
  forall records records' res,
    update_loop py_str str_lower schs e table_name condition new_values
      records = (records', res) ->
    List.length records' = List.length records
    /\ forall n, res = Ok n ->
         exists found,
           filter_match py_str str_lower records condition = Ok found
           /\ List.length found = n.
Proof.
  induction records as [|r rs IH]; intros records' res;
    cbn [update_loop filter_match].
  - intros H; inversion H; subst. split; [reflexivity|].
    intros n Hn. inversion Hn. now exists [].
  - destruct (match_condition r condition) as [[|]|x] eqn:Hm.
    + destruct (validate_in schs table_name (dict_update r new_values))
        as [b|x].
      * destruct (update_loop py_str str_lower schs e table_name condition
                    new_values rs) as [rs' res0] eqn:Hl.
        destruct (IH _ _ eq_refl) as [Hlen Hres].
        intros H; inversion H; subst; clear H.
        cbn [List.length]. split; [now rewrite Hlen|].
        intros n Hn. destruct res0 as [m|x]; [|discriminate].
        cbn [rbind] in Hn. inversion Hn; subst.
        destruct (Hres m eq_refl) as (found & Hf & Hfl).
        exists (r :: found). rewrite Hf. cbn [rbind List.length].
        split; [reflexivity|now rewrite Hfl].
      * intros H; inversion H; subst. split; [reflexivity|].
        intros n Hn. discriminate.
    + destruct (update_loop py_str str_lower schs e table_name condition
                  new_values rs) as [rs' res0] eqn:Hl.
      destruct (IH _ _ eq_refl) as [Hlen Hres].
      intros H; inversion H; subst; clear H.
      cbn [List.length]. split; [now rewrite Hlen|].
      intros n Hn. destruct (Hres n Hn) as (found & Hf & Hfl).
      exists found. rewrite Hf. cbn [rbind]. now split.
    + intros H; inversion H; subst. split; [reflexivity|].
      intros n Hn. discriminate.
Qed.

Lemma update_unfold e table_name c0 cond new_values s records :
  sget table_name (data s) = Some records ->
  update e table_name (c0 :: cond) new_values s
  = let (records', res) :=
      update_loop py_str str_lower (schemas s) e table_name (c0 :: cond)
        new_values records in
    let s1 := set_data (sset table_name records' (data s)) s in
    match res with
    | Err x => (s1, Err x)
    | Ok n =>
        if Nat.ltb 0 n
        then match save_database e s1 with
             | (s2, Ok _) => (s2, Ok n)
             | (s2, Err x) => (s2, Err x)
             end
        else (s1, Ok n)
    end.
Proof.
  intros Hd. unfold_facade.
  unfold bind, _check_table_exists, get_table.
  rewrite (sget_Some_smem _ _ _ Hd), Hd.
  destruct (update_loop py_str str_lower (schemas s) e table_name
              (c0 :: cond) new_values records) as [records' [n|x]];
    [|reflexivity].
  cbn zeta. destruct (Nat.ltb 0 n); [|reflexivity].
  rewrite rebuild_indexes_changes_nothing.
  - now destruct (save_database e _) as [s2 [b|x]].
  - cbn [data set_data]. apply sget_Some_smem with (v := records').
    apply sget_sset_same.
Qed.

(** X11: whether [update] returns or raises, the table holds as many
    records afterwards as before, and the indexes of the instance are
    what they were; when it returns [n], [n] is what [count] gave for
    the condition before the call. *)
Theorem update_keeps_the_record_count_and_returns_the_match_count
    (e : env) (table_name : string) (condition new_values : record)
    (s s' : ADB) (res : result nat) (records : list record) :
  sget table_name (data s) = Some records ->
  update e table_name condition new_values s = (s', res) ->
  (exists records',
      sget table_name (data s') = Some records'
      /\ List.length records' = List.length records)
  /\ indexes s' = indexes s
  /\ forall n, res = Ok n -> count table_name (Some condition) s = Ok n.
Proof.
  intros Hd. destruct condition as [|c0 cond].
  { unfold_facade. unfold bind, _check_table_exists.
    rewrite (sget_Some_smem _ _ _ Hd). unfold raise.
    intros H; inversion H; subst.
    split; [now exists records|]. split; [reflexivity|].
    intros n Hn. discriminate. }
  rewrite (update_unfold _ _ _ _ _ _ _ Hd).
  destruct (update_loop py_str str_lower (schemas s) e table_name
              (c0 :: cond) new_values records) as [records' res0] eqn:Hl.
  destruct (update_loop_counts _ _ _ _ _ _ _ _ Hl) as [Hlen Hres].
  set (s1 := set_data (sset table_name records' (data s)) s).
  assert (Hst : data s' = data s1 /\ indexes s' = indexes s1 ->
                (exists records0,
                    sget table_name (data s') = Some records0
                    /\ List.length records0 = List.length records)
                /\ indexes s' = indexes s).
  { intros [Hd' Hi']. split; [|exact Hi'].
    exists records'. rewrite Hd'. split; [apply sget_sset_same|exact Hlen]. }
  assert (Hcount : forall n, res0 = Ok n ->
                     count table_name (Some (c0 :: cond)) s = Ok n).
  { intros n Hn. destruct (Hres n Hn) as (found & Hf & Hfl).
    unfold_facade. rewrite Hd, Hf. cbn [rbind]. now rewrite Hfl. }
  destruct res0 as [n|x].
  - cbn zeta. destruct (Nat.ltb 0 n).
    + destruct (save_database e s1) as [s2 [b|x]] eqn:Hs;
        apply save_database_frame in Hs; destruct Hs as (Hd' & Hi' & _);
        intros H; inversion H; subst;
        (destruct Hst as [G1 G2]; [now split|]);
        (split; [exact G1|]); (split; [exact G2|]);
        [exact Hcount | intros n0 Hn0; discriminate].
    + intros H; inversion H; subst.
      destruct Hst as [G1 G2]; [now split|].
      split; [exact G1|]. split; [exact G2|exact Hcount].
  - intros H; inversion H; subst.
    destruct Hst as [G1 G2]; [now split|].
    split; [exact G1|]. split; [exact G2|]. intros n Hn. discriminate.
Qed.

(** X12: [update] is not atomic.  When the first record of the table
    matches and passes validation with the new values, and the loop
    raises at the second record (the comparison of its field raises, or
    it matches and fails validation), the call raises that error and
    leaves the first record changed: the table holds the first record
    with the new values and [_updated_at], then the other records as
    they were.  Nothing is written to the file. *)
Theorem update_that_raises_keeps_the_earlier_changes
    (e : env) (table_name : string) (c0 : string * value)
    (condition new_values : record) (s : ADB) (r1 r2 : record)
    (rest : list record) (b : bool) (x : exn) :
  sget table_name (data s) = Some (r1 :: r2 :: rest) ->
  match_condition r1 (c0 :: condition) = Ok true ->
  validate_in (schemas s) table_name (dict_update r1 new_values) = Ok b ->
  match_condition r2 (c0 :: condition) = Err x
  \/ (match_condition r2 (c0 :: condition) = Ok true
      /\ validate_in (schemas s) table_name (dict_update r2 new_values)
         = Err x) ->
  let r1' := sset "_updated_at" (VStr (now_isoformat e))
               (dict_update r1 new_values) in
  exists s',
    update e table_name (c0 :: condition) new_values s = (s', Err x)
    /\ sget table_name (data s') = Some (r1' :: r2 :: rest)
    /\ disk s' = disk s.
Proof.
  intros Hd Hm1 Hv1 H2. cbn zeta.
  rewrite (update_unfold _ _ _ _ _ _ _ Hd).
  cbn [update_loop]. rewrite Hm1, Hv1.
  destruct H2 as [Hm2|[Hm2 Hv2]]; rewrite Hm2; [|rewrite Hv2];
    cbn [rbind]; eexists; (split; [reflexivity|]);
    cbn [data set_data disk]; (split; [apply sget_sset_same|reflexivity]).
Qed.

(** ** Pagination *)

Lemma paginate_window {A} (l : list A) (limit offset : Z) :
  (0 <= offset)%Z -> (0 <= limit)%Z ->
  paginate l (Some limit) offset
  = if (limit =? 0)%Z then skipn (Z.to_nat offset) l
    else firstn (Z.to_nat limit) (skipn (Z.to_nat offset) l).
Proof.
  intros Ho Hl. unfold paginate, py_slice, clamp_index.
  assert (Hoff : (offset <? 0)%Z = false) by (apply Z.ltb_ge; lia).
  rewrite Hoff.
  set (len := List.length l).
  assert (Hskip : skipn (Z.to_nat (Z.min offset (Z.of_nat len))) l
                  = skipn (Z.to_nat offset) l).
  { destruct (Z.le_gt_cases offset (Z.of_nat len)) as [Hle|Hgt].
    - now rewrite Z.min_l.
    - rewrite Z.min_r by lia. rewrite Nat2Z.id.
      rewrite !skipn_all2; [reflexivity| |]; fold len; lia. }
  rewrite Hskip.
  assert (Hlenskip : List.length (skipn (Z.to_nat offset) l)
                     = len - Z.to_nat offset).
  { apply length_skipn. }
  destruct (limit =? 0)%Z eqn:Hz.
  - apply firstn_all2. rewrite Hlenskip. lia.
  - apply Z.eqb_neq in Hz.
    assert (Hsum : (offset + limit <? 0)%Z = false) by (apply Z.ltb_ge; lia).
    rewrite Hsum.
    destruct (Z.le_gt_cases (offset + limit) (Z.of_nat len)) as [Hle|Hgt].
    + rewrite (Z.min_l (offset + limit)) by lia.
      rewrite (Z.min_l offset) by lia.
      f_equal. lia.
    + rewrite (Z.min_r (offset + limit)) by lia.
      rewrite !firstn_all2; [reflexivity| |]; rewrite Hlenskip; lia.
Qed.

(** X13: with an offset and a limit that are not negative, [select]
    without a condition returns the window of the table that starts
    after [offset] records and holds at most [limit] records; a limit
    of 0 is no limit and gives every record after the first [offset].
    The same window is taken of the records found when there is a
    condition. *)
Theorem select_returns_the_window_of_offset_and_limit
    (table_name : string) (s : ADB) (records : list record)
    (limit offset : Z) :
  sget table_name (data s) = Some records ->
  (0 <= offset)%Z -> (0 <= limit)%Z ->
  let window (l : list record) :=
    if (limit =? 0)%Z then skipn (Z.to_nat offset) l
    else firstn (Z.to_nat limit) (skipn (Z.to_nat offset) l) in
  select table_name None (Some limit) offset s = Ok (window records)
  /\ forall condition found,
       filter_match py_str str_lower records condition = Ok found ->
       select_full_scan py_str str_lower records condition (Some limit)
         offset
       = Ok (window found).
Proof.
  intros Hd Ho Hl. cbn zeta. split.
  - unfold_facade. rewrite Hd. f_equal. now apply paginate_window.
  - intros condition found Hf. unfold select_full_scan. rewrite Hf.
    cbn [rbind]. f_equal. now apply paginate_window.
Qed.

Lemma paginate_all {A} (l : list A) : paginate l None 0 = l.
Proof.
  unfold paginate, py_slice, clamp_index.
  change (0 <? 0)%Z with false. cbn iota.
  rewrite Z.min_l by lia. change (Z.to_nat 0) with 0. cbn [skipn].
  rewrite Z.sub_0_r, Nat2Z.id. apply firstn_all.
Qed.

(** X14: [count] is the number of records [select] returns when it is
    given no limit and no offset: always so without a condition, and
    with a condition whenever [select] does not answer from an index;
    the two then also raise the same error. *)
Theorem count_is_the_length_of_what_select_scans
    (table_name : string) (s : ADB) :
  count table_name None s
  = rbind (select table_name None None 0 s)
      (fun l => Ok (List.length l))
  /\ forall condition,
       index_for table_name condition s = None ->
       count table_name (Some condition) s
       = rbind (select table_name (Some condition) None 0 s)
           (fun l => Ok (List.length l)).
Proof.
  split.
  - unfold_facade. destruct (sget table_name (data s)); [|reflexivity].
    cbn [rbind]. now rewrite paginate_all.
  - intros condition Hix. unfold_facade.
    destruct (sget table_name (data s)) as [records|]; [|reflexivity].
    rewrite Hix. unfold select_full_scan.
    destruct (filter_match py_str str_lower records condition);
      [|reflexivity].
    cbn [rbind]. now rewrite paginate_all.
Qed.

(** ** Saving *)

(** X15: outside a transaction, an [insert] made less than
    [_save_interval] after the last save returns [True] with the record
    in the table, and writes nothing: the file and the time of the last
    save are what they were. *)
Theorem insert_within_the_save_interval_writes_nothing
    (e : env) (table_name : string) (r : record) (s s' : ADB) (b : bool) :
  _transaction_active s = false ->
  (time_time e - _last_save_time s < _save_interval s)%Q ->
  insert e table_name r s = (s', Ok b) ->
  b = true
  /\ disk s' = disk s
  /\ _last_save_time s' = _last_save_time s
  /\ exists records stored,
       sget table_name (data s) = Some records
       /\ sget table_name (data s') = Some (records ++ [stored]).
Proof.
  intros Ha Hlt. rewrite insert_unfold.
  destruct (sget table_name (data s)) as [records|] eqn:Hd; [|discriminate].
  destruct (_ <=? _)%Z; [discriminate|].
  destruct (validate_in _ _ _); [|discriminate].
  cbn zeta.
  assert (Hq : Qltb (time_time e - _last_save_time s) (_save_interval s)
               = true).
  { unfold Qltb.
    destruct (Qle_bool (_save_interval s)
                (time_time e - _last_save_time s)) eqn:Hle; [|reflexivity].
    apply Qle_bool_iff in Hle. exfalso.
    exact (Qlt_not_le _ _ Hlt Hle). }
  unfold _update_indexes_for_insert.
  destruct (sget table_name (indexes s)) as [tix|].
  - destruct (update_columns _ _ tix) as [tix' [[]|x]]; [|discriminate].
    unfold save_database.
    cbn [data indexes schemas _transaction_active _last_save_time
           _save_interval set_data set_indexes].
    rewrite Hq, Ha. cbn [negb andb].
    intros H; inversion H; subst; clear H.
    cbn [disk _last_save_time data set_data set_indexes].
    repeat split. eexists _, _. split; [reflexivity|apply sget_sset_same].
  - unfold save_database.
    cbn [data indexes schemas _transaction_active _last_save_time
           _save_interval set_data set_indexes].
    rewrite Hq, Ha. cbn [negb andb].
    intros H; inversion H; subst; clear H.
    cbn [disk _last_save_time data set_data set_indexes].
    repeat split. eexists _, _. split; [reflexivity|apply sget_sset_same].
Qed.

(** ** Nesting transactions *)

(** X16: transactions do not nest.  A transaction whose body makes some
    facade calls that return and then opens a transaction raises the
    engine's [ADBError]: the body of the inner transaction and the code
    after it never run, and the records are put back to what they were
    before the outer transaction, which is no longer active. *)
Theorem nested_transaction_raises_and_rolls_back
    (e e' : env) (ops : list op) (inner rest : M unit) (s s1 : ADB) :
  _transaction_active s = false ->
  run_body ops (begin_transaction s) = (s1, Ok tt) ->
  transaction e (run_body ops ;;; transaction e' inner ;;; rest) s
  = (set_transaction false None (set_data (data s) s1),
     Err (ADBError "transaction already active")).
Proof.
  intros Ha Hops.
  destruct (keeps_tx_run_body ops _ _ _ Hops) as [Hact Hbk].
  cbn [begin_transaction set_transaction _transaction_active
         _transaction_backup] in Hact, Hbk.
  unfold transaction at 1. rewrite Ha. fold (begin_transaction s).
  unfold bind at 1. rewrite Hops.
  unfold bind, transaction, rollback. rewrite Hact, Hbk. reflexivity.
Qed.

(** ** Creating a table *)

Lemma create_table_fresh str_isalnum e table_name sch s :
  _validate_table_name str_isalnum table_name = None ->
  smem table_name (data s) = false ->
  let s1 := fst (create_table str_isalnum e table_name sch s) in
  data s1 = sset table_name [] (data s)
  /\ indexes s1 = sset table_name [] (indexes s)
  /\ schemas s1 = match sch with
                  | Some (c :: sc) => sset table_name (c :: sc) (schemas s)
                  | _ => schemas s
                  end
  /\ max_records s1 = max_records s.
Proof.
  intros Hv Hm. cbn zeta. unfold create_table. rewrite Hv, Hm.
  destruct sch as [[|c sc]|];
    match goal with
    | |- context [save_database e ?s3] =>
        destruct (save_database e s3) as [s4 res] eqn:Hs
    end;
    apply save_database_frame in Hs; cbn [fst];
    destruct Hs as (Hd & Hi & Hsc & _ & _ & Hmax);
    rewrite Hd, Hi, Hsc, Hmax; repeat split.
Qed.

Lemma map_fst_sset_fresh {V} (k : string) (v : V) d :
  smem k d = false -> map fst (sset k v d) = map fst d ++ [k].
Proof.
  unfold smem, dmem, sset.
  induction d as [|[k' v'] d IH]; cbn; [reflexivity|].
  destruct (String.eqb k' k); [discriminate|].
  intros H. cbn. now rewrite IH.
Qed.

(** X17: on an instance whose schemas hold no Python class,
    [create_table] with a valid name that is no table yet, and without a
    schema, adds the name after the existing tables; when nothing is
    left of an older schema under the name and the record limit is
    positive, the first [insert] into the new table returns and
    [select] then returns that one record, stamped with [_created_at]
    and the [_id] 1. *)
Theorem create_table_then_insert_then_select
    (str_isalnum : string -> bool) (e e' : env) (table_name : string)
    (r : record) (s : ADB) :
  _validate_table_name str_isalnum table_name = None ->
  smem table_name (data s) = false ->
  sget table_name (schemas s) = None ->
  (0 < max_records s)%Z ->
  json_serializable s = true ->
  let s1 := fst (create_table str_isalnum e table_name None s) in
  list_tables s1 = list_tables s ++ [table_name]
  /\ exists s2 b,
       insert e' table_name r s1 = (s2, Ok b)
       /\ select table_name None None 0 s2 = Ok [stored_record e' 0 r]
       /\ sget "_id" (stored_record e' 0 r) = Some (VInt 1).
Proof.
  intros Hv Hm Hs Hmax Hj.
  pose proof (create_table_fresh str_isalnum e table_name None s Hv Hm)
    as (Hd1 & Hi1 & Hs1 & Hm1).
  cbn zeta in *.
  set (s1 := fst (create_table str_isalnum e table_name None s)) in *.
  split.
  { unfold list_tables. rewrite Hd1. now apply map_fst_sset_fresh. }
  assert (Hd : sget table_name (data s1) = Some []).
  { rewrite Hd1. apply sget_sset_same. }
  rewrite insert_unfold, Hd, Hm1. cbn [List.length].
  assert (Hlim : (max_records s <=? Z.of_nat 0)%Z = false)
    by (apply Z.leb_gt; lia).
  rewrite Hlim. unfold validate_in. rewrite Hs1, Hs. cbn zeta.
  unfold _update_indexes_for_insert. rewrite Hi1, sget_sset_same.
  cbn [update_columns].
  match goal with
  | |- context [save_database e' ?s3] =>
      assert (Hj3 : json_serializable s3 = true)
        by (rewrite (json_serializable_schemas s s3);
            [exact Hj|cbn [schemas set_data set_indexes]; exact Hs1]);
      destruct (save_database_state e' s3) as (Hd2 & _);
      destruct (save_database_returns e' s3 Hj3) as [b Hb];
      destruct (save_database e' s3) as [s2 res]
  end.
  cbn [fst snd] in Hd2, Hb. subst res.
  exists s2, b. split; [reflexivity|].
  unfold_facade. rewrite Hd2. cbn [data set_data set_indexes].
  rewrite sget_sset_same. cbn [app].
  split; [now rewrite paginate_all|].
  unfold stored_record. apply sget_sset_same.
Qed.

Lemma remove_underscores_and_hyphens name :
  only_underscores_and_hyphens name = true ->
  remove_char "-" (remove_char "_" name) = "".
Proof.
  induction name as [|a name IH]; cbn [only_underscores_and_hyphens
                                         remove_char]; [reflexivity|].
  intros H. apply andb_prop in H. destruct H as [Ha Hrest].
  destruct (Ascii.eqb a "_") eqn:E1; [exact (IH Hrest)|].
  cbn [orb] in Ha. cbn [remove_char]. rewrite Ha. exact (IH Hrest).
Qed.

(** X18: [create_table] refuses every name that holds nothing but
    underscores and hyphens, the empty name among them, since
    [str.isalnum] is false of the empty string: it raises
    [ValidationError] and leaves the instance as it was. *)
Theorem create_table_refuses_a_name_without_letter_or_digit
    (str_isalnum : string -> bool) (e : env) (table_name : string)
    (sch : option schema) (s : ADB) :
  str_isalnum "" = false ->
  only_underscores_and_hyphens table_name = true ->
  exists why,
    create_table str_isalnum e table_name sch s = (s, NameRefused why).
Proof.
  intros Hempty Hname. unfold create_table, _validate_table_name.
  destruct (String.eqb table_name ""); [eauto|].
  destruct (Nat.ltb 64 (String.length table_name)); [eauto|].
  rewrite (remove_underscores_and_hyphens _ Hname), Hempty. eauto.
Qed.

(** ** Setting a schema *)

(** X19: [set_schema] on a table files the schema, which [get_schema]
    then returns, and keeps the records of the table as they are,
    whether or not they fit the schema; an [insert] of a record that
    violates the schema raises afterwards and changes nothing. *)
Theorem set_schema_binds_later_inserts_only
    (e e' : env) (table_name : string) (sch : schema) (r : record)
    (s : ADB) (records : list record) :
  sget table_name (data s) = Some records ->
  let s1 := fst (set_schema e table_name sch s) in
  get_schema table_name s1 = Some sch
  /\ sget table_name (data s1) = Some records
  /\ (violates sch r -> exists x, insert e' table_name r s1 = (s1, Err x)).
Proof.
  intros Hd. cbn zeta. unfold set_schema.
  rewrite (sget_Some_smem _ _ _ Hd).
  match goal with
  | |- context [save_database e ?s2] =>
      destruct (save_database_state e s2) as (Hd' & _ & Hs');
      set (s1 := fst (save_database e s2)) in *
  end.
  cbn [data schemas set_schemas] in Hd', Hs'.
  assert (Hsch : sget table_name (schemas s1) = Some sch).
  { rewrite Hs'. apply sget_sset_same. }
  split; [exact Hsch|]. split; [now rewrite Hd'|].
  intros Hbad. destruct (validate_fields_violation _ _ Hbad) as [why Hwhy].
  rewrite insert_unfold, Hd', Hd.
  destruct (_ <=? _)%Z; [eauto|].
  unfold validate_in. rewrite Hsch, Hwhy. eauto.
Qed.

(** ** Explaining a query *)

Lemma positions_of_length column v records : forall i,
  List.length (positions_of column v records i)
  = List.length (filter (field_equals column v) records).
Proof.
  induction records as [|r rs IH]; intros i; cbn [positions_of filter];
    [reflexivity|].
  rewrite length_app, IH. unfold field_equals.
  destruct (sget column r) as [x|]; [destruct (py_eq x v)|]; reflexivity.
Qed.

(** X20: while an index is exact, [explain_query] estimates what
    [select] returns.  For a table on which [create_index] succeeded
    and into which records were then inserted, [explain_query] for a
    literal equality on the indexed column reports an index scan on
    that column and estimates exactly the number of records that
    [select] returns for the condition without limit and offset, which
    are the records whose field equals the value. *)
Theorem explain_query_estimate_is_exact_for_an_exact_index
    (s0 s1 s : ADB) (table_name column : string)
    (ins : list (env * record)) (v : value) :
  create_index table_name column s0 = (s1, Ok true) ->
  run_body (insert_ops table_name ins) s1 = (s, Ok tt) ->
  hashable v = true ->
  exists found,
    select table_name (Some [(column, v)]) None 0 s = Ok found
    /\ explain_query table_name (Some [(column, v)]) s
       = Ok (mkPlan "index_scan" (List.length found) [column])
    /\ exists records,
         sget table_name (data s) = Some records
         /\ found = filter (field_equals column v) records.
Proof.
  intros Hcreate Hins Hv.
  pose proof (run_inserts_keep_index_exact _ _ _ _ _
                (create_index_exact _ _ _ _ Hcreate) Hins)
    as (records & tix & idx & Hd & Hi & Hc & Hk & Hget).
  exists (filter (field_equals column v) records).
  assert (Hpos : index_positions idx v
                 = Ok (positions_of column v records 0)).
  { unfold index_positions. rewrite Hv. fold (index_get idx v).
    now rewrite (Hget v Hv). }
  split; [|split].
  - unfold_facade. rewrite Hd. unfold index_for. rewrite Hi, Hc.
    assert (Hsel : select_via_index records idx v None 0
                   = Ok (filter (field_equals column v) records)).
    { unfold select_via_index. rewrite Hpos. cbn [rbind].
      rewrite paginate_all.
      now rewrite <- (fetch_positions_of column v records []). }
    destruct v; try exact Hsel. discriminate Hv.
  - unfold explain_query. rewrite Hd, Hi. cbn [explain_keys].
    rewrite Hc.
    assert (Hplan : rbind (index_positions idx v)
                      (fun index_values =>
                         explain_keys tix []
                           (mkPlan
                              (scan_type
                                 (mkPlan "index_scan"
                                    (estimated_rows
                                       (mkPlan "full_scan"
                                          (List.length records) []))
                                    (indexes_used
                                       (mkPlan "full_scan"
                                          (List.length records) [])
                                     ++ [column])))
                              (List.length index_values)
                              (indexes_used
                                 (mkPlan "index_scan"
                                    (estimated_rows
                                       (mkPlan "full_scan"
                                          (List.length records) []))
                                    (indexes_used
                                       (mkPlan "full_scan"
                                          (List.length records) [])
                                     ++ [column])))))
                    = Ok (mkPlan "index_scan"
                            (List.length
                               (filter (field_equals column v) records))
                            [column])).
    { rewrite Hpos. cbn. now rewrite positions_of_length. }
    destruct v; try exact Hplan. discriminate Hv.
  - now exists records.
Qed.

(** ** Importing *)

Lemma insert_raises_keeps_data e table_name r s s' x :
  json_serializable s = true ->
  insert e table_name r s = (s', Err x) -> data s' = data s.
Proof.
  intros Hj. rewrite insert_unfold.
  destruct (sget table_name (data s)) as [records|];
    [|intros H; now inversion H].
  destruct (_ <=? _)%Z; [intros H; now inversion H|].
  destruct (validate_in _ _ _); [|intros H; now inversion H].
  cbn zeta.
  destruct (_update_indexes_for_insert _ _ _ s) as [s1 [[]|x']] eqn:Hu.
  - pose proof (update_indexes_frame _ _ _ _ _ _ Hu) as (_ & Hs1 & _).
    match goal with
    | |- context [save_database e ?s2] =>
        assert (Hj2 : json_serializable s2 = true)
          by (rewrite (json_serializable_schemas s s2);
              [exact Hj|cbn [schemas set_data]; exact Hs1]);
        destruct (save_database_returns e s2 Hj2) as [b Hb];
        destruct (save_database e s2) as [s3 res]
    end.
    cbn [snd] in Hb. subst res. discriminate.
  - intros H; inversion H; subst.
    exact (proj1 (update_indexes_frame _ _ _ _ _ _ Hu)).
Qed.

Lemma import_loop_insert table_name : forall items s imported errors records,
  json_serializable s = true ->
  sget table_name (data s) = Some records ->
  exists s2 imported2 errors2 records2,
    import_loop py_str str_lower "insert" table_name items imported errors s
    = (s2, Ok (imported2, errors2))
    /\ imported2 + errors2 = imported + errors + List.length items
    /\ sget table_name (data s2) = Some records2
    /\ List.length records2 + imported = List.length records + imported2
    /\ schemas s2 = schemas s.
Proof.
  induction items as [|[[e0 e1] r] items IH];
    intros s imported errors records Hj Hd.
  - exists s, imported, errors, records. cbn [import_loop List.length].
    unfold ret. repeat split; [lia|exact Hd].
  - cbn [import_loop List.length]. unfold import_record.
    change (String.eqb "insert" "insert") with true. cbn iota.
    unfold bind.
    destruct (insert e0 table_name r s) as [s1 [b|x]] eqn:Hins.
    + unfold ret.
      pose proof (keeps_schemas_insert _ _ _ _ _ _ Hins) as Hs1.
      destruct (insert_returns _ _ _ _ _ _ _ Hd Hins) as [Hd1 _].
      assert (Hd1' : sget table_name (data s1)
                     = Some (records
                             ++ [stored_record e0 (List.length records) r])).
      { rewrite Hd1. apply sget_sset_same. }
      assert (Hj1 : json_serializable s1 = true).
      { now rewrite (json_serializable_schemas s s1 Hs1). }
      destruct (IH s1 (S imported) errors _ Hj1 Hd1')
        as (s2 & i2 & e2 & records2 & Hl & Hsum & Hd2 & Hlen & Hs2).
      exists s2, i2, e2, records2. rewrite length_app in Hlen.
      cbn [List.length] in Hlen.
      split; [exact Hl|]. split; [lia|]. split; [exact Hd2|].
      split; [lia|congruence].
    + pose proof (keeps_schemas_insert _ _ _ _ _ _ Hins) as Hs1.
      assert (Hd1 : sget table_name (data s1) = Some records).
      { now rewrite (insert_raises_keeps_data _ _ _ _ _ _ Hj Hins). }
      assert (Hj1 : json_serializable s1 = true).
      { now rewrite (json_serializable_schemas s s1 Hs1). }
      destruct (IH s1 imported (S errors) _ Hj1 Hd1)
        as (s2 & i2 & e2 & records2 & Hl & Hsum & Hd2 & Hlen & Hs2).
      exists s2, i2, e2, records2.
      split; [exact Hl|]. split; [lia|]. split; [exact Hd2|].
      split; [lia|congruence].
Qed.

(** X21: on an instance whose schemas hold no Python class and that is
    in no transaction, [import_data] in mode [insert] accounts for
    every record it is given: it reports no transaction error and no
    skipped record, the imported and the failed records add up to the
    number given, and the table has grown by the number reported as
    imported.  The instance is in no transaction afterwards. *)
Theorem import_data_insert_accounts_for_every_record
    (e : env) (table_name : string) (items : list (env * env * record))
    (s : ADB) (records : list record) :
  _transaction_active s = false ->
  json_serializable s = true ->
  sget table_name (data s) = Some records ->
  exists s' imported errors records',
    import_data py_str str_lower e table_name items "insert" s
    = (s', ImportCounts imported 0 errors None)
    /\ imported + errors = List.length items
    /\ sget table_name (data s') = Some records'
    /\ List.length records' = List.length records + imported
    /\ _transaction_active s' = false.
Proof.
  intros Ha Hj Hd. unfold import_data, import_counters, transaction.
  rewrite (sget_Some_smem _ _ _ Hd), Ha.
  set (s0 := set_transaction true (Some (data s)) s).
  assert (Hd0 : sget table_name (data s0) = Some records) by exact Hd.
  assert (Hj0 : json_serializable s0 = true) by exact Hj.
  destruct (import_loop_insert table_name items s0 0 0 records Hj0 Hd0)
    as (s2 & i2 & e2 & records2 & Hl & Hsum & Hd2 & Hlen & Hs2).
  unfold bind. rewrite Hl. unfold ret.
  assert (Hj2 : json_serializable s2 = true).
  { now rewrite (json_serializable_schemas s0 s2 Hs2). }
  destruct (save_database_state e s2) as (Hd3 & _).
  destruct (save_database_returns e s2 Hj2) as [b Hb].
  destruct (save_database e s2) as [s3 res]. cbn [fst snd] in Hd3, Hb.
  subst res.
  exists (set_transaction false None s3), i2, e2, records2.
  split; [reflexivity|]. split; [lia|].
  cbn [data set_transaction _transaction_active]. rewrite Hd3.
  split; [exact Hd2|]. split; [lia|reflexivity].
Qed.

Lemma import_loop_unknown_mode mode table_name :
  String.eqb mode "insert" = false ->
  String.eqb mode "replace" = false ->
  String.eqb mode "update" = false ->
  forall items s imported errors,
    import_loop py_str str_lower mode table_name items imported errors s
    = (s, Ok (imported, errors)).
Proof.
  intros H1 H2 H3.
  induction items as [|[[e0 e1] r] items IH]; intros s imported errors;
    cbn [import_loop]; [reflexivity|].
  unfold import_record. rewrite H1, H2, H3. unfold ret. apply IH.
Qed.

(** X22: [import_data] imports nothing, and does not say so by raising,
    in two cases.  On an instance that is in a transaction it leaves
    the instance as it is, whatever the mode, and reports all counters
    at 0 with the engine's transaction error.  On an instance that is in
    no transaction and whose schemas hold no Python class, with a mode
    other than [insert], [replace] and [update], it reports all
    counters at 0 and no error, and the records are what they were. *)
Theorem import_data_imports_nothing_in_a_transaction_or_unknown_mode
    (e : env) (table_name : string) (items : list (env * env * record))
    (mode_in mode : string) (s_in s : ADB) :
  smem table_name (data s_in) = true ->
  _transaction_active s_in = true ->
  smem table_name (data s) = true ->
  _transaction_active s = false ->
  json_serializable s = true ->
  String.eqb mode "insert" = false ->
  String.eqb mode "replace" = false ->
  String.eqb mode "update" = false ->
  import_data py_str str_lower e table_name items mode_in s_in
  = (s_in, ImportCounts 0 0 0
             (Some (ADBError "transaction already active")))
  /\ exists s',
       import_data py_str str_lower e table_name items mode s
       = (s', ImportCounts 0 0 0 None)
       /\ data s' = data s.
Proof.
  intros Hm_in Ha_in Hm Ha Hj H1 H2 H3. split.
  - unfold import_data, import_counters, transaction.
    now rewrite Hm_in, Ha_in.
  - unfold import_data, import_counters, transaction.
    rewrite Hm, Ha. unfold bind.
    rewrite (import_loop_unknown_mode mode table_name H1 H2 H3).
    unfold ret.
    match goal with
    | |- context [save_database e ?s2] =>
        assert (Hj2 : json_serializable s2 = true) by exact Hj;
        destruct (save_database_state e s2) as (Hd3 & _);
        destruct (save_database_returns e s2 Hj2) as [b Hb];
        destruct (save_database e s2) as [s3 res]
    end.
    cbn [fst snd] in Hd3, Hb. subst res.
    eexists. split; [reflexivity|].
    cbn [data set_transaction]. exact Hd3.
Qed.

Lemma delete_returns e table_name condition s s' n records :
  sget table_name (data s) = Some records ->
  delete e table_name condition s = (s', Ok n) ->
  exists kept,
    filter_not_match py_str str_lower records condition = Ok kept
    /\ data s' = sset table_name kept (data s)
    /\ _transaction_active s' = _transaction_active s.
Proof.
  intros Hd Hdel.
  destruct (keeps_tx_delete e table_name condition _ _ _ Hdel) as [Hact _].
  revert Hdel. destruct condition as [|c0 cond].
  { unfold_facade. unfold bind, _check_table_exists.
    rewrite (sget_Some_smem _ _ _ Hd). discriminate. }
  rewrite (delete_unfold _ _ _ _ _ _ Hd).
  destruct (filter_not_match py_str str_lower records (c0 :: cond))
    as [kept|x]; [|discriminate].
  cbn zeta. exists kept. split; [reflexivity|]. split; [|exact Hact].
  destruct (Nat.ltb 0 _).
  - destruct (save_database e _) as [s2 [b|x]] eqn:Hs; [|discriminate].
    inversion Hdel; subst.
    exact (proj1 (save_database_frame _ _ _ _ Hs)).
  - inversion Hdel; subst. reflexivity.
Qed.

(** X23: [import_data] in mode [replace] does not keep the [_id] of the
    record it replaces.  When the one record given has an [_id] and the
    call reports it imported, the table holds the records whose [_id]
    differs, in their order, followed by the given record stamped with
    the number of those records plus 1 as its [_id]. *)
Theorem import_data_replace_gives_the_record_a_new_id
    (e e0 e1 : env) (table_name : string) (r : record) (id : value)
    (s s' : ADB) (records : list record) :
  _transaction_active s = false ->
  sget table_name (data s) = Some records ->
  sget "_id" r = Some id ->
  import_data py_str str_lower e table_name [(e0, e1, r)] "replace" s
  = (s', ImportCounts 1 0 0 None) ->
  exists kept,
    filter_not_match py_str str_lower records [("_id", id)] = Ok kept
    /\ sget table_name (data s')
       = Some (kept ++ [stored_record e1 (List.length kept) r])
    /\ sget "_id" (stored_record e1 (List.length kept) r)
       = Some (VInt (Z.of_nat (List.length kept) + 1)).
Proof.
  intros Ha Hd Hid. unfold import_data, import_counters, transaction.
  rewrite (sget_Some_smem _ _ _ Hd), Ha.
  set (s0 := set_transaction true (Some (data s)) s).
  assert (Hd0 : sget table_name (data s0) = Some records) by exact Hd.
  cbn [import_loop]. unfold import_record.
  change (String.eqb "replace" "insert") with false.
  change (String.eqb "replace" "replace") with true.
  cbn iota. rewrite Hid. unfold bind.
  destruct (delete e0 table_name [("_id", id)] s0) as [s1 [n|x]] eqn:Hdel.
  - destruct (delete_returns _ _ _ _ _ _ _ Hd0 Hdel) as (kept & Hk & Hd1 & _).
    assert (Hd1' : sget table_name (data s1) = Some kept).
    { rewrite Hd1. apply sget_sset_same. }
    destruct (insert e1 table_name r s1) as [s2 [b|x]] eqn:Hins.
    + destruct (insert_returns _ _ _ _ _ _ _ Hd1' Hins) as [Hd2 _].
      unfold ret.
      destruct (save_database e s2) as [s3 [b3|x3]] eqn:Hs.
      * apply save_database_frame in Hs. destruct Hs as (Hd3 & _).
        intros H; inversion H; subst; clear H.
        exists kept. split; [exact Hk|].
        cbn [data set_transaction]. rewrite Hd3, Hd2.
        split; [apply sget_sset_same|].
        unfold stored_record. apply sget_sset_same.
      * unfold rollback.
        destruct (_transaction_backup s3); intros H; inversion H.
    + unfold ret.
      destruct (save_database e s2) as [s3 [b3|x3]];
        [|unfold rollback; destruct (_transaction_backup s3)];
        intros H; inversion H.
  - unfold ret.
    destruct (save_database e s1) as [s3 [b3|x3]];
      [|unfold rollback; destruct (_transaction_backup s3)];
      intros H; inversion H.
Qed.

(** ** Reloading the file *)

Lemma vset_string_keys {V} (t : string) (l : V) (acc : list (value * V)) :
  Forall (fun kl => exists u, fst kl = VStr u) acc ->
  Forall (fun kl => exists u, fst kl = VStr u) (vset (VStr t) l acc).
Proof.
  unfold vset. induction acc as [|[k w] acc IH]; cbn [dset]; intros H.
  - constructor; [now exists t|constructor].
  - inversion H as [|? ? Hk Hacc]; subst.
    destruct (py_eq k (VStr t)).
    + constructor; [exact Hk|exact Hacc].
    + constructor; [exact Hk|exact (IH Hacc)].
Qed.

Lemma reload_index_string_keys (idx : index) :
  Forall (fun kl => exists u, fst kl = VStr u) (reload_index idx).
Proof.
  unfold reload_index.
  assert (Hgen : forall acc : index,
             Forall (fun kl => exists u, fst kl = VStr u) acc ->
             Forall (fun kl => exists u, fst kl = VStr u)
               (fold_left
                  (fun acc kl =>
                     match json_key (fst kl) with
                     | Some t => vset (VStr t) (snd kl) acc
                     | None => acc
                     end) idx acc)).
  { induction idx as [|[k l] idx IH]; intros acc Hacc; cbn [fold_left];
      [exact Hacc|].
    apply IH. cbn [fst snd].
    destruct (json_key k); [now apply vset_string_keys|exact Hacc]. }
  apply Hgen. constructor.
Qed.

Lemma vget_string_keys {V} (v : value) (idx : list (value * V)) :
  Forall (fun kl => exists u, fst kl = VStr u) idx ->
  (forall u, v <> VStr u) ->
  vget v idx = None.
Proof.
  intros Hidx Hv. unfold vget.
  induction Hidx as [|[k l] idx [u Hk] _ IH]; cbn [dget]; [reflexivity|].
  cbn [fst] in Hk. subst k.
  destruct v as [|b|z|t|vs|d]; cbn [py_eq]; try exact IH.
  exfalso. exact (Hv t eq_refl).
Qed.

Lemma paginate_nil {A} (limit : option Z) (offset : Z) :
  paginate (@nil A) limit offset = [].
Proof.
  unfold paginate, py_slice. now rewrite skipn_nil, firstn_nil.
Qed.

(** X24: in the indexes [load_database] reads back from the file every
    key is a string, whatever the values of the column are.  So once
    the file has been reloaded, [select] with a literal equality on an
    indexed column returns the empty list whenever the value looked up
    is hashable and is not a string, an integer for instance, whatever
    records the table holds. *)
Theorem reloaded_index_finds_no_value_that_is_not_a_string
    (s : ADB) (table_name column : string) (v : value)
    (limit : option Z) (offset : Z) (tix : list (string * index))
    (idx : index) :
  let s' := fst (load_database s) in
  sget table_name (indexes s') = Some tix ->
  sget column tix = Some idx ->
  hashable v = true ->
  (forall u, v <> VStr u) ->
  select table_name (Some [(column, v)]) limit offset s' = Ok [].
Proof.
  intros s' Hi Hc Hv Hns.
  assert (Hidx : vget v idx = None).
  { revert Hi. unfold s', load_database.
    destruct (disk s) as [|f fs];
      cbn [fst indexes set_schemas set_indexes set_data].
    - discriminate.
    - unfold reload_indexes.
      rewrite (sget_map_snd
                 (fun cols : list (string * index) =>
                    map (fun ci => (fst ci, reload_index (snd ci))) cols)).
      destruct (sget table_name (f_indexes f)) as [tix0|]; [|discriminate].
      cbn [option_map]. intros H; inversion H; subst tix; clear H.
      rewrite (sget_map_snd reload_index) in Hc.
      destruct (sget column tix0) as [idx0|]; [|discriminate].
      cbn [option_map] in Hc. inversion Hc; subst idx.
      apply vget_string_keys; [apply reload_index_string_keys|exact Hns]. }
  unfold_facade.
  destruct (sget table_name (data s')) as [records|]; [|reflexivity].
  unfold index_for. rewrite Hi, Hc.
  assert (Hsel : select_via_index records idx v limit offset = Ok []).
  { unfold select_via_index, index_positions. rewrite Hv, Hidx.
    cbn [rbind fetch_positions flat_map]. now rewrite paginate_nil. }
  destruct v; try exact Hsel. discriminate Hv.
Qed.

(** ** Vacuum *)

Lemma save_database_throttled e s :
  _transaction_active s = false ->
  (time_time e - _last_save_time s < _save_interval s)%Q ->
  save_database e s = (s, Ok true).
Proof.
  intros Ha Hlt. unfold save_database.
  assert (Hq : Qltb (time_time e - _last_save_time s) (_save_interval s)
               = true).
  { unfold Qltb.
    destruct (Qle_bool (_save_interval s)
                (time_time e - _last_save_time s)) eqn:Hle; [|reflexivity].
    apply Qle_bool_iff in Hle. exfalso.
    exact (Qlt_not_le _ _ Hlt Hle). }
  now rewrite Hq, Ha.
Qed.

Lemma optimize_all_throttled (clock : nat -> env) (s : ADB) :
  _transaction_active s = false ->
  (forall i, (time_time (clock i) - _last_save_time s < _save_interval s)%Q) ->
  forall tables i d,
    exists d' n,
      optimize_all clock i tables (set_data d s) = (set_data d' s, Ok n).
Proof.
  intros Ha Hlt.
  induction tables as [|t tables IH]; intros i d; cbn [optimize_all].
  - exists d, i. reflexivity.
  - unfold bind.
    assert (Hopt : exists d1 b,
               optimize_table (clock i) t (set_data d s)
               = (set_data d1 s, Ok b)).
    { destruct (sget t (data (set_data d s))) as [records|] eqn:Hd.
      - rewrite (optimize_table_unfold _ _ _ _ Hd).
        rewrite save_database_throttled; [|exact Ha|exact (Hlt i)].
        eexists _, _. reflexivity.
      - unfold optimize_table. unfold smem, dmem.
        fold (@sget (list record)). rewrite Hd.
        exists d, false. reflexivity. }
    destruct Hopt as (d1 & b & ->).
    exact (IH (S i) d1).
Qed.

(** X25: [vacuum] can lose data.  Outside a transaction, when every
    clock reading during the call is less than [_save_interval] after
    the last save, [vacuum] returns [True] having written nothing, and
    the tables of the instance are then those of the file as it was
    last written (none when there is no file): what was changed in
    memory since that save is gone. *)
Theorem vacuum_within_the_save_interval_reloads_the_last_file
    (clock : nat -> env) (s : ADB) :
  _transaction_active s = false ->
  (forall i, (time_time (clock i) - _last_save_time s < _save_interval s)%Q) ->
  exists s',
    vacuum clock s = (s', Ok true)
    /\ disk s' = disk s
    /\ data s' = match disk s with
                 | [] => []
                 | f :: _ => f_tables f
                 end.
Proof.
  intros Ha Hlt. unfold vacuum.
  destruct (optimize_all_throttled clock s Ha Hlt (map fst (data s)) 0
              (data s)) as (d' & n & Hopt).
  rewrite set_data_same in Hopt. unfold bind. rewrite Hopt.
  rewrite save_database_throttled; [|exact Ha|exact (Hlt n)].
  unfold load_database. cbn [disk set_data].
  destruct (disk s) as [|f fs] eqn:Hdisk; eexists;
    (split; [reflexivity|]);
    cbn [disk data set_schemas set_indexes set_data];
    now rewrite ?Hdisk.
Qed.

(** ** Pipelines *)

(** X26: in [aggregate], a [$match] stage keeps the records that match
    its condition, as a scan of the table finds them; a [$group] stage
    after it groups those records only; and a stage that has neither
    key is skipped. *)
Theorem aggregate_match_then_group_and_unknown_stages
    (table_name by_field : string) (condition : record) (s : ADB)
    (records found : list record) :
  sget table_name (data s) = Some records ->
  filter_match py_str str_lower records condition = Ok found ->
  Forall (fun r => hashable (group_key by_field r) = true) found ->
  aggregate table_name [[("$match", VDict condition)]] s = Ok found
  /\ aggregate table_name
       [[("$match", VDict condition)]; group_by by_field] s
     = Ok (grouped by_field found)
  /\ forall stage pipeline,
       sget "$group" stage = None -> sget "$match" stage = None ->
       aggregate table_name (stage :: pipeline) s
       = aggregate table_name pipeline s.
Proof.
  intros Hd Hf Hh. unfold_facade. rewrite Hd.
  split; [|split].
  - cbn [run_pipeline sget dget String.eqb Ascii.eqb Bool.eqb].
    unfold match_stage. now rewrite Hf.
  - cbn [run_pipeline sget dget String.eqb Ascii.eqb Bool.eqb].
    unfold match_stage. rewrite Hf. cbn [rbind].
    unfold group_by.
    cbn [run_pipeline sget dget String.eqb Ascii.eqb Bool.eqb].
    rewrite (group_stage_grouped _ by_field found); [reflexivity| |exact Hh].
    reflexivity.
  - intros stage pipeline Hg Hm. cbn [run_pipeline]. now rewrite Hg, Hm.
Qed.

(** ** Range conditions *)

Lemma py_le_int x a : py_le (VInt x) (VInt a) = Ok (negb (a <? x)%Z).
Proof.
  unfold py_le. cbn [py_cmp].
  destruct (Z.compare_spec x a) as [E|E|E];
    destruct (Z.ltb_spec a x) as [L|L]; try reflexivity; exfalso; lia.
Qed.

Lemma py_lt_int x a : py_lt (VInt x) (VInt a) = Ok (x <? a)%Z.
Proof.
  unfold py_lt. cbn [py_cmp].
  destruct (Z.compare_spec x a) as [E|E|E];
    destruct (Z.ltb_spec x a) as [L|L]; try reflexivity; exfalso; lia.
Qed.

Lemma range_guard_int opname rejects test ops key r x :
  sget key r = Some (VInt x) ->
  (forall bound, sget opname ops = Some bound -> exists a, bound = VInt a) ->
  (forall a, rejects (VInt x) (VInt a) = Ok (negb (test a))) ->
  range_guard opname rejects ops key r
  = Ok (negb (bound_holds ops opname test)).
Proof.
  intros Hx Hint Hrej. unfold range_guard, bound_holds.
  destruct (sget opname ops) as [bound|] eqn:Hb; [|reflexivity].
  destruct (Hint bound eq_refl) as [a ->]. rewrite Hx. apply Hrej.
Qed.

(** X27: a range condition on an integer field.  For a record whose
    field is an integer [x] and an operator dictionary whose bounds are
    integers and that has no [$like], the record matches exactly when
    [x] is above the [$gt] bound, below the [$lt] bound, at least the
    [$gte] bound and at most the [$lte] bound, for those of the four
    that are given. *)
Theorem range_condition_on_an_integer_field
    (r : record) (key : string) (ops : record) (x : Z) :
  sget key r = Some (VInt x) ->
  integer_bounds ops ->
  sget "$like" ops = None ->
  match_condition r [(key, VDict ops)] = Ok (in_range ops x).
Proof.
  intros Hx Hint Hlike.
  cbn [_match_condition]. unfold match_item.
  rewrite (range_guard_int "$gt" py_le (fun a => (a <? x)%Z) ops key r x Hx).
  2: { intros bound Hb. apply (Hint "$gt" bound); [cbn; auto|exact Hb]. }
  2: { intros a. apply py_le_int. }
  rewrite (range_guard_int "$lt" py_ge (fun b => (x <? b)%Z) ops key r x Hx).
  2: { intros bound Hb. apply (Hint "$lt" bound); [cbn; auto|exact Hb]. }
  2: { intros a. unfold py_ge. apply py_le_int. }
  rewrite (range_guard_int "$gte" py_lt (fun a => (a <=? x)%Z) ops key r x
             Hx).
  2: { intros bound Hb. apply (Hint "$gte" bound); [cbn; auto|exact Hb]. }
  2: { intros a. rewrite py_lt_int. f_equal. apply Z.ltb_antisym. }
  rewrite (range_guard_int "$lte" py_gt (fun b => (x <=? b)%Z) ops key r x
             Hx).
  2: { intros bound Hb. apply (Hint "$lte" bound); [cbn; auto 6|exact Hb]. }
  2: { intros a. unfold py_gt. rewrite py_lt_int. f_equal. apply Z.ltb_antisym. }
  unfold like_guard. rewrite Hlike. unfold in_range. cbn [rbind].
  destruct (bound_holds ops "$gt" _); cbn [negb andb rbind]; [|reflexivity].
  destruct (bound_holds ops "$lt" _); cbn [negb andb rbind]; [|reflexivity].
  destruct (bound_holds ops "$gte" _); cbn [negb andb rbind]; [|reflexivity].
  destruct (bound_holds ops "$lte" _); reflexivity.
Qed.

Lemma filter_match_all condition : forall records,
  (forall r, match_condition r condition = Ok true) ->
  filter_match py_str str_lower records condition = Ok records.
Proof.
  intros records Hall.
  induction records as [|r rs IH]; cbn [filter_match]; [reflexivity|].
  now rewrite Hall, IH.
Qed.

(** X28: a condition whose value is a dictionary is never compared with
    the field.  When the dictionary has none of [$gt], [$lt], [$gte],
    [$lte] and [$like] (an empty dictionary, an operator the engine does
    not know such as [$ne], or a dictionary meant as the value to find)
    every record matches, and [select] with that one condition returns
    what it returns without a condition. *)
Theorem dictionary_condition_without_known_operator_matches_everything
    (table_name key : string) (ops : record) (limit : option Z)
    (offset : Z) (s : ADB) :
  sget "$gt" ops = None -> sget "$lt" ops = None ->
  sget "$gte" ops = None -> sget "$lte" ops = None ->
  sget "$like" ops = None ->
  (forall r, match_condition r [(key, VDict ops)] = Ok true)
  /\ select table_name (Some [(key, VDict ops)]) limit offset s
     = select table_name None limit offset s.
Proof.
  intros Hgt Hlt Hgte Hlte Hlike.
  assert (Hall : forall r, match_condition r [(key, VDict ops)] = Ok true).
  { intros r. cbn [_match_condition]. unfold match_item, range_guard,
      like_guard. now rewrite Hgt, Hlt, Hgte, Hlte, Hlike. }
  split; [exact Hall|].
  unfold_facade.
  destruct (sget table_name (data s)) as [records|]; [|reflexivity].
  assert (Hix : index_for table_name [(key, VDict ops)] s = None).
  { unfold index_for. destruct (sget table_name (indexes s)) as [tix|];
      [|reflexivity].
    now destruct (sget key tix). }
  rewrite Hix. unfold select_full_scan.
  now rewrite (filter_match_all _ records Hall).
Qed.
End Properties.

(** * The properties on concrete inputs *)

(** C9 on the table name [ghost] of an instance without tables. *)
Lemma absent_table_witness :
  sget "ghost" (data (fresh [])) = None
  /\ (select str_scalar lower_ascii "ghost" None (Some 5%Z) 2%Z (fresh [])
      = Ok []
      /\ count str_scalar lower_ascii "ghost" None (fresh []) = Ok 0
      /\ insert (clock 10) "ghost" staff_a (fresh [])
         = (fresh [], Err (TableNotFoundError "ghost"))
      /\ update str_scalar lower_ascii (clock 10) "ghost"
           [("age", VInt 20)] [("age", VInt 21)] (fresh [])
         = (fresh [], Err (TableNotFoundError "ghost"))
      /\ delete str_scalar lower_ascii (clock 10) "ghost" [("age", VInt 20)]
           (fresh [])
         = (fresh [], Err (TableNotFoundError "ghost"))).
Proof.
  split; [reflexivity|].
  apply (absent_table_select_count_do_not_raise str_scalar lower_ascii
           (fresh []) "ghost" None (Some 5%Z) 2%Z (clock 10) staff_a
           [("age", VInt 20)] [("age", VInt 21)]).
  reflexivity.
Defined.

(** C2 as stated fails: the record [{dept: "eng"}] has no [age], and it
    matches each of the conditions on [age] below, where the claim has it
    rejected. *)
Lemma missing_field_matches_operator_conditions :
  sget "age" [("dept", VStr "eng")] = None
  /\ _match_condition str_scalar lower_ascii [("dept", VStr "eng")]
       [("age", VDict [("$gt", VInt 5)])] = Ok true
  /\ _match_condition str_scalar lower_ascii [("dept", VStr "eng")]
       [("age", VDict [("$gte", VInt 5)])] = Ok true
  /\ _match_condition str_scalar lower_ascii [("dept", VStr "eng")]
       [("age", VDict [("$lt", VInt 5)])] = Ok true
  /\ _match_condition str_scalar lower_ascii [("dept", VStr "eng")]
       [("age", VDict [("$lte", VInt 5)])] = Ok true
  /\ _match_condition str_scalar lower_ascii [("dept", VStr "eng")]
       [("age", VDict [("$like", VStr "5")])] = Ok true.
Proof. repeat split. Qed.

(** C2 (amended) on the record [{dept: "eng"}] and the field [age]. *)
Lemma missing_field_witness :
  sget "age" [("dept", VStr "eng")] = None
  /\ ((forall ops before after,
          _match_condition str_scalar lower_ascii [("dept", VStr "eng")]
            (before ++ ("age", VDict ops) :: after)
          = _match_condition str_scalar lower_ascii [("dept", VStr "eng")]
              (before ++ after))
      /\ (forall value before after,
            (forall ops, value <> VDict ops) ->
            _match_condition str_scalar lower_ascii [("dept", VStr "eng")]
              (before ++ ("age", value) :: after) <> Ok true)
      /\ (forall value,
            (forall ops, value <> VDict ops) ->
            _match_condition str_scalar lower_ascii [("dept", VStr "eng")]
              [("age", value)] = Ok false)).
Proof.
  split; [reflexivity|].
  apply (missing_field_skips_operators_fails_equality str_scalar lower_ascii
           [("dept", VStr "eng")] "age").
  reflexivity.
Defined.

(** C7 as stated fails: under a record limit of 1 and with one record in
    the table, the insert of a record that violates the schema (its name
    is longer than 5) raises the error of the record limit, not
    [ValidationError]. *)
Lemma invalid_insert_into_full_table_raises_limit_error :
  let s := fst (insert (clock 10) "users" [("name", VStr "ab")] (users_db 1)) in
  sget "users" (data s)
  = Some [[("name", VStr "ab");
           ("_created_at", VStr "2024-01-01T00:00:00"); ("_id", VInt 1)]]
  /\ validate_fields users_schema [("name", VStr "toolong")]
     = Err (ValidationError (TooLong "name" 5))
  /\ insert (clock 20) "users" [("name", VStr "toolong")] s
     = (s, Err (ADBError "record limit reached")).
Proof. vm_compute. repeat split. Qed.

Lemma toolong_violates_users_schema :
  violates users_schema [("name", VStr "toolong")].
Proof.
  exists "name", (mkConstraints (Some TStr) true (Some 5%Z)).
  split; [now left|]. right. right.
  exists "toolong", 5%Z.
  split; [reflexivity|]. split; [reflexivity|]. split; [discriminate|].
  cbn. lia.
Defined.

(** C7 (amended) on the users scenario: into the empty table the record
    [{name: "toolong"}] is refused with [ValidationError] and nothing
    changes; an insert that returns gives [_id] 1. *)
Lemma users_insert_witness :
  sget "users" (data (users_db 100000)) = Some []
  /\ (exists x,
        insert (clock 20) "users" [("name", VStr "toolong")] (users_db 100000)
        = (users_db 100000, Err x)
        /\ exists why, x = ValidationError why)
  /\ (forall s' b,
        insert (clock 10) "users" [("name", VStr "ab")] (users_db 100000)
        = (s', Ok b) ->
        exists stored,
          sget "users" (data s') = Some ([] ++ [stored])
          /\ sget "_id" stored = Some (VInt (Z.of_nat 0 + 1))
          /\ (@nil record = [] -> sget "_id" stored = Some (VInt 1))).
Proof.
  split; [reflexivity|]. split.
  - exact (proj1 (insert_invalid_changes_nothing_and_id_is_count_plus_one
                    (users_db 100000) (clock 20) "users"
                    [("name", VStr "toolong")] [] eq_refl)
             users_schema eq_refl toolong_violates_users_schema).
  - exact (proj2 (insert_invalid_changes_nothing_and_id_is_count_plus_one
                    (users_db 100000) (clock 10) "users"
                    [("name", VStr "ab")] [] eq_refl)).
Defined.

(** C3 as stated fails: the staff table holds three records and has an
    index on [dept]; a transaction inserts one more [eng] record and then
    raises.  Afterwards the table holds its three records again, but the
    index on [dept] is not what it was: it lists position 3 under [eng],
    where no record stands. *)
Lemma failed_transaction_leaves_position_in_index :
  let body := run_body str_scalar lower_ascii
                [OpInsert (clock 40) "staff" staff_d; OpRaise boom] in
  let after := fst (transaction (clock 50) body staff_db) in
  snd (transaction (clock 50) body staff_db) = Err boom
  /\ sget "staff" (data staff_db)
     = Some [stamped staff_a 1; stamped staff_b 2; stamped staff_c 3]
  /\ sget "staff" (data after)
     = Some [stamped staff_a 1; stamped staff_b 2; stamped staff_c 3]
  /\ sget "staff" (indexes staff_db)
     = Some [("dept", [(VStr "eng", [0; 1]); (VStr "hr", [2])])]
  /\ sget "staff" (indexes after)
     = Some [("dept", [(VStr "eng", [0; 1; 3]); (VStr "hr", [2])])].
Proof. vm_compute. repeat split. Qed.

(** C3 (amended) on the staff table and the insert of one record. *)
Lemma failed_transaction_witness :
  let ins := [(clock 40, staff_d)] in
  let records := [stamped staff_a 1; stamped staff_b 2; stamped staff_c 3] in
  let s2 := fst (run_body str_scalar lower_ascii (insert_ops "staff" ins)
                   (begin_transaction staff_db)) in
  _transaction_active staff_db = false
  /\ sget "staff" (data staff_db) = Some records
  /\ run_body str_scalar lower_ascii (insert_ops "staff" ins)
       (begin_transaction staff_db)
     = (s2, Ok tt)
  /\ sget "staff" (data s2)
     = Some (records ++ stored_records (List.length records) ins)
  /\ exists s',
      transaction (clock 50)
        (run_body str_scalar lower_ascii
           (insert_ops "staff" ins ++ [OpRaise boom])) staff_db
      = (s', Err boom)
      /\ data s' = data staff_db
      /\ sget "staff" (data s') = Some records
      /\ indexes s' = indexes s2
      /\ forall tix column idx,
           sget "staff" (indexes staff_db) = Some tix ->
           sget column tix = Some idx ->
           exists tix' idx',
             sget "staff" (indexes s') = Some tix'
             /\ sget column tix' = Some idx'
             /\ (forall v p,
                   In p (index_get idx v) -> In p (index_get idx' v))
             /\ forall j e_j r_j v,
                  nth_error ins j = Some (e_j, r_j) ->
                  sget column
                    (stored_record e_j (List.length records + j) r_j)
                  = Some v ->
                  In (List.length records + j) (index_get idx' v)
                  /\ nth_error records (List.length records + j) = None.
Proof.
  cbv zeta.
  refine ((fun H1 H2 H3 => conj H1 (conj H2 (conj H3
             (failed_transaction_restores_data_not_indexes
                str_scalar lower_ascii (clock 50) "staff"
                [(clock 40, staff_d)] boom staff_db
                (fst (run_body str_scalar lower_ascii
                        (insert_ops "staff" [(clock 40, staff_d)])
                        (begin_transaction staff_db)))
                [stamped staff_a 1; stamped staff_b 2; stamped staff_c 3]
                H1 H2 H3)))) _ _ _);
    vm_compute; reflexivity.
Defined.

(** C4 on the staff table: the body inserts a record and raises. *)
Lemma rollback_witness :
  let ops := [OpInsert (clock 40) "staff" staff_d; OpRaise boom] in
  let s2 := fst (run_body str_scalar lower_ascii ops
                   (begin_transaction staff_db)) in
  _transaction_active staff_db = false
  /\ run_body str_scalar lower_ascii ops (begin_transaction staff_db)
     = (s2, Err boom)
  /\ exists s',
       transaction (clock 50) (run_body str_scalar lower_ascii ops) staff_db
       = (s', Err boom)
       /\ data s' = data staff_db
       /\ _transaction_active s' = false
       /\ _transaction_backup s' = None
       /\ (forall e' x', snd (transaction e' (raise x') s') = Err x')
       /\ (forall e',
             json_serializable s' = true ->
             snd (transaction e' (ret tt) s') = Ok tt)
       /\ (forall e',
             json_serializable s' = false -> io_ok e' = true ->
             snd (transaction e' (ret tt) s') = Err TypeError).
Proof.
  cbv zeta.
  refine ((fun H1 H2 => conj H1 (conj H2
             (transaction_rollback_restores_data_and_reraises
                str_scalar lower_ascii (clock 50)
                [OpInsert (clock 40) "staff" staff_d; OpRaise boom] staff_db
                (fst (run_body str_scalar lower_ascii
                        [OpInsert (clock 40) "staff" staff_d; OpRaise boom]
                        (begin_transaction staff_db)))
                boom H1 H2))) _ _);
    vm_compute; reflexivity.
Defined.



(** C8 as stated fails on a field that holds a list: the stage raises
    instead of grouping.  And the key of a record without the field is the
    string ["null"], a key of its own beside [None]: the record whose
    [owner] is [None] and the record without [owner] make two groups. *)
Lemma group_stage_raises_on_list_and_null_is_a_string :
  sget "posts" (data posts_db)
  = Some [[("tags", VList [VInt 1]);
           ("_created_at", VStr "2024-01-01T00:00:00"); ("_id", VInt 1)]]
  /\ aggregate str_scalar lower_ascii "posts" [group_by "tags"] posts_db
     = Err TypeError
  /\ aggregate str_scalar lower_ascii "notes" [group_by "owner"] notes_db
     = Ok [[("_id", VNone); ("count", VInt 1)];
           [("_id", VStr "null"); ("count", VInt 1)]].
Proof. vm_compute. repeat split. Qed.

(** C8 (amended) on the staff table grouped by [dept]. *)
Lemma group_stage_witness :
  let records := [stamped staff_a 1; stamped staff_b 2; stamped staff_c 3] in
  aggregate str_scalar lower_ascii "staff" [group_by "dept"] staff_db
  = Ok (grouped "dept" records)
  /\ grouped "dept" records
     = [[("_id", VStr "eng"); ("count", VInt 2)];
        [("_id", VStr "hr"); ("count", VInt 1)]].
Proof.
  cbv zeta.
  pose proof (group_stage_counts_each_distinct_key str_scalar lower_ascii
                staff_db "staff" "dept"
                [stamped staff_a 1; stamped staff_b 2; stamped staff_c 3]
                (group_by "dept") [("_id", VStr "dept")]
                eq_refl eq_refl eq_refl) as H.
  cbv zeta in H. split.
  - apply H. intros r [<-|[<-|[<-|[]]]]; reflexivity.
  - reflexivity.
Defined.

(** C10 on a store holding the caller's dictionary at address 0. *)
Lemma given_record_witness :
  nth_error (objects staff_store) 0 = Some staff_a
  /\ nth_error (objects (fst (insert_obj (clock 10) "staff" 0 staff_store))) 0
     = Some staff_a
  /\ snd (insert_obj (clock 10) "staff" 0 staff_store) = Ok true
  /\ sget "staff" (rows (fst (insert_obj (clock 10) "staff" 0 staff_store)))
     = Some [1]
  /\ nth_error (objects (fst (insert_obj (clock 10) "staff" 0 staff_store))) 1
     = Some (stamped staff_a 1).
Proof.
  split; [reflexivity|].
  pose proof (insert_leaves_the_given_record_unchanged
                (clock 10) "staff" 0 staff_a staff_store
                (fst (insert_obj (clock 10) "staff" 0 staff_store))
                (snd (insert_obj (clock 10) "staff" 0 staff_store))
                eq_refl (surjective_pairing _)) as (H0 & _ & H).
  split; [exact H0|]. split; [reflexivity|].
  destruct (H true [] eq_refl eq_refl) as (Hrows & _ & Hcopy).
  split; [exact Hrows|exact Hcopy].
Defined.

Lemma staff_store_well_formed : well_formed staff_store.
Proof.
  intros t refs a [H|[]] Ha. inversion H; subst. destruct Ha.
Defined.

(** The two models of [insert] on the store holding the caller's
    dictionary at address 0. *)
Lemma insert_models_agree_witness :
  insert (clock 10) "staff" staff_a (view staff_store)
  = (view (fst (insert_obj (clock 10) "staff" 0 staff_store)),
     snd (insert_obj (clock 10) "staff" 0 staff_store))
  /\ well_formed (fst (insert_obj (clock 10) "staff" 0 staff_store)).
Proof.
  exact (insert_obj_refines_insert (clock 10) "staff" 0 staff_a staff_store
           (fst (insert_obj (clock 10) "staff" 0 staff_store))
           (snd (insert_obj (clock 10) "staff" 0 staff_store))
           staff_store_well_formed eq_refl (surjective_pairing _)).
Defined.

(** X1 on the staff table: the index on [dept] is created on the empty
    table, the three records are inserted, and [eng] is looked up. *)
Lemma index_lookup_witness :
  let s1 := fst (create_index "staff" "dept" (fresh ["staff"])) in
  let ins := [(clock 10, staff_a); (clock 20, staff_b); (clock 30, staff_c)] in
  let s2 := fst (run_body str_scalar lower_ascii (insert_ops "staff" ins) s1) in
  exists records idx,
    sget "staff" (data s2) = Some records
    /\ index_for "staff" [("dept", VStr "eng")] s2 = Some (idx, VStr "eng")
    /\ select str_scalar lower_ascii "staff" (Some [("dept", VStr "eng")])
         None 0 s2
       = select_via_index records idx (VStr "eng") None 0
    /\ select_via_index records idx (VStr "eng") None 0
       = select_full_scan str_scalar lower_ascii records
           [("dept", VStr "eng")] None 0
    /\ select_full_scan str_scalar lower_ascii records
         [("dept", VStr "eng")] None 0
       = Ok (paginate (filter (field_equals "dept" (VStr "eng")) records)
               None 0).
Proof.
  cbv zeta.
  apply (index_lookup_agrees_with_scan_after_inserts str_scalar lower_ascii
           (fresh ["staff"])
           (fst (create_index "staff" "dept" (fresh ["staff"])))
           (fst (run_body str_scalar lower_ascii
                   (insert_ops "staff"
                      [(clock 10, staff_a); (clock 20, staff_b);
                       (clock 30, staff_c)])
                   (fst (create_index "staff" "dept" (fresh ["staff"])))))
           "staff" "dept"
           [(clock 10, staff_a); (clock 20, staff_b); (clock 30, staff_c)]
           (VStr "eng") None 0%Z).
  - vm_compute. reflexivity.
  - vm_compute. reflexivity.
  - reflexivity.
Defined.

(** X2 on the staff table after the deletion. *)
Lemma rebuild_indexes_witness :
  let st := fst (staff_after_delete str_scalar lower_ascii (fresh ["staff"])) in
  _rebuild_indexes "staff" st = (st, Ok tt).
Proof.
  cbv zeta.
  apply (rebuild_indexes_rebuilds_nothing _ "staff"
           [stamped staff_b 2; stamped staff_c 3]).
  vm_compute. reflexivity.
Defined.

(** X4 on the staff table with its index on [dept]. *)
Lemma truncate_table_witness :
  let s' := fst (truncate_table (clock 40) "staff" staff_db) in
  sget "staff" (data staff_db) = Some staff_records
  /\ sget "staff" (data s') = Some []
  /\ count str_scalar lower_ascii "staff" None s' = Ok 0
  /\ schemas s' = schemas staff_db
  /\ list_indexes "staff" s' = list_indexes "staff" staff_db
  /\ (forall tix column,
        sget "staff" (indexes staff_db) = Some tix ->
        smem column tix = true ->
        index_exact "staff" column s')
  /\ (forall other, other <> "staff" ->
        sget other (data s') = sget other (data staff_db)).
Proof.
  cbv zeta.
  refine ((fun H => conj H
             (truncate_table_leaves_empty_exact_indexes
                str_scalar lower_ascii (clock 40) "staff" staff_db
                staff_records H)) _).
  vm_compute. reflexivity.
Defined.

(** X5 on the staff table after the deletion, whose index on [dept] is
    stale. *)
Lemma drop_then_create_index_witness :
  let s1 := fst (drop_index "staff" "dept" staff_deleted) in
  let s2 := fst (create_index "staff" "dept" s1) in
  drop_index "staff" "dept" staff_deleted = (s1, Ok true)
  /\ create_index "staff" "dept" s1 = (s2, Ok true)
  /\ true = true
  /\ data s2 = data staff_deleted
  /\ index_exact "staff" "dept" s2.
Proof.
  cbv zeta.
  refine ((fun H1 H2 => conj H1 (conj H2
             (drop_index_then_create_index_is_exact "staff" "dept"
                staff_deleted
                (fst (drop_index "staff" "dept" staff_deleted))
                (fst (create_index "staff" "dept"
                        (fst (drop_index "staff" "dept" staff_deleted))))
                true H1 H2))) _ _);
    vm_compute; reflexivity.
Defined.

(** X7 on the staff table after the deletion: the records of [_id] 2
    and 3 become those of [_id] 1 and 2. *)
Lemma optimize_table_witness :
  let records := [stamped staff_b 2; stamped staff_c 3] in
  let s' := fst (optimize_table (clock 50) "staff" staff_deleted) in
  sget "staff" (data staff_deleted) = Some records
  /\ indexes s' = indexes staff_deleted
  /\ exists records',
       sget "staff" (data s') = Some records'
       /\ List.length records' = List.length records
       /\ forall i r, nth_error records i = Some r ->
            exists r',
              nth_error records' i = Some r'
              /\ sget "_id" r' = Some (VInt (Z.of_nat i + 1))
              /\ forall field, field <> "_id" ->
                   sget field r' = sget field r.
Proof.
  cbv zeta.
  refine ((fun H => conj H
             (optimize_table_renumbers_ids (clock 50) "staff" staff_deleted
                [stamped staff_b 2; stamped staff_c 3] H)) _).
  vm_compute. reflexivity.
Defined.

(** X8 on the staff table: a column [email] with the default [None]. *)
Lemma add_column_witness :
  let s' := fst (alter_table (clock 40) "staff" "add_column" "email"
                   no_constraint VNone staff_db) in
  sget "staff" (data staff_db) = Some staff_records
  /\ indexes s' = indexes staff_db
  /\ (sget "staff" (schemas staff_db) = None
      -> schemas s' = schemas staff_db)
  /\ (forall sch,
        sget "staff" (schemas staff_db) = Some sch ->
        exists sch',
          sget "staff" (schemas s') = Some sch'
          /\ sget "email" sch' = Some no_constraint
          /\ forall field, field <> "email" ->
               sget field sch' = sget field sch)
  /\ exists records',
       sget "staff" (data s') = Some records'
       /\ List.length records' = List.length staff_records
       /\ forall i r, nth_error staff_records i = Some r ->
            exists r',
              nth_error records' i = Some r'
              /\ sget "email" r'
                 = Some (match sget "email" r with
                         | Some v => v
                         | None => VNone
                         end)
              /\ forall field, field <> "email" ->
                   sget field r' = sget field r.
Proof.
  cbv zeta.
  refine ((fun H => conj H
             (add_column_fills_in_the_default (clock 40) "staff" "email"
                no_constraint VNone staff_db staff_records H)) _).
  vm_compute. reflexivity.
Defined.

(** X9 on the staff table: the indexed column [dept] is dropped. *)
Lemma drop_column_witness :
  let s' := fst (alter_table (clock 40) "staff" "drop_column" "dept"
                   no_constraint VNone staff_db) in
  sget "staff" (data staff_db) = Some staff_records
  /\ (forall tix,
        sget "staff" (indexes staff_db) = Some tix ->
        exists tix',
          sget "staff" (indexes s') = Some tix'
          /\ sget "dept" tix' = None
          /\ forall column, column <> "dept" ->
               sget column tix' = sget column tix)
  /\ (forall sch,
        sget "staff" (schemas staff_db) = Some sch ->
        exists sch',
          sget "staff" (schemas s') = Some sch'
          /\ sget "dept" sch' = None
          /\ forall field, field <> "dept" ->
               sget field sch' = sget field sch)
  /\ exists records',
       sget "staff" (data s') = Some records'
       /\ List.length records' = List.length staff_records
       /\ forall i r, nth_error staff_records i = Some r ->
            exists r',
              nth_error records' i = Some r'
              /\ sget "dept" r' = None
              /\ forall field, field <> "dept" ->
                   sget field r' = sget field r.
Proof.
  cbv zeta.
  refine ((fun H => conj H
             (drop_column_removes_field_index_and_schema_entry (clock 40)
                "staff" "dept" no_constraint VNone staff_db staff_records
                H)) _).
  vm_compute. reflexivity.
Defined.

(** X10 on the staff table: the record of age 20 is deleted. *)
Lemma delete_witness :
  let condition := [("age", VInt 20)] in
  let s' := fst (delete str_scalar lower_ascii (clock 40) "staff" condition
                   staff_db) in
  sget "staff" (data staff_db) = Some staff_records
  /\ delete str_scalar lower_ascii (clock 40) "staff" condition staff_db
     = (s', Ok 1)
  /\ count str_scalar lower_ascii "staff" (Some condition) staff_db = Ok 1
  /\ count str_scalar lower_ascii "staff" (Some condition) s' = Ok 0
  /\ (exists kept,
        sget "staff" (data s') = Some kept
        /\ filter_not_match str_scalar lower_ascii staff_records condition
           = Ok kept
        /\ List.length kept + 1 = List.length staff_records)
  /\ (forall other, other <> "staff" ->
        sget other (data s') = sget other (data staff_db))
  /\ indexes s' = indexes staff_db.
Proof.
  cbv zeta.
  refine ((fun H1 H2 => conj H1 (conj H2
             (delete_removes_exactly_the_matching_records
                str_scalar lower_ascii (clock 40) "staff"
                [("age", VInt 20)] staff_db
                (fst (delete str_scalar lower_ascii (clock 40) "staff"
                        [("age", VInt 20)] staff_db))
                1 staff_records H1 H2))) _ _);
    vm_compute; reflexivity.
Defined.

(** X11 on the staff table: the two [eng] records get the age 21. *)
Lemma update_witness :
  let condition := [("dept", VStr "eng")] in
  let new_values := [("age", VInt 21)] in
  let s' := fst (update str_scalar lower_ascii (clock 40) "staff" condition
                   new_values staff_db) in
  sget "staff" (data staff_db) = Some staff_records
  /\ update str_scalar lower_ascii (clock 40) "staff" condition new_values
       staff_db
     = (s', Ok 2)
  /\ (exists records',
        sget "staff" (data s') = Some records'
        /\ List.length records' = List.length staff_records)
  /\ indexes s' = indexes staff_db
  /\ forall n, Ok 2 = Ok n ->
       count str_scalar lower_ascii "staff" (Some condition) staff_db = Ok n.
Proof.
  cbv zeta.
  refine ((fun H1 H2 => conj H1 (conj H2
             (update_keeps_the_record_count_and_returns_the_match_count
                str_scalar lower_ascii (clock 40) "staff"
                [("dept", VStr "eng")] [("age", VInt 21)] staff_db
                (fst (update str_scalar lower_ascii (clock 40) "staff"
                        [("dept", VStr "eng")] [("age", VInt 21)] staff_db))
                (Ok 2) staff_records H1 H2))) _ _);
    vm_compute; reflexivity.
Defined.

(** X12 on a table whose second record holds a string under [age]: the
    condition [age > 18] matches the first record and raises
    [TypeError] on the second. *)
Lemma update_not_atomic_witness :
  let c0 := ("age", VDict [("$gt", VInt 18)]) in
  let new_values := [("adult", VBool true)] in
  let r1 := stamped staff_a 1 in
  let r2 := stamped staff_old 2 in
  let r1' := sset "_updated_at" (VStr (now_isoformat (clock 40)))
               (dict_update r1 new_values) in
  sget "staff" (data mixed_db) = Some [r1; r2]
  /\ _match_condition str_scalar lower_ascii r1 [c0] = Ok true
  /\ validate_in (schemas mixed_db) "staff" (dict_update r1 new_values)
     = Ok true
  /\ (_match_condition str_scalar lower_ascii r2 [c0] = Err TypeError
      \/ (_match_condition str_scalar lower_ascii r2 [c0] = Ok true
          /\ validate_in (schemas mixed_db) "staff"
               (dict_update r2 new_values)
             = Err TypeError))
  /\ exists s',
       update str_scalar lower_ascii (clock 40) "staff" [c0] new_values
         mixed_db
       = (s', Err TypeError)
       /\ sget "staff" (data s') = Some [r1'; r2]
       /\ disk s' = disk mixed_db.
Proof.
  cbv zeta.
  refine ((fun H1 H2 H3 H4 => conj H1 (conj H2 (conj H3 (conj H4
             (update_that_raises_keeps_the_earlier_changes
                str_scalar lower_ascii (clock 40) "staff"
                ("age", VDict [("$gt", VInt 18)]) []
                [("adult", VBool true)] mixed_db
                (stamped staff_a 1) (stamped staff_old 2) [] true TypeError
                H1 H2 H3 H4))))) _ _ _ _);
    [vm_compute; reflexivity | vm_compute; reflexivity
    | vm_compute; reflexivity | left; vm_compute; reflexivity].
Defined.

(** X13 on the staff table: one record is skipped and at most one
    returned. *)
Lemma select_window_witness :
  let window (l : list record) :=
    if (1 =? 0)%Z then skipn (Z.to_nat 1) l
    else firstn (Z.to_nat 1) (skipn (Z.to_nat 1) l) in
  sget "staff" (data staff_db) = Some staff_records
  /\ (0 <= 1)%Z /\ (0 <= 1)%Z
  /\ select str_scalar lower_ascii "staff" None (Some 1%Z) 1 staff_db
     = Ok (window staff_records)
  /\ forall condition found,
       filter_match str_scalar lower_ascii staff_records condition
       = Ok found ->
       select_full_scan str_scalar lower_ascii staff_records condition
         (Some 1%Z) 1
       = Ok (window found).
Proof.
  cbv zeta.
  refine ((fun H1 H2 H3 => conj H1 (conj H2 (conj H3
             (select_returns_the_window_of_offset_and_limit
                str_scalar lower_ascii "staff" staff_db staff_records
                1%Z 1%Z H1 H2 H3)))) _ _ _);
    [vm_compute; reflexivity | lia | lia].
Defined.

(** X15: a record is inserted and saved at 10; the insert at 10.5 is
    not written. *)
Lemma insert_not_written_witness :
  let s := fst (insert (clock 10) "staff" staff_a (fresh ["staff"])) in
  let e := half_past 10 in
  let s' := fst (insert e "staff" staff_b s) in
  _transaction_active s = false
  /\ (time_time e - _last_save_time s < _save_interval s)%Q
  /\ insert e "staff" staff_b s = (s', Ok true)
  /\ true = true
  /\ disk s' = disk s
  /\ _last_save_time s' = _last_save_time s
  /\ exists records stored,
       sget "staff" (data s) = Some records
       /\ sget "staff" (data s') = Some (records ++ [stored]).
Proof.
  cbv zeta.
  refine ((fun H1 H2 H3 => conj H1 (conj H2 (conj H3
             (insert_within_the_save_interval_writes_nothing
                (half_past 10) "staff" staff_b
                (fst (insert (clock 10) "staff" staff_a (fresh ["staff"])))
                (fst (insert (half_past 10) "staff" staff_b
                        (fst (insert (clock 10) "staff" staff_a
                                (fresh ["staff"])))))
                true H1 H2 H3)))) _ _ _);
    vm_compute; reflexivity.
Defined.

(** X16 on the staff table: a record is inserted, then a transaction is
    opened inside the transaction. *)
Lemma nested_transaction_witness :
  let ops := [OpInsert (clock 40) "staff" staff_d] in
  let s1 := fst (run_body str_scalar lower_ascii ops
                   (begin_transaction staff_db)) in
  _transaction_active staff_db = false
  /\ run_body str_scalar lower_ascii ops (begin_transaction staff_db)
     = (s1, Ok tt)
  /\ transaction (clock 60)
       (run_body str_scalar lower_ascii ops ;;;
        transaction (clock 50) (ret tt) ;;; ret tt) staff_db
     = (set_transaction false None (set_data (data staff_db) s1),
        Err (ADBError "transaction already active")).
Proof.
  cbv zeta.
  refine ((fun H1 H2 => conj H1 (conj H2
             (nested_transaction_raises_and_rolls_back
                str_scalar lower_ascii (clock 60) (clock 50)
                [OpInsert (clock 40) "staff" staff_d] (ret tt) (ret tt)
                staff_db
                (fst (run_body str_scalar lower_ascii
                        [OpInsert (clock 40) "staff" staff_d]
                        (begin_transaction staff_db)))
                H1 H2))) _ _);
    vm_compute; reflexivity.
Defined.

(** X17: the table [users] is created beside [staff], and a record is
    inserted. *)
Lemma create_table_witness :
  let s := fresh ["staff"] in
  let s1 := fst (create_table isalnum_ascii (clock 10) "users" None s) in
  _validate_table_name isalnum_ascii "users" = None
  /\ smem "users" (data s) = false
  /\ sget "users" (schemas s) = None
  /\ (0 < max_records s)%Z
  /\ json_serializable s = true
  /\ list_tables s1 = list_tables s ++ ["users"]
  /\ exists s2 b,
       insert (clock 20) "users" staff_a s1 = (s2, Ok b)
       /\ select str_scalar lower_ascii "users" None None 0 s2
          = Ok [stored_record (clock 20) 0 staff_a]
       /\ sget "_id" (stored_record (clock 20) 0 staff_a) = Some (VInt 1).
Proof.
  cbv zeta.
  refine ((fun H1 H2 H3 H4 H5 =>
             conj H1 (conj H2 (conj H3 (conj H4 (conj H5
               (create_table_then_insert_then_select
                  str_scalar lower_ascii isalnum_ascii (clock 10) (clock 20)
                  "users" staff_a (fresh ["staff"]) H1 H2 H3 H4 H5))))))
            _ _ _ _ _);
    vm_compute; reflexivity.
Defined.

(** X18 on the name [_-_]. *)
Lemma table_name_refused_witness :
  isalnum_ascii "" = false
  /\ only_underscores_and_hyphens "_-_" = true
  /\ exists why,
       create_table isalnum_ascii (clock 10) "_-_" None (fresh [])
       = (fresh [], NameRefused why).
Proof.
  refine ((fun H1 H2 => conj H1 (conj H2
             (create_table_refuses_a_name_without_letter_or_digit
                isalnum_ascii (clock 10) "_-_" None (fresh []) H1 H2)))
            _ _);
    vm_compute; reflexivity.
Defined.

(** X19 on the staff table: the schema of the users scenario is set,
    which no staff record fits. *)
Lemma set_schema_witness :
  let r := [("name", VStr "toolong")] in
  let s1 := fst (set_schema (clock 40) "staff" users_schema staff_db) in
  sget "staff" (data staff_db) = Some staff_records
  /\ get_schema "staff" s1 = Some users_schema
  /\ sget "staff" (data s1) = Some staff_records
  /\ (violates users_schema r ->
      exists x, insert (clock 50) "staff" r s1 = (s1, Err x)).
Proof.
  cbv zeta.
  refine ((fun H => conj H
             (set_schema_binds_later_inserts_only (clock 40) (clock 50)
                "staff" users_schema [("name", VStr "toolong")] staff_db
                staff_records H)) _).
  vm_compute. reflexivity.
Defined.

(** X20 on the staff table: the index on [dept] is made on the empty
    table, the three records are inserted, and [eng] is looked up. *)
Lemma explain_query_witness :
  let s0 := fresh ["staff"] in
  let s1 := fst (create_index "staff" "dept" s0) in
  let ins := [(clock 10, staff_a); (clock 20, staff_b); (clock 30, staff_c)] in
  let s := fst (run_body str_scalar lower_ascii (insert_ops "staff" ins) s1) in
  create_index "staff" "dept" s0 = (s1, Ok true)
  /\ run_body str_scalar lower_ascii (insert_ops "staff" ins) s1 = (s, Ok tt)
  /\ hashable (VStr "eng") = true
  /\ exists found,
       select str_scalar lower_ascii "staff" (Some [("dept", VStr "eng")])
         None 0 s
       = Ok found
       /\ explain_query "staff" (Some [("dept", VStr "eng")]) s
          = Ok (mkPlan "index_scan" (List.length found) ["dept"])
       /\ exists records,
            sget "staff" (data s) = Some records
            /\ found = filter (field_equals "dept" (VStr "eng")) records.
Proof.
  cbv zeta.
  refine ((fun H1 H2 H3 => conj H1 (conj H2 (conj H3
             (explain_query_estimate_is_exact_for_an_exact_index
                str_scalar lower_ascii (fresh ["staff"])
                (fst (create_index "staff" "dept" (fresh ["staff"])))
                (fst (run_body str_scalar lower_ascii
                        (insert_ops "staff"
                           [(clock 10, staff_a); (clock 20, staff_b);
                            (clock 30, staff_c)])
                        (fst (create_index "staff" "dept"
                                (fresh ["staff"])))))
                "staff" "dept"
                [(clock 10, staff_a); (clock 20, staff_b);
                 (clock 30, staff_c)]
                (VStr "eng") H1 H2 H3)))) _ _ _);
    vm_compute; reflexivity.
Defined.

(** X21 on the staff table: of the two records given, the second holds
    a list under the indexed column and fails. *)
Lemma import_insert_witness :
  let items := [(clock 40, clock 40, staff_d);
                (clock 41, clock 41, [("dept", VList [])])] in
  _transaction_active staff_db = false
  /\ json_serializable staff_db = true
  /\ sget "staff" (data staff_db) = Some staff_records
  /\ exists s' imported errors records',
       import_data str_scalar lower_ascii (clock 42) "staff" items "insert"
         staff_db
       = (s', ImportCounts imported 0 errors None)
       /\ imported + errors = List.length items
       /\ sget "staff" (data s') = Some records'
       /\ List.length records' = List.length staff_records + imported
       /\ _transaction_active s' = false.
Proof.
  cbv zeta.
  refine ((fun H1 H2 H3 => conj H1 (conj H2 (conj H3
             (import_data_insert_accounts_for_every_record
                str_scalar lower_ascii (clock 42) "staff"
                [(clock 40, clock 40, staff_d);
                 (clock 41, clock 41, [("dept", VList [])])]
                staff_db staff_records H1 H2 H3)))) _ _ _);
    vm_compute; reflexivity.
Defined.

(** X22 on the staff table: inside a transaction in mode [insert], and
    outside one in the mode [merge], which [import_data] does not
    know. *)
Lemma import_in_transaction_witness :
  let s_in := begin_transaction staff_db in
  let items := [(clock 40, clock 40, staff_d)] in
  smem "staff" (data s_in) = true
  /\ _transaction_active s_in = true
  /\ smem "staff" (data staff_db) = true
  /\ _transaction_active staff_db = false
  /\ json_serializable staff_db = true
  /\ String.eqb "merge" "insert" = false
  /\ String.eqb "merge" "replace" = false
  /\ String.eqb "merge" "update" = false
  /\ import_data str_scalar lower_ascii (clock 42) "staff" items "insert"
       s_in
     = (s_in, ImportCounts 0 0 0
                (Some (ADBError "transaction already active")))
  /\ exists s',
       import_data str_scalar lower_ascii (clock 42) "staff" items "merge"
         staff_db
       = (s', ImportCounts 0 0 0 None)
       /\ data s' = data staff_db.
Proof.
  cbv zeta.
  refine ((fun H1 H2 H3 H4 H5 H6 H7 H8 =>
             conj H1 (conj H2 (conj H3 (conj H4 (conj H5 (conj H6
               (conj H7 (conj H8
                 (import_data_imports_nothing_in_a_transaction_or_unknown_mode
                    str_scalar lower_ascii (clock 42) "staff"
                    [(clock 40, clock 40, staff_d)] "insert" "merge"
                    (begin_transaction staff_db) staff_db
                    H1 H2 H3 H4 H5 H6 H7 H8)))))))))
            _ _ _ _ _ _ _ _);
    vm_compute; reflexivity.
Defined.

(** X23 on the staff table: the record of [_id] 1 is replaced, and the
    new record gets the [_id] 3, which the [hr] record has too. *)
Lemma import_replace_witness :
  let r := [("_id", VInt 1); ("dept", VStr "ops")] in
  let s' := fst (import_data str_scalar lower_ascii (clock 42) "staff"
                   [(clock 40, clock 41, r)] "replace" staff_db) in
  _transaction_active staff_db = false
  /\ sget "staff" (data staff_db) = Some staff_records
  /\ sget "_id" r = Some (VInt 1)
  /\ import_data str_scalar lower_ascii (clock 42) "staff"
       [(clock 40, clock 41, r)] "replace" staff_db
     = (s', ImportCounts 1 0 0 None)
  /\ exists kept,
       filter_not_match str_scalar lower_ascii staff_records
         [("_id", VInt 1)]
       = Ok kept
       /\ sget "staff" (data s')
          = Some (kept ++ [stored_record (clock 41) (List.length kept) r])
       /\ sget "_id" (stored_record (clock 41) (List.length kept) r)
          = Some (VInt (Z.of_nat (List.length kept) + 1)).
Proof.
  cbv zeta.
  refine ((fun H1 H2 H3 H4 => conj H1 (conj H2 (conj H3 (conj H4
             (import_data_replace_gives_the_record_a_new_id
                str_scalar lower_ascii (clock 42) (clock 40) (clock 41)
                "staff" [("_id", VInt 1); ("dept", VStr "ops")] (VInt 1)
                staff_db
                (fst (import_data str_scalar lower_ascii (clock 42) "staff"
                        [(clock 40, clock 41,
                          [("_id", VInt 1); ("dept", VStr "ops")])]
                        "replace" staff_db))
                staff_records H1 H2 H3 H4))))) _ _ _ _);
    vm_compute; reflexivity.
Defined.

(** X24: the file holds the index on [age] with the keys 20 and 40;
    once it is reloaded the record of age 20 is no longer found. *)
Lemma reloaded_index_witness :
  let s' := fst (load_database ages_db) in
  let idx := [(VStr "20", [0]); (VStr "40", [1])] in
  sget "staff" (indexes s') = Some [("age", idx)]
  /\ sget "age" [("age", idx)] = Some idx
  /\ hashable (VInt 20) = true
  /\ select str_scalar lower_ascii "staff" (Some [("age", VInt 20)]) None 0
       ages_db
     = Ok [stamped staff_a 1]
  /\ select str_scalar lower_ascii "staff" (Some [("age", VInt 20)]) None 0
       s'
     = Ok [].
Proof.
  cbv zeta.
  refine ((fun H1 H2 H3 H4 => conj H1 (conj H2 (conj H3 (conj H4
             (reloaded_index_finds_no_value_that_is_not_a_string
                str_scalar lower_ascii ages_db "staff" "age" (VInt 20)
                None 0%Z
                [("age", [(VStr "20", [0]); (VStr "40", [1])])]
                [(VStr "20", [0]); (VStr "40", [1])] H1 H2 H3
                (fun u H => eq_ind (VInt 20)
                              (fun v => match v with
                                        | VInt _ => True
                                        | _ => False
                                        end) I (VStr u) H)))))) _ _ _ _);
    vm_compute; reflexivity.
Defined.

(** X25: the second record was inserted half a second after the save
    and is lost by a [vacuum] run within that second. *)
Lemma vacuum_witness :
  let clock := fun _ : nat => half_past 10 in
  _transaction_active unsaved_db = false
  /\ sget "staff" (data unsaved_db)
     = Some [stamped staff_a 1; stamped staff_b 2]
  /\ (forall i,
        (time_time (clock i) - _last_save_time unsaved_db
         < _save_interval unsaved_db)%Q)
  /\ exists s',
       vacuum clock unsaved_db = (s', Ok true)
       /\ disk s' = disk unsaved_db
       /\ data s' = match disk unsaved_db with
                    | [] => []
                    | f :: _ => f_tables f
                    end.
Proof.
  cbv zeta.
  refine ((fun H1 H2 H3 => conj H1 (conj H2 (conj H3
             (vacuum_within_the_save_interval_reloads_the_last_file
                (fun _ : nat => half_past 10) unsaved_db H1 H3)))) _ _ _);
    [vm_compute; reflexivity | vm_compute; reflexivity
    | intros i; vm_compute; reflexivity].
Defined.

(** X26 on the staff table: the records above 25 are grouped by
    [dept]. *)
Lemma aggregate_witness :
  let condition := [("age", VDict [("$gt", VInt 25)])] in
  let found := [stamped staff_b 2; stamped staff_c 3] in
  sget "staff" (data staff_db) = Some staff_records
  /\ filter_match str_scalar lower_ascii staff_records condition = Ok found
  /\ aggregate str_scalar lower_ascii "staff"
       [[("$match", VDict condition)]] staff_db
     = Ok found
  /\ aggregate str_scalar lower_ascii "staff"
       [[("$match", VDict condition)]; group_by "dept"] staff_db
     = Ok (grouped "dept" found)
  /\ forall stage pipeline,
       sget "$group" stage = None -> sget "$match" stage = None ->
       aggregate str_scalar lower_ascii "staff" (stage :: pipeline) staff_db
       = aggregate str_scalar lower_ascii "staff" pipeline staff_db.
Proof.
  cbv zeta.
  refine ((fun H1 H2 H3 => conj H1 (conj H2
             (aggregate_match_then_group_and_unknown_stages
                str_scalar lower_ascii "staff" "dept"
                [("age", VDict [("$gt", VInt 25)])] staff_db staff_records
                [stamped staff_b 2; stamped staff_c 3] H1 H2 H3))) _ _ _);
    [vm_compute; reflexivity | vm_compute; reflexivity
    | repeat constructor].
Defined.

(** X27 on a staff record of age 20 and the range from 18 to 60. *)
Lemma range_condition_witness :
  let ops := [("$gt", VInt 18); ("$lt", VInt 60)] in
  sget "age" staff_a = Some (VInt 20)
  /\ integer_bounds ops
  /\ sget "$like" ops = None
  /\ in_range ops 20 = true
  /\ _match_condition str_scalar lower_ascii staff_a [("age", VDict ops)]
     = Ok (in_range ops 20).
Proof.
  cbv zeta.
  refine ((fun H1 H2 H3 H4 => conj H1 (conj H2 (conj H3 (conj H4
             (range_condition_on_an_integer_field
                str_scalar lower_ascii staff_a "age"
                [("$gt", VInt 18); ("$lt", VInt 60)] 20%Z H1 H2 H3)))))
            _ _ _ _);
    [vm_compute; reflexivity | | vm_compute; reflexivity
    | vm_compute; reflexivity].
  intros opname bound Hin Hb.
  destruct Hin as [<-|[<-|[<-|[<-|[]]]]]; vm_compute in Hb;
    inversion Hb; eexists; reflexivity.
Defined.

(** X28 on the staff table and the operator [$ne]. *)
Lemma unknown_operator_witness :
  let ops := [("$ne", VStr "eng")] in
  sget "$gt" ops = None /\ sget "$lt" ops = None
  /\ sget "$gte" ops = None /\ sget "$lte" ops = None
  /\ sget "$like" ops = None
  /\ (forall r,
        _match_condition str_scalar lower_ascii r [("dept", VDict ops)]
        = Ok true)
  /\ select str_scalar lower_ascii "staff" (Some [("dept", VDict ops)])
       None 0 staff_db
     = select str_scalar lower_ascii "staff" None None 0 staff_db.
Proof.
  cbv zeta.
  refine ((fun H1 H2 H3 H4 H5 =>
             conj H1 (conj H2 (conj H3 (conj H4 (conj H5
               (dictionary_condition_without_known_operator_matches_everything
                  str_scalar lower_ascii "staff" "dept"
                  [("$ne", VStr "eng")] None 0%Z staff_db
                  H1 H2 H3 H4 H5)))))) _ _ _ _ _);
    vm_compute; reflexivity.
Defined.
